(** * gs-plugin-android: the F-Droid adapter of GNOME Software

    A shallow embedding of [src/gs-plugin-android/gs-plugin-android.c]:
    the listing entry point and its installed, updatable and search
    continuations, install, uninstall and update with theirs, and then
    setup, metadata refresh, the repository listing and removal, and the
    filter that launch hands to [gs_plugin_app_launch_filtered_async].

    The plugin is written against three libraries whose objects it only
    handles through their API: gnome-software ([GsApp], [GsAppList],
    [GsAppQuery], [GsPlugin]), GLib/GIO ([GError], [GVariant], [GTask],
    [GDBusProxy]) and json-glib.  The first part of this file gives those
    objects a functional reading, each function under the name the C code
    calls it by and with the behaviour the library documents; the second
    part is the plugin itself, function by function, a C loop becoming a
    recursion over the list it runs through; the third part holds the
    notions and examples the properties need, and the fourth the
    properties.

    [GsApp] objects are reference counted and shared between lists, so they
    live in an object store ([objects]) and lists hold positions in it.  An
    asynchronous operation is two functions: the [_async] entry point,
    which ends by completing its task or by handing it to a D-Bus call
    ([Called]), and the [_cb] continuation, which gets the outcome of that
    call.  [gs_plugin_status_update] is not modelled. *)

From Stdlib Require Import ZArith String Ascii List Bool Lia.
From stdpp Require Import base option list strings pretty gmap.

Local Open Scope string_scope.
Local Open Scope list_scope.

(** ** GLib *)

Inductive GErrorDomain :=
| G_IO_ERROR
| G_DBUS_ERROR
| JSON_PARSER_ERROR.

Record GError := {
  error_domain : GErrorDomain;
  error_code : Z;
  error_message : string }.

(** [GIOErrorEnum], the two codes the plugin raises itself. *)
Definition G_IO_ERROR_FAILED : Z := 0.
Definition G_IO_ERROR_NOT_SUPPORTED : Z := 15.

Definition g_error_new (d : GErrorDomain) (c : Z) (m : string) : GError :=
  {| error_domain := d; error_code := c; error_message := m |}.

(** [g_str_has_prefix (str, prefix)]. *)
Definition g_str_has_prefix (str pre : string) : bool := String.prefix pre str.

(** [g_strcmp0 (a, b) == 0]: NULL-safe string equality, NULL equal to NULL. *)
Definition g_strcmp0_eq (a b : option string) : bool := bool_decide (a = b).

(** What [printf ("%s")] shows for a possibly-NULL string. *)
Definition fmt (s : option string) : string := default "(null)" s.

(** [g_dbus_error_strip_remote_error]: a remote error arrives with the
    message ["GDBus.Error:<D-Bus error name>: <message>"]; the function
    finds the first colon after the ["GDBus.Error:"] prefix and, when a
    space follows it, keeps only what comes after that space. *)
Definition g_dbus_error_strip_remote_error (e : GError) : GError :=
  let m := error_message e in
  if g_str_has_prefix m "GDBus.Error:" then
    let begin := String.substring 12 (String.length m - 12) m in
    match String.index 0 ":" begin with
    | Some pos =>
        match String.get (pos + 1) begin with
        | Some " "%char =>
            {| error_domain := error_domain e;
               error_code := error_code e;
               error_message :=
                 String.substring (pos + 2) (String.length begin - (pos + 2)) begin |}
        | _ => e
        end
    | None => e
    end
  else e.

(** A [GVariant] held in an [a{sv}] dictionary.  The plugin only ever asks
    for strings; any other type makes the lookup fail. *)
Inductive GVariant :=
| GVariantString (s : string)
| GVariantBoolean (b : bool)
| GVariantInt64 (n : Z).

(** [g_variant_dict_lookup (dict, key, "&s", &out)]: [out] is written only
    when the key is present and holds a string; it stays NULL otherwise. *)
Definition g_variant_dict_lookup (dict : gmap string GVariant) (key : string)
  : option string :=
  match dict !! key with
  | Some (GVariantString s) => Some s
  | _ => None
  end.

(** ** json-glib *)

#[local] Set Warnings "-register-all".

Inductive JsonNode :=
| JsonNull
| JsonBoolean (b : bool)
| JsonNumber (n : Z)
| JsonString (s : string)
| JsonArray (elements : list JsonNode)
| JsonObject (members : list (string * JsonNode)).

(** The text handed to [json_parser_load_from_data], read as what the
    parser makes of it: a syntax error, or a document and its root (an
    empty text has no root). *)
Inductive JsonData :=
| JsonMalformed (e : GError)
| JsonDocument (root : option JsonNode).

Definition json_parser_load_from_data (d : JsonData) : GError + option JsonNode :=
  match d with
  | JsonMalformed e => inl e
  | JsonDocument root => inr root
  end.

(** [json_node_get_array]: NULL unless the node holds an array. *)
Definition json_node_get_array (root : option JsonNode) : option (list JsonNode) :=
  match root with
  | Some (JsonArray l) => Some l
  | _ => None
  end.

(** [json_array_get_length]: 0 on a NULL array. *)
Definition json_array_get_length (a : option (list JsonNode)) : nat :=
  match a with
  | Some l => length l
  | None => 0
  end.

(** [json_node_get_object]: NULL unless the node holds an object. *)
Definition json_node_get_object (n : JsonNode) : option (list (string * JsonNode)) :=
  match n with
  | JsonObject ms => Some ms
  | _ => None
  end.

Fixpoint json_object_get_member (ms : list (string * JsonNode)) (key : string)
  : option JsonNode :=
  match ms with
  | [] => None
  | (k, v) :: ms' => if String.eqb k key then Some v else json_object_get_member ms' key
  end.

(** [json_object_get_string_member]: NULL on a NULL object, a missing
    member, a null member, or a member that is not a string. *)
Definition json_object_get_string_member
    (obj : option (list (string * JsonNode))) (key : string) : option string :=
  match obj ≫= (fun ms => json_object_get_member ms key) with
  | Some (JsonString s) => Some s
  | _ => None
  end.

(** [json_object_get_object_member]: NULL unless the member is an object. *)
Definition json_object_get_object_member
    (obj : option (list (string * JsonNode))) (key : string)
  : option (list (string * JsonNode)) :=
  match obj ≫= (fun ms => json_object_get_member ms key) with
  | Some (JsonObject ms) => Some ms
  | _ => None
  end.

(** ** gnome-software: GsApp *)

Inductive AsComponentKind :=
| AS_COMPONENT_KIND_UNKNOWN
| AS_COMPONENT_KIND_DESKTOP_APP
| AS_COMPONENT_KIND_REPOSITORY.

Inductive AsComponentScope :=
| AS_COMPONENT_SCOPE_UNKNOWN
| AS_COMPONENT_SCOPE_SYSTEM
| AS_COMPONENT_SCOPE_USER.

Inductive AsBundleKind :=
| AS_BUNDLE_KIND_UNKNOWN
| AS_BUNDLE_KIND_PACKAGE
| AS_BUNDLE_KIND_FLATPAK.

(** The states the plugin moves applications through, and the state every
    [GsApp] is born in. *)
Inductive GsAppState :=
| GS_APP_STATE_UNKNOWN
| GS_APP_STATE_INSTALLED
| GS_APP_STATE_AVAILABLE
| GS_APP_STATE_UPDATABLE
| GS_APP_STATE_INSTALLING
| GS_APP_STATE_REMOVING.

Inductive GsAppQuirk :=
| GS_APP_QUIRK_HAS_SOURCE
| GS_APP_QUIRK_NOT_LAUNCHABLE.

Inductive GsAppKudo :=
| GS_APP_KUDO_SANDBOXED_SECURE.

Inductive GsAppQuality :=
| GS_APP_QUALITY_UNKNOWN
| GS_APP_QUALITY_LOWEST
| GS_APP_QUALITY_NORMAL.

(** The descriptive string properties of a [GsApp]. *)
Inductive GsAppText :=
| TEXT_NAME
| TEXT_SUMMARY
| TEXT_DESCRIPTION
| TEXT_LICENSE
| TEXT_DEVELOPER_NAME
| TEXT_URL_HOMEPAGE
| TEXT_VERSION
| TEXT_UPDATE_VERSION.

#[global] Instance AsComponentKind_eq_dec : EqDecision AsComponentKind.
Proof. solve_decision. Defined.
#[global] Instance AsComponentScope_eq_dec : EqDecision AsComponentScope.
Proof. solve_decision. Defined.
#[global] Instance AsBundleKind_eq_dec : EqDecision AsBundleKind.
Proof. solve_decision. Defined.
#[global] Instance GsAppState_eq_dec : EqDecision GsAppState.
Proof. solve_decision. Defined.
#[global] Instance GsAppText_eq_dec : EqDecision GsAppText.
Proof. solve_decision. Defined.

(** A plugin is known by its name. *)
Definition GsPlugin := string.

Record GsApp := {
  app_id : option string;
  app_kind : AsComponentKind;
  app_scope : AsComponentScope;
  app_bundle_kind : AsBundleKind;
  app_state : GsAppState;
  app_state_recover : GsAppState;
  app_quirks : list GsAppQuirk;
  app_kudos : list GsAppKudo;
  app_allow_cancel : bool;
  app_management_plugin : option GsPlugin;
  app_name_quality : GsAppQuality;
  app_text : GsAppText -> option string;
  app_metadata : gmap string string;
  app_sources : list string;
  app_icons : list string }.

(** [gs_app_new (id)]; the id may be NULL. *)
Definition gs_app_new (id : option string) : GsApp :=
  {| app_id := id;
     app_kind := AS_COMPONENT_KIND_UNKNOWN;
     app_scope := AS_COMPONENT_SCOPE_UNKNOWN;
     app_bundle_kind := AS_BUNDLE_KIND_UNKNOWN;
     app_state := GS_APP_STATE_UNKNOWN;
     app_state_recover := GS_APP_STATE_UNKNOWN;
     app_quirks := [];
     app_kudos := [];
     app_allow_cancel := true;
     app_management_plugin := None;
     app_name_quality := GS_APP_QUALITY_UNKNOWN;
     app_text := fun _ => None;
     app_metadata := ∅;
     app_sources := [];
     app_icons := [] |}.

(** Field updates: [with_f v a] is [a] with field [app_f] replaced by [v]. *)

Definition with_kind (v : AsComponentKind) (a : GsApp) : GsApp :=
  {| app_id := app_id a;
     app_kind := v;
     app_scope := app_scope a;
     app_bundle_kind := app_bundle_kind a;
     app_state := app_state a;
     app_state_recover := app_state_recover a;
     app_quirks := app_quirks a;
     app_kudos := app_kudos a;
     app_allow_cancel := app_allow_cancel a;
     app_management_plugin := app_management_plugin a;
     app_name_quality := app_name_quality a;
     app_text := app_text a;
     app_metadata := app_metadata a;
     app_sources := app_sources a;
     app_icons := app_icons a |}.

Definition with_scope (v : AsComponentScope) (a : GsApp) : GsApp :=
  {| app_id := app_id a;
     app_kind := app_kind a;
     app_scope := v;
     app_bundle_kind := app_bundle_kind a;
     app_state := app_state a;
     app_state_recover := app_state_recover a;
     app_quirks := app_quirks a;
     app_kudos := app_kudos a;
     app_allow_cancel := app_allow_cancel a;
     app_management_plugin := app_management_plugin a;
     app_name_quality := app_name_quality a;
     app_text := app_text a;
     app_metadata := app_metadata a;
     app_sources := app_sources a;
     app_icons := app_icons a |}.

Definition with_bundle_kind (v : AsBundleKind) (a : GsApp) : GsApp :=
  {| app_id := app_id a;
     app_kind := app_kind a;
     app_scope := app_scope a;
     app_bundle_kind := v;
     app_state := app_state a;
     app_state_recover := app_state_recover a;
     app_quirks := app_quirks a;
     app_kudos := app_kudos a;
     app_allow_cancel := app_allow_cancel a;
     app_management_plugin := app_management_plugin a;
     app_name_quality := app_name_quality a;
     app_text := app_text a;
     app_metadata := app_metadata a;
     app_sources := app_sources a;
     app_icons := app_icons a |}.

Definition with_state (v : GsAppState) (a : GsApp) : GsApp :=
  {| app_id := app_id a;
     app_kind := app_kind a;
     app_scope := app_scope a;
     app_bundle_kind := app_bundle_kind a;
     app_state := v;
     app_state_recover := app_state_recover a;
     app_quirks := app_quirks a;
     app_kudos := app_kudos a;
     app_allow_cancel := app_allow_cancel a;
     app_management_plugin := app_management_plugin a;
     app_name_quality := app_name_quality a;
     app_text := app_text a;
     app_metadata := app_metadata a;
     app_sources := app_sources a;
     app_icons := app_icons a |}.

Definition with_state_recover (v : GsAppState) (a : GsApp) : GsApp :=
  {| app_id := app_id a;
     app_kind := app_kind a;
     app_scope := app_scope a;
     app_bundle_kind := app_bundle_kind a;
     app_state := app_state a;
     app_state_recover := v;
     app_quirks := app_quirks a;
     app_kudos := app_kudos a;
     app_allow_cancel := app_allow_cancel a;
     app_management_plugin := app_management_plugin a;
     app_name_quality := app_name_quality a;
     app_text := app_text a;
     app_metadata := app_metadata a;
     app_sources := app_sources a;
     app_icons := app_icons a |}.

Definition with_quirks (v : list GsAppQuirk) (a : GsApp) : GsApp :=
  {| app_id := app_id a;
     app_kind := app_kind a;
     app_scope := app_scope a;
     app_bundle_kind := app_bundle_kind a;
     app_state := app_state a;
     app_state_recover := app_state_recover a;
     app_quirks := v;
     app_kudos := app_kudos a;
     app_allow_cancel := app_allow_cancel a;
     app_management_plugin := app_management_plugin a;
     app_name_quality := app_name_quality a;
     app_text := app_text a;
     app_metadata := app_metadata a;
     app_sources := app_sources a;
     app_icons := app_icons a |}.

Definition with_kudos (v : list GsAppKudo) (a : GsApp) : GsApp :=
  {| app_id := app_id a;
     app_kind := app_kind a;
     app_scope := app_scope a;
     app_bundle_kind := app_bundle_kind a;
     app_state := app_state a;
     app_state_recover := app_state_recover a;
     app_quirks := app_quirks a;
     app_kudos := v;
     app_allow_cancel := app_allow_cancel a;
     app_management_plugin := app_management_plugin a;
     app_name_quality := app_name_quality a;
     app_text := app_text a;
     app_metadata := app_metadata a;
     app_sources := app_sources a;
     app_icons := app_icons a |}.

Definition with_allow_cancel (v : bool) (a : GsApp) : GsApp :=
  {| app_id := app_id a;
     app_kind := app_kind a;
     app_scope := app_scope a;
     app_bundle_kind := app_bundle_kind a;
     app_state := app_state a;
     app_state_recover := app_state_recover a;
     app_quirks := app_quirks a;
     app_kudos := app_kudos a;
     app_allow_cancel := v;
     app_management_plugin := app_management_plugin a;
     app_name_quality := app_name_quality a;
     app_text := app_text a;
     app_metadata := app_metadata a;
     app_sources := app_sources a;
     app_icons := app_icons a |}.

Definition with_management_plugin (v : option GsPlugin) (a : GsApp) : GsApp :=
  {| app_id := app_id a;
     app_kind := app_kind a;
     app_scope := app_scope a;
     app_bundle_kind := app_bundle_kind a;
     app_state := app_state a;
     app_state_recover := app_state_recover a;
     app_quirks := app_quirks a;
     app_kudos := app_kudos a;
     app_allow_cancel := app_allow_cancel a;
     app_management_plugin := v;
     app_name_quality := app_name_quality a;
     app_text := app_text a;
     app_metadata := app_metadata a;
     app_sources := app_sources a;
     app_icons := app_icons a |}.

Definition with_name_quality (v : GsAppQuality) (a : GsApp) : GsApp :=
  {| app_id := app_id a;
     app_kind := app_kind a;
     app_scope := app_scope a;
     app_bundle_kind := app_bundle_kind a;
     app_state := app_state a;
     app_state_recover := app_state_recover a;
     app_quirks := app_quirks a;
     app_kudos := app_kudos a;
     app_allow_cancel := app_allow_cancel a;
     app_management_plugin := app_management_plugin a;
     app_name_quality := v;
     app_text := app_text a;
     app_metadata := app_metadata a;
     app_sources := app_sources a;
     app_icons := app_icons a |}.

Definition with_text (v : GsAppText -> option string) (a : GsApp) : GsApp :=
  {| app_id := app_id a;
     app_kind := app_kind a;
     app_scope := app_scope a;
     app_bundle_kind := app_bundle_kind a;
     app_state := app_state a;
     app_state_recover := app_state_recover a;
     app_quirks := app_quirks a;
     app_kudos := app_kudos a;
     app_allow_cancel := app_allow_cancel a;
     app_management_plugin := app_management_plugin a;
     app_name_quality := app_name_quality a;
     app_text := v;
     app_metadata := app_metadata a;
     app_sources := app_sources a;
     app_icons := app_icons a |}.

Definition with_metadata (v : gmap string string) (a : GsApp) : GsApp :=
  {| app_id := app_id a;
     app_kind := app_kind a;
     app_scope := app_scope a;
     app_bundle_kind := app_bundle_kind a;
     app_state := app_state a;
     app_state_recover := app_state_recover a;
     app_quirks := app_quirks a;
     app_kudos := app_kudos a;
     app_allow_cancel := app_allow_cancel a;
     app_management_plugin := app_management_plugin a;
     app_name_quality := app_name_quality a;
     app_text := app_text a;
     app_metadata := v;
     app_sources := app_sources a;
     app_icons := app_icons a |}.

Definition with_sources (v : list string) (a : GsApp) : GsApp :=
  {| app_id := app_id a;
     app_kind := app_kind a;
     app_scope := app_scope a;
     app_bundle_kind := app_bundle_kind a;
     app_state := app_state a;
     app_state_recover := app_state_recover a;
     app_quirks := app_quirks a;
     app_kudos := app_kudos a;
     app_allow_cancel := app_allow_cancel a;
     app_management_plugin := app_management_plugin a;
     app_name_quality := app_name_quality a;
     app_text := app_text a;
     app_metadata := app_metadata a;
     app_sources := v;
     app_icons := app_icons a |}.

Definition with_icons (v : list string) (a : GsApp) : GsApp :=
  {| app_id := app_id a;
     app_kind := app_kind a;
     app_scope := app_scope a;
     app_bundle_kind := app_bundle_kind a;
     app_state := app_state a;
     app_state_recover := app_state_recover a;
     app_quirks := app_quirks a;
     app_kudos := app_kudos a;
     app_allow_cancel := app_allow_cancel a;
     app_management_plugin := app_management_plugin a;
     app_name_quality := app_name_quality a;
     app_text := app_text a;
     app_metadata := app_metadata a;
     app_sources := app_sources a;
     app_icons := v |}.

(** The API of [GsApp] as the plugin uses it.  The object comes last, so
    that a C statement sequence reads as a chain of [let]s. *)

Definition gs_app_get_id (a : GsApp) : option string := app_id a.
Definition gs_app_get_kind (a : GsApp) : AsComponentKind := app_kind a.
Definition gs_app_get_state (a : GsApp) : GsAppState := app_state a.
Definition gs_app_get_name (a : GsApp) : option string := app_text a TEXT_NAME.

Definition gs_app_set_kind := with_kind.
Definition gs_app_set_scope := with_scope.
Definition gs_app_set_bundle_kind := with_bundle_kind.
Definition gs_app_set_allow_cancel := with_allow_cancel.

Definition gs_app_add_quirk (q : GsAppQuirk) (a : GsApp) : GsApp :=
  with_quirks (app_quirks a ++ [q]) a.

Definition gs_app_add_kudo (k : GsAppKudo) (a : GsApp) : GsApp :=
  with_kudos (app_kudos a ++ [k]) a.

(** [gs_app_set_management_plugin (app, plugin)]. *)
Definition gs_app_set_management_plugin (plugin : GsPlugin) (a : GsApp) : GsApp :=
  with_management_plugin (Some plugin) a.

(** [gs_app_has_management_plugin (app, plugin)] for a non-NULL plugin. *)
Definition gs_app_has_management_plugin (a : GsApp) (plugin : GsPlugin) : bool :=
  bool_decide (app_management_plugin a = Some plugin).

Definition gs_app_set_text (k : GsAppText) (v : option string) (a : GsApp) : GsApp :=
  with_text (fun k' => if bool_decide (k' = k) then v else app_text a k') a.

(** [gs_app_set_name (app, quality, name)]: on the freshly made objects
    the plugin calls it on, any quality is good enough to be stored. *)
Definition gs_app_set_name (q : GsAppQuality) (name : option string) (a : GsApp) : GsApp :=
  with_name_quality q (gs_app_set_text TEXT_NAME name a).

Definition gs_app_set_summary (q : GsAppQuality) := gs_app_set_text TEXT_SUMMARY.
Definition gs_app_set_description (q : GsAppQuality) := gs_app_set_text TEXT_DESCRIPTION.
Definition gs_app_set_license (q : GsAppQuality) := gs_app_set_text TEXT_LICENSE.
Definition gs_app_set_developer_name := gs_app_set_text TEXT_DEVELOPER_NAME.
Definition gs_app_set_url_homepage := gs_app_set_text TEXT_URL_HOMEPAGE.
Definition gs_app_set_version := gs_app_set_text TEXT_VERSION.
Definition gs_app_set_update_version := gs_app_set_text TEXT_UPDATE_VERSION.

(** [gs_app_get_metadata_item (app, key)]: NULL when the key is unset. *)
Definition gs_app_get_metadata_item (a : GsApp) (key : string) : option string :=
  app_metadata a !! key.

(** [gs_app_set_metadata (app, key, value)]: a NULL value removes the key;
    a key that already has a value keeps it. *)
Definition gs_app_set_metadata (key : string) (value : option string) (a : GsApp) : GsApp :=
  match value with
  | None => with_metadata (delete key (app_metadata a)) a
  | Some v =>
      match app_metadata a !! key with
      | Some _ => a
      | None => with_metadata (<[key := v]> (app_metadata a)) a
      end
  end.

(** [gs_app_add_source (app, source)]: refuses NULL and a source it
    already has. *)
Definition gs_app_add_source (source : option string) (a : GsApp) : GsApp :=
  match source with
  | None => a
  | Some s => if bool_decide (s ∈ app_sources a) then a
              else with_sources (app_sources a ++ [s]) a
  end.

(** [gs_app_add_icon (app, gs_remote_icon_new (uri))]. *)
Definition gs_app_add_icon (uri : string) (a : GsApp) : GsApp :=
  with_icons (app_icons a ++ [uri]) a.

(** The states an operation passes through; they are never what
    [gs_app_set_state_recover] goes back to. *)
Definition gs_app_state_is_transient (s : GsAppState) : bool :=
  match s with
  | GS_APP_STATE_INSTALLING | GS_APP_STATE_REMOVING => true
  | _ => false
  end.

(** [gs_app_set_state (app, state)]: stores the state and, unless it is a
    transient one, remembers it as the state to recover to. *)
Definition gs_app_set_state (s : GsAppState) (a : GsApp) : GsApp :=
  if bool_decide (app_state a = s) then a
  else
    let a := with_state s a in
    if gs_app_state_is_transient s then a else with_state_recover s a.

(** [gs_app_set_state_recover (app)]: "sets the application state to the
    last status value that was not transient"; nothing happens when there
    is none yet. *)
Definition gs_app_set_state_recover (a : GsApp) : GsApp :=
  if bool_decide (app_state_recover a = GS_APP_STATE_UNKNOWN) then a
  else if bool_decide (app_state_recover a = app_state a) then a
  else with_state (app_state_recover a) a.

(** [gs_app_get_unique_id]: NULL without an id, otherwise
    ["scope/bundle/origin/id/branch"].  The plugin sets neither origin nor
    branch, so they are always the wildcard and are left out here. *)
Definition gs_app_get_unique_id (a : GsApp)
  : option (AsComponentScope * AsBundleKind * string) :=
  match app_id a with
  | None => None
  | Some id => Some (app_scope a, app_bundle_kind a, id)
  end.

Definition as_component_scope_to_string (s : AsComponentScope) : string :=
  match s with
  | AS_COMPONENT_SCOPE_UNKNOWN => "*"
  | AS_COMPONENT_SCOPE_SYSTEM => "system"
  | AS_COMPONENT_SCOPE_USER => "user"
  end.

Definition as_bundle_kind_to_string (b : AsBundleKind) : string :=
  match b with
  | AS_BUNDLE_KIND_UNKNOWN => "*"
  | AS_BUNDLE_KIND_PACKAGE => "package"
  | AS_BUNDLE_KIND_FLATPAK => "flatpak"
  end.

(** The unique id as [g_debug ("%s")] prints it. *)
Definition unique_id_to_string
    (u : option (AsComponentScope * AsBundleKind * string)) : option string :=
  match u with
  | None => None
  | Some (s, b, id) =>
      Some (as_component_scope_to_string s +:+ "/" +:+ as_bundle_kind_to_string b
            +:+ "/*/" +:+ id +:+ "/*")
  end.

(** [as_utils_data_id_equal]: part by part, an unknown part (printed as the
    wildcard) agreeing with anything. *)
Definition as_utils_data_id_equal
    (u1 u2 : AsComponentScope * AsBundleKind * string) : bool :=
  let '(s1, b1, id1) := u1 in
  let '(s2, b2, id2) := u2 in
  (bool_decide (s1 = AS_COMPONENT_SCOPE_UNKNOWN)
   || bool_decide (s2 = AS_COMPONENT_SCOPE_UNKNOWN)
   || bool_decide (s1 = s2))
  && (bool_decide (b1 = AS_BUNDLE_KIND_UNKNOWN)
      || bool_decide (b2 = AS_BUNDLE_KIND_UNKNOWN)
      || bool_decide (b1 = b2))
  && String.eqb id1 id2.

(** ** gnome-software: GsAppList

    A list holds references to [GsApp] objects: positions in the object
    store. *)

Definition gs_app_list_new : list nat := [].
Definition gs_app_list_length (l : list nat) : nat := length l.
Definition gs_app_list_index (l : list nat) (i : nat) : option nat := l !! i.
Definition gs_app_list_remove_all (l : list nat) : list nat := [].

(** [gs_app_list_lookup]: is there an app in the list with this unique id. *)
Definition gs_app_list_lookup (objs : list GsApp) (l : list nat)
    (u : AsComponentScope * AsBundleKind * string) : bool :=
  existsb (fun r => match objs !! r ≫= gs_app_get_unique_id with
                    | Some u' => as_utils_data_id_equal u' u
                    | None => false
                    end) l.

(** [gs_app_list_check_for_duplicate]: may the app be added.  Not when the
    very object is in the list already; otherwise an app without unique id
    always, and one with a unique id unless the list has an app with an
    equal one.  (Wildcard apps, which the plugin never makes, are not
    covered.) *)
Definition gs_app_list_check_for_duplicate (objs : list GsApp) (l : list nat) (r : nat)
  : bool :=
  if bool_decide (r ∈ l) then false
  else match objs !! r ≫= gs_app_get_unique_id with
       | None => true
       | Some u => negb (gs_app_list_lookup objs l u)
       end.

(** [gs_app_list_add (list, app)]: "if the application does not already
    exist in the list then it is added". *)
Definition gs_app_list_add (objs : list GsApp) (l : list nat) (r : nat) : list nat :=
  if gs_app_list_check_for_duplicate objs l r then l ++ [r] else l.

(** ** gnome-software: GsAppQuery *)

Inductive GsAppQueryTristate :=
| GS_APP_QUERY_TRISTATE_UNSET
| GS_APP_QUERY_TRISTATE_FALSE
| GS_APP_QUERY_TRISTATE_TRUE.

#[global] Instance GsAppQueryTristate_eq_dec : EqDecision GsAppQueryTristate.
Proof. solve_decision. Defined.

(** The four properties the plugin reads, and how many of the query's
    other properties (category, developers, provides-files, ...) are set.
    [query_keywords] is NULL or a non-empty vector. *)
Record GsAppQuery := {
  query_is_source : GsAppQueryTristate;
  query_is_installed : GsAppQueryTristate;
  query_is_for_update : GsAppQueryTristate;
  query_keywords : option (list string);
  query_other_properties_set : nat }.

Definition tristate_is_set (t : GsAppQueryTristate) : nat :=
  if bool_decide (t = GS_APP_QUERY_TRISTATE_UNSET) then 0 else 1.

(** [gs_app_query_get_n_properties_set]: the number of properties that
    are not at their default; 0 on a NULL query. *)
Definition gs_app_query_get_n_properties_set (query : option GsAppQuery) : nat :=
  match query with
  | None => 0
  | Some q =>
      tristate_is_set (query_is_source q)
      + tristate_is_set (query_is_installed q)
      + tristate_is_set (query_is_for_update q)
      + (if query_keywords q is Some _ then 1 else 0)
      + query_other_properties_set q
  end.

(** [g_strjoinv (" ", keywords)]. *)
Fixpoint g_strjoinv (sep : string) (v : list string) : string :=
  match v with
  | [] => ""
  | [s] => s
  | s :: v' => s +:+ sep +:+ g_strjoinv sep v'
  end.

(** ** The plugin's world

    [struct _GsPluginAndroid] has the two lists; next to them stand the
    object store they point into, what [g_debug] has printed and how often
    [gs_plugin_updates_changed] was called.  (The D-Bus proxy is the other
    end of [Called] below.) *)

Record State := {
  objects : list GsApp;
  installed_apps : list nat;
  updatable_apps : list nat;
  debug : list string;
  updates_changed : nat }.

Definition with_objects (v : list GsApp) (st : State) : State :=
  {| objects := v; installed_apps := installed_apps st;
     updatable_apps := updatable_apps st; debug := debug st;
     updates_changed := updates_changed st |}.

Definition with_installed_apps (v : list nat) (st : State) : State :=
  {| objects := objects st; installed_apps := v;
     updatable_apps := updatable_apps st; debug := debug st;
     updates_changed := updates_changed st |}.

Definition with_updatable_apps (v : list nat) (st : State) : State :=
  {| objects := objects st; installed_apps := installed_apps st;
     updatable_apps := v; debug := debug st;
     updates_changed := updates_changed st |}.

Definition g_debug (msg : string) (st : State) : State :=
  {| objects := objects st; installed_apps := installed_apps st;
     updatable_apps := updatable_apps st; debug := debug st ++ [msg];
     updates_changed := updates_changed st |}.

Definition gs_plugin_updates_changed (st : State) : State :=
  {| objects := objects st; installed_apps := installed_apps st;
     updatable_apps := updatable_apps st; debug := debug st;
     updates_changed := S (updates_changed st) |}.

(** [gs_plugin_android_init]: two empty lists. *)
Definition gs_plugin_android_init (objs : list GsApp) : State :=
  {| objects := objs; installed_apps := gs_app_list_new;
     updatable_apps := gs_app_list_new; debug := []; updates_changed := 0 |}.

(** A call [f (app, ...)] on the object behind reference [r]. *)
Definition update_app (r : nat) (f : GsApp -> GsApp) (st : State) : State :=
  with_objects (alter f r (objects st)) st.

(** A new object enters the store; its reference is the next free position. *)
Definition alloc_app (a : GsApp) (st : State) : State * nat :=
  (with_objects (objects st ++ [a]) st, length (objects st)).

Definition state_of (st : State) (r : nat) : option GsAppState :=
  gs_app_get_state <$> objects st !! r.

(** [gs_app_get_metadata_item] on the object behind [r]. *)
Definition metadata_item_of (st : State) (r : nat) (key : string) : option string :=
  match objects st !! r with
  | Some app => gs_app_get_metadata_item app key
  | None => None
  end.

(** How a [GTask] ends. *)
Inductive GTaskResult :=
| TaskBoolean (b : bool)
| TaskPointer (list_ : list nat)
| TaskError (e : GError).

(** The parameters of a D-Bus method call: [()], [(s)] or [(as)]. *)
Inductive DBusParameters :=
| ParametersNone
| ParametersString (s : option string)
| ParametersStrv (v : list string).

(** What an [_async] entry point has done when it returns: completed its
    task, handed the task (with its task data) to [g_dbus_proxy_call], or
    died in [g_assert]. *)
Inductive Async (D : Type) :=
| Returned (r : GTaskResult)
| Called (method : string) (parameters : DBusParameters) (task_data : D)
| Aborted.
Arguments Returned {D} r.
Arguments Called {D} method parameters task_data.
Arguments Aborted {D}.

Definition not_supported (msg : string) : GTaskResult :=
  TaskError (g_error_new G_IO_ERROR G_IO_ERROR_NOT_SUPPORTED msg).

(** ** Listing: installed and updatable applications *)

(** The application [fdroid_get_upgradable_cb] makes of a child that has
    a package name (the statements from [gs_app_new] to
    [gs_app_set_update_version]). *)
Definition fdroid_upgradable_app (self : GsPlugin) (package_name : string)
    (name id repository current_version available_version : option string) : GsApp :=
  let app := gs_app_new id in
  let app := gs_app_set_kind AS_COMPONENT_KIND_DESKTOP_APP app in
  let app := gs_app_set_scope AS_COMPONENT_SCOPE_SYSTEM app in
  let app := gs_app_set_bundle_kind AS_BUNDLE_KIND_PACKAGE app in
  let app := gs_app_set_allow_cancel false app in
  let app := gs_app_set_management_plugin self app in
  let app :=
    match name with
    | Some (String _ _) => gs_app_set_name GS_APP_QUALITY_NORMAL name app
    | _ => gs_app_set_name GS_APP_QUALITY_LOWEST (Some package_name) app
    end in
  let app := gs_app_set_metadata "android::package-name" id app in
  let app :=
    match repository with
    | Some _ => gs_app_set_metadata "android-store::repository" repository app
    | None => app
    end in
  let app := gs_app_add_source id app in
  let app := gs_app_set_metadata "GnomeSoftware::PackagingFormat" (Some "apk") app in
  let app := gs_app_set_state GS_APP_STATE_UPDATABLE app in
  let app := gs_app_add_kudo GS_APP_KUDO_SANDBOXED_SECURE app in
  let app :=
    match current_version with
    | Some _ => gs_app_set_version current_version app
    | None => app
    end in
  match available_version with
  | Some _ => gs_app_set_update_version available_version app
  | None => app
  end.

(** The body of the [while] loop of [fdroid_get_upgradable_cb]. *)
Definition fdroid_get_upgradable_child (self : GsPlugin)
    (acc : State * list nat) (child : gmap string GVariant) : State * list nat :=
  let '(st, list_) := acc in
  let package_name := g_variant_dict_lookup child "packageName" in
  let name := g_variant_dict_lookup child "name" in
  let id := g_variant_dict_lookup child "id" in
  let current_version := g_variant_dict_lookup child "currentVersion" in
  let available_version := g_variant_dict_lookup child "availableVersion" in
  let repository := g_variant_dict_lookup child "repository" in
  match package_name with
  | Some package_name =>
      let app := fdroid_upgradable_app self package_name name id repository
                   current_version available_version in
      let '(st, r) := alloc_app app st in
      let list_ := gs_app_list_add (objects st) list_ r in
      let st := with_updatable_apps (gs_app_list_add (objects st) (updatable_apps st) r) st in
      let st := g_debug ("Found upgrade for " +:+ package_name +:+ ": "
                         +:+ default "unknown" current_version +:+ " -> "
                         +:+ default "unknown" available_version) st in
      (st, list_)
  | None => (st, list_)
  end.

(** [fdroid_get_upgradable_cb]: [res] is what [g_dbus_proxy_call_finish]
    gives, an error or the [aa{sv}] of the reply.  [upgradable_count] goes
    up once for every child with a package name. *)
Definition fdroid_get_upgradable_cb (self : GsPlugin)
    (res : GError + list (gmap string GVariant)) (st : State) : State * GTaskResult :=
  match res with
  | inl local_error => (st, TaskError (g_dbus_error_strip_remote_error local_error))
  | inr result =>
      let '(st, list_) :=
        fold_left (fdroid_get_upgradable_child self) result (st, gs_app_list_new) in
      let upgradable_count :=
        length (filter (fun child => is_Some (g_variant_dict_lookup child "packageName"))
                       result) in
      let st :=
        if Nat.ltb 0 upgradable_count
        then g_debug ("Found " +:+ pretty upgradable_count +:+ " upgradable Android apps") st
        else g_debug "No upgradable Android apps found" st in
      (st, TaskPointer list_)
  end.

(** The application [fdroid_get_installed_apps_cb] makes of a child that
    has a package name (from [gs_app_new] to [gs_app_set_state]). *)
Definition fdroid_installed_app (self : GsPlugin) (package_name : string)
    (name id : option string) : GsApp :=
  let app := gs_app_new id in
  let app := gs_app_set_kind AS_COMPONENT_KIND_DESKTOP_APP app in
  let app := gs_app_set_scope AS_COMPONENT_SCOPE_SYSTEM app in
  let app := gs_app_set_bundle_kind AS_BUNDLE_KIND_PACKAGE app in
  let app := gs_app_add_quirk GS_APP_QUIRK_HAS_SOURCE app in
  let app := gs_app_set_allow_cancel false app in
  let app := gs_app_set_management_plugin self app in
  let app := gs_app_add_kudo GS_APP_KUDO_SANDBOXED_SECURE app in
  let app :=
    match name with
    | Some (String _ _) => gs_app_set_name GS_APP_QUALITY_NORMAL name app
    | _ => gs_app_set_name GS_APP_QUALITY_LOWEST (Some package_name) app
    end in
  let app := gs_app_set_metadata "android::package-name" (Some package_name) app in
  let app := gs_app_add_source id app in
  gs_app_set_state GS_APP_STATE_INSTALLED app.

(** The body of the [while] loop of [fdroid_get_installed_apps_cb]. *)
Definition fdroid_get_installed_apps_child (self : GsPlugin)
    (acc : State * list nat) (child : gmap string GVariant) : State * list nat :=
  let '(st, list_) := acc in
  let package_name := g_variant_dict_lookup child "packageName" in
  let name := g_variant_dict_lookup child "name" in
  let id := g_variant_dict_lookup child "id" in
  match package_name with
  | Some package_name =>
      let app := fdroid_installed_app self package_name name id in
      let '(st, r) := alloc_app app st in
      let list_ := gs_app_list_add (objects st) list_ r in
      let st := with_installed_apps (gs_app_list_add (objects st) (installed_apps st) r) st in
      let st := g_debug ("Added installed Android app: " +:+ fmt (gs_app_get_name app)
                         +:+ " (package: " +:+ package_name +:+ ")") st in
      (st, list_)
  | None => (st, list_)
  end.

(** [fdroid_get_installed_apps_cb]. *)
Definition fdroid_get_installed_apps_cb (self : GsPlugin)
    (res : GError + list (gmap string GVariant)) (st : State) : State * GTaskResult :=
  match res with
  | inl local_error => (st, TaskError (g_dbus_error_strip_remote_error local_error))
  | inr result =>
      let st := with_installed_apps (gs_app_list_remove_all (installed_apps st)) st in
      let '(st, list_) :=
        fold_left (fdroid_get_installed_apps_child self) result (st, gs_app_list_new) in
      (st, TaskPointer list_)
  end.

(** ** Listing: search *)

(** The inner [for] loop of [fdroid_search_cb]: does an installed app carry
    [id] as its ["android::package-name"]. *)
Definition search_is_installed (st : State) (id : option string) : bool :=
  existsb (fun r => match objects st !! r with
                    | Some installed_app =>
                        g_strcmp0_eq
                          (gs_app_get_metadata_item installed_app "android::package-name") id
                    | None => false
                    end) (installed_apps st).

(** One turn of the outer [for] loop of [fdroid_search_cb], up to
    [gs_app_set_state]: the application made from [element], and what
    [g_debug] prints on the way.

    [version] and [icon_url] are declared without initialiser and assigned
    only under [if (package)].  For an element without a package object the
    C code goes on to read them; [uninit] is whatever the two variables
    hold then. *)
Definition fdroid_search_element (self : GsPlugin) (st : State)
    (element : JsonNode) (uninit : option string * option string)
  : GsApp * list string :=
  let app_obj := json_node_get_object element in
  let id := json_object_get_string_member app_obj "id" in
  let name := json_object_get_string_member app_obj "name" in
  let summary := json_object_get_string_member app_obj "summary" in
  let description := json_object_get_string_member app_obj "description" in
  let license := json_object_get_string_member app_obj "license" in
  let author := json_object_get_string_member app_obj "author" in
  let web_url := json_object_get_string_member app_obj "web_url" in
  let repository := json_object_get_string_member app_obj "repository" in
  let package := json_object_get_object_member app_obj "package" in
  let '(version, icon_url, is_installed) :=
    match package with
    | Some _ =>
        (json_object_get_string_member package "version",
         json_object_get_string_member package "icon_url",
         search_is_installed st id)
    | None => (fst uninit, snd uninit, false)
    end in
  let app := gs_app_new id in
  let app := gs_app_set_kind AS_COMPONENT_KIND_DESKTOP_APP app in
  let app := gs_app_set_bundle_kind AS_BUNDLE_KIND_PACKAGE app in
  let app := gs_app_set_scope AS_COMPONENT_SCOPE_SYSTEM app in
  let app := gs_app_add_quirk GS_APP_QUIRK_HAS_SOURCE app in
  let app := gs_app_set_metadata "GnomeSoftware::Creator" (Some self) app in
  let app := gs_app_set_management_plugin self app in
  let app := gs_app_set_metadata "android::package-name" id app in
  let app := gs_app_set_metadata "android-store::repository" repository app in
  let app := gs_app_add_source id app in
  let app := gs_app_set_name GS_APP_QUALITY_NORMAL name app in
  let app := gs_app_set_summary GS_APP_QUALITY_NORMAL summary app in
  let app := gs_app_set_description GS_APP_QUALITY_NORMAL description app in
  let app := gs_app_set_version version app in
  let app := gs_app_set_license GS_APP_QUALITY_NORMAL license app in
  let app := gs_app_set_developer_name author app in
  let app := gs_app_set_url_homepage web_url app in
  let app := gs_app_add_kudo GS_APP_KUDO_SANDBOXED_SECURE app in
  let '(app, msgs) :=
    match icon_url with
    | Some icon_url =>
        if negb (g_str_has_prefix icon_url "http://")
           && negb (g_str_has_prefix icon_url "https://")
        then (app, ["App '" +:+ fmt name +:+ "' has invalid icon URL: " +:+ icon_url])
        else (gs_app_add_icon icon_url app, [])
    | None => (app, [])
    end in
  let app :=
    gs_app_set_state
      (if is_installed then GS_APP_STATE_INSTALLED else GS_APP_STATE_AVAILABLE) app in
  (app, msgs).

(** The outer [for] loop, from index [i] on. *)
Fixpoint fdroid_search_loop (self : GsPlugin) (uninit : nat -> option string * option string)
    (i : nat) (elements : list JsonNode) (st : State) (list_ : list nat)
  : State * list nat :=
  match elements with
  | [] => (st, list_)
  | element :: rest =>
      let '(app, msgs) := fdroid_search_element self st element (uninit i) in
      let st := fold_left (fun st msg => g_debug msg st) msgs st in
      let '(st, r) := alloc_app app st in
      let list_ := gs_app_list_add (objects st) list_ r in
      fdroid_search_loop self uninit (S i) rest st list_
  end.

(** [fdroid_search_cb]: [res] is an error or the string of the [(s)]
    reply.  A root that is not an array gives a NULL array, whose length
    is 0. *)
Definition fdroid_search_cb (self : GsPlugin)
    (uninit : nat -> option string * option string)
    (res : GError + JsonData) (st : State) : State * GTaskResult :=
  match res with
  | inl local_error => (st, TaskError (g_dbus_error_strip_remote_error local_error))
  | inr json_data =>
      match json_parser_load_from_data json_data with
      | inl local_error => (st, TaskError local_error)
      | inr root =>
          let array := json_node_get_array root in
          let '(st, list_) :=
            fdroid_search_loop self uninit 0 (default [] array) st gs_app_list_new in
          (st, TaskPointer list_)
      end
  end.

(** ** Listing: the entry point *)

(** [gs_plugin_android_list_apps_async]; the task data is unused. *)
Definition gs_plugin_android_list_apps_async (query : option GsAppQuery) (st : State)
  : State * Async unit :=
  let is_source := from_option query_is_source GS_APP_QUERY_TRISTATE_UNSET query in
  let is_installed := from_option query_is_installed GS_APP_QUERY_TRISTATE_UNSET query in
  let is_for_updates := from_option query_is_for_update GS_APP_QUERY_TRISTATE_UNSET query in
  let keywords := query ≫= query_keywords in
  if negb (Nat.eqb (gs_app_query_get_n_properties_set query) 1)
     || bool_decide (is_source = GS_APP_QUERY_TRISTATE_FALSE)
     || bool_decide (is_installed = GS_APP_QUERY_TRISTATE_FALSE)
     || bool_decide (is_for_updates = GS_APP_QUERY_TRISTATE_FALSE)
  then (st, Returned (not_supported "Unsupported query"))
  else if bool_decide (is_source = GS_APP_QUERY_TRISTATE_TRUE) then
    (g_debug "Listing repositories" st, Called "GetRepositories" ParametersNone ())
  else if bool_decide (is_installed = GS_APP_QUERY_TRISTATE_TRUE) then
    (g_debug "Listing installed apps" st, Called "GetInstalledApps" ParametersNone ())
  else if bool_decide (is_for_updates = GS_APP_QUERY_TRISTATE_TRUE) then
    (g_debug "Listing updates" st, Called "GetUpgradable" ParametersNone ())
  else match keywords with
       | Some keywords =>
           let query_str := g_strjoinv " " keywords in
           (g_debug ("Searching for apps: " +:+ query_str) st,
            Called "Search" (ParametersString (Some query_str)) ())
       | None => (st, Returned (not_supported "Unsupported query type"))
       end.

(** ** Install *)

Record GsPluginInstallAppsFlags := {
  install_interactive : bool;
  install_no_download : bool;
  install_no_apply : bool }.

(** The [for] loop of [gs_plugin_android_install_apps_async]: the plugin's
    world when the loop ends, and [install_list], or no list when
    [g_assert] fails; the world is then as the turns before have left it.
    A reference that points outside the store stands for no object and is
    passed over, here and in the loops below. *)
Fixpoint install_apps_loop (plugin : GsPlugin) (list_ : list nat)
    (install_list : list nat) (st : State) : State * option (list nat) :=
  match list_ with
  | [] => (st, Some install_list)
  | r :: rest =>
      match objects st !! r with
      | None => install_apps_loop plugin rest install_list st
      | Some app =>
          if bool_decide (gs_app_get_kind app = AS_COMPONENT_KIND_REPOSITORY)
          then (st, None)
          else if negb (gs_app_has_management_plugin app plugin) then
            install_apps_loop plugin rest install_list
              (g_debug "App is not managed by us, not installing" st)
          else
            match gs_app_get_metadata_item app "android::package-name" with
            | None =>
                install_apps_loop plugin rest install_list
                  (g_debug "No package name found for app, skipping installation" st)
            | Some package_name =>
                let st := g_debug ("Considering app " +:+ package_name
                                   +:+ " for installation") st in
                let install_list := gs_app_list_add (objects st) install_list r in
                let st := update_app r (gs_app_set_state GS_APP_STATE_INSTALLING) st in
                install_apps_loop plugin rest install_list st
            end
      end
  end.

(** [gs_plugin_android_install_apps_async]; the task data is
    [install_list]. *)
Definition gs_plugin_android_install_apps_async (plugin : GsPlugin)
    (list_ : list nat) (flags : GsPluginInstallAppsFlags) (st : State)
  : State * Async (list nat) :=
  if install_no_download flags || install_no_apply flags
  then (st, Returned (not_supported "Unsupported flags"))
  else
    match install_apps_loop plugin list_ gs_app_list_new st with
    | (st, None) => (st, Aborted)
    | (st, Some install_list) =>
        if negb (Nat.eqb (gs_app_list_length install_list) 1)
        then (st, Returned (not_supported "Can only install one app at a time"))
        else
          let package_name :=
            match gs_app_list_index install_list 0 with
            | Some app => metadata_item_of st app "android::package-name"
            | None => None
            end in
          (st, Called "Install" (ParametersString package_name) install_list)
    end.

(** [fdroid_install_app_cb]: [install_list] is the task data, [res] what
    [g_dbus_proxy_call_finish] gives. *)
Definition fdroid_install_app_cb (install_list : option (list nat))
    (res : GError + unit) (st : State) : State * GTaskResult :=
  match install_list with
  | None | Some [] =>
      (st, TaskError (g_error_new G_IO_ERROR G_IO_ERROR_FAILED "No app in install list"))
  | Some (r :: _) =>
      let package_name := metadata_item_of st r "android::package-name" in
      let st := g_debug ("Installed F-Droid app: " +:+ fmt package_name) st in
      match res with
      | inl local_error =>
          let st := update_app r gs_app_set_state_recover st in
          (st, TaskError (g_dbus_error_strip_remote_error local_error))
      | inr _ =>
          let st := update_app r (gs_app_set_state GS_APP_STATE_INSTALLED) st in
          let st := gs_plugin_updates_changed st in
          (st, TaskBoolean true)
      end
  end.

(** ** Uninstall *)

(** The [for] loop of [gs_plugin_android_uninstall_apps_async]. *)
Fixpoint uninstall_apps_loop (plugin : GsPlugin) (list_ : list nat)
    (uninstall_list : list nat) (st : State) : State * option (list nat) :=
  match list_ with
  | [] => (st, Some uninstall_list)
  | r :: rest =>
      match objects st !! r with
      | None => uninstall_apps_loop plugin rest uninstall_list st
      | Some app =>
          if bool_decide (gs_app_get_kind app = AS_COMPONENT_KIND_REPOSITORY)
          then (st, None)
          else
            let unique_id := fmt (unique_id_to_string (gs_app_get_unique_id app)) in
            let st := g_debug ("Considering app " +:+ unique_id
                               +:+ " for uninstallation") st in
            if negb (gs_app_has_management_plugin app plugin) then
              uninstall_apps_loop plugin rest uninstall_list
                (g_debug ("App " +:+ unique_id
                          +:+ " is not managed by us, not uninstalling") st)
            else
              let uninstall_list := gs_app_list_add (objects st) uninstall_list r in
              let st := update_app r (gs_app_set_state GS_APP_STATE_REMOVING) st in
              uninstall_apps_loop plugin rest uninstall_list st
      end
  end.

(** [gs_plugin_android_uninstall_apps_async]; the task data is the one app
    of [uninstall_list]. *)
Definition gs_plugin_android_uninstall_apps_async (plugin : GsPlugin)
    (list_ : list nat) (st : State) : State * Async (option nat) :=
  match uninstall_apps_loop plugin list_ gs_app_list_new st with
  | (st, None) => (st, Aborted)
  | (st, Some uninstall_list) =>
      if negb (Nat.eqb (gs_app_list_length uninstall_list) 1)
      then (st, Returned (not_supported "Can only uninstall one app at a time"))
      else
        let app := gs_app_list_index uninstall_list 0 in
        let package_name :=
          match app with
          | Some app => metadata_item_of st app "android::package-name"
          | None => None
          end in
        (st, Called "UninstallApp" (ParametersString package_name) app)
  end.

(** [fdroid_uninstall_app_cb]. *)
Definition fdroid_uninstall_app_cb (app : option nat)
    (res : GError + unit) (st : State) : State * GTaskResult :=
  match res with
  | inl local_error =>
      let st := from_option (fun r => update_app r gs_app_set_state_recover st) st app in
      (st, TaskError (g_dbus_error_strip_remote_error local_error))
  | inr _ =>
      let st := from_option
                  (fun r => update_app r (gs_app_set_state GS_APP_STATE_AVAILABLE) st)
                  st app in
      let st := gs_plugin_updates_changed st in
      (st, TaskBoolean true)
  end.

(** ** Update *)

Record GsPluginUpdateAppsFlags := {
  update_interactive : bool;
  update_no_download : bool;
  update_no_apply : bool }.

(** The [for] loop of [gs_plugin_android_update_apps_async]: the package
    names collected in the [GVariantBuilder], in order. *)
Fixpoint update_apps_loop (list_ : list nat) (builder : list string) (st : State)
  : State * list string :=
  match list_ with
  | [] => (st, builder)
  | r :: rest =>
      match metadata_item_of st r "android::package-name" with
      | Some package_name =>
          let st := g_debug ("Adding package to upgrade: " +:+ package_name) st in
          let builder := builder ++ [package_name] in
          let st := update_app r (gs_app_set_state GS_APP_STATE_INSTALLING) st in
          update_apps_loop rest builder st
      | None => update_apps_loop rest builder st
      end
  end.

(** [gs_plugin_android_update_apps_async]; the task data is the list the
    caller passed. *)
Definition gs_plugin_android_update_apps_async (plugin : GsPlugin)
    (list_ : list nat) (flags : GsPluginUpdateAppsFlags) (st : State)
  : State * Async (list nat) :=
  if update_no_apply flags then (st, Returned (TaskBoolean true))
  else
    let '(st, builder) := update_apps_loop list_ [] st in
    (st, Called "UpgradePackages" (ParametersStrv builder) list_).

(** The [for] loop of [fdroid_upgrade_packages_cb]. *)
Fixpoint upgrade_packages_loop (list_ : list nat) (st : State) : State :=
  match list_ with
  | [] => st
  | r :: rest =>
      match objects st !! r with
      | Some _ =>
          let st := update_app r (gs_app_set_state GS_APP_STATE_INSTALLED) st in
          let unique_id :=
            match objects st !! r with
            | Some app => unique_id_to_string (gs_app_get_unique_id app)
            | None => None
            end in
          upgrade_packages_loop rest (g_debug ("Updated app: " +:+ fmt unique_id) st)
      | None => upgrade_packages_loop rest st
      end
  end.

(** [fdroid_upgrade_packages_cb]: [res] is an error or the boolean of the
    [(b)] reply. *)
Definition fdroid_upgrade_packages_cb (list_ : list nat)
    (res : GError + bool) (st : State) : State * GTaskResult :=
  match res with
  | inl local_error => (st, TaskError (g_dbus_error_strip_remote_error local_error))
  | inr success =>
      if negb success
      then (st, TaskError (g_error_new G_IO_ERROR G_IO_ERROR_FAILED
                             "Failed to upgrade packages"))
      else
        let st := upgrade_packages_loop list_ st in
        let st := gs_plugin_updates_changed st in
        (st, TaskBoolean true)
  end.

(** ** Setup *)

(** A [GDBusProxy], known by the connection it stands for. *)
Definition GDBusProxy := nat.

(** What [gs_plugin_android_setup_async] asks [g_dbus_proxy_new_for_bus]
    for: bus name, object path, interface. *)
Definition gs_plugin_android_setup_async : string * string * string :=
  ("io.FuriOS.AndroidStore", "/fdroid", "io.FuriOS.AndroidStore.fdroid").

(** [fdroid_proxy_setup_cb]: [fdroid_proxy] is [self->fdroid_proxy], [res]
    what [g_dbus_proxy_new_for_bus_finish] gives.  The error is returned as
    it came. *)
Definition fdroid_proxy_setup_cb (res : GError + GDBusProxy)
    (fdroid_proxy : option GDBusProxy) : option GDBusProxy * GTaskResult :=
  match res with
  | inl error => (fdroid_proxy, TaskError error)
  | inr proxy => (Some proxy, TaskBoolean true)
  end.

(** ** Refreshing the metadata *)

(** [gs_plugin_android_refresh_metadata_async]. *)
Definition gs_plugin_android_refresh_metadata_async (st : State) : State * Async unit :=
  (g_debug "Refreshing repositories" st, Called "UpdateCache" ParametersNone ()).

(** [fdroid_update_cache_cb]: [res] is an error or the boolean of the
    reply.  The error is returned as it came; the boolean becomes the
    result of the task. *)
Definition fdroid_update_cache_cb (res : GError + bool) (st : State)
  : State * GTaskResult :=
  match res with
  | inl error => (st, TaskError error)
  | inr success =>
      let st := gs_plugin_updates_changed st in
      (st, TaskBoolean success)
  end.

(** ** Repositories *)

(** What the repository listing writes besides the plugin's world: the
    cache of [GsPlugin] ([gs_plugin_cache_add], a table from key to
    application), and the origin-ui property of the applications, kept here
    by reference. *)
Record Repositories := {
  repo_state : State;
  plugin_cache : gmap string nat;
  origin_ui : gmap nat string }.

(** The application [fdroid_get_repositories_cb] makes of a pair (from
    [gs_app_new] to the second [gs_app_set_metadata]). *)
Definition fdroid_repository_app (self : GsPlugin) (repo_name repo_url : string) : GsApp :=
  let app := gs_app_new (Some repo_name) in
  let app := gs_app_set_kind AS_COMPONENT_KIND_REPOSITORY app in
  let app := gs_app_set_scope AS_COMPONENT_SCOPE_SYSTEM app in
  let app := gs_app_set_state GS_APP_STATE_INSTALLED app in
  let app := gs_app_add_quirk GS_APP_QUIRK_NOT_LAUNCHABLE app in
  let app := gs_app_set_name GS_APP_QUALITY_NORMAL (Some repo_name) app in
  let app := gs_app_set_url_homepage (Some repo_url) app in
  let app := gs_app_set_metadata "fdroid::repo-url" (Some repo_url) app in
  let app := gs_app_set_management_plugin self app in
  gs_app_set_metadata "GnomeSoftware::SortKey" (Some "300") app.

(** The body of the [while] loop of [fdroid_get_repositories_cb].
    [gs_plugin_cache_add] puts the application under the key, in the place
    of what was there. *)
Definition fdroid_get_repositories_pair (self : GsPlugin)
    (acc : Repositories * list nat) (pair : string * string) : Repositories * list nat :=
  let '(rs, list_) := acc in
  let '(repo_name, repo_url) := pair in
  let st := g_debug ("Processing F-Droid repository: " +:+ repo_name
                     +:+ " (" +:+ repo_url +:+ ")") (repo_state rs) in
  let app := fdroid_repository_app self repo_name repo_url in
  let '(st, r) := alloc_app app st in
  let rs := {| repo_state := st;
               plugin_cache := <[repo_url := r]> (plugin_cache rs);
               origin_ui := <[r := "F-Droid (Android)"]> (origin_ui rs) |} in
  (rs, gs_app_list_add (objects st) list_ r).

(** [fdroid_get_repositories_cb]: [res] is an error or the [a(ss)] of the
    reply. *)
Definition fdroid_get_repositories_cb (self : GsPlugin)
    (res : GError + list (string * string)) (rs : Repositories)
  : Repositories * GTaskResult :=
  match res with
  | inl local_error => (rs, TaskError (g_dbus_error_strip_remote_error local_error))
  | inr repositories =>
      let '(rs, list_) :=
        fold_left (fdroid_get_repositories_pair self) repositories (rs, gs_app_list_new) in
      (rs, TaskPointer list_)
  end.

(** [gs_plugin_android_remove_repository_async]; the task data is the
    repository.  A reference outside the store is no [GsApp]:
    [gs_app_get_kind] then answers unknown, and the assertion fails. *)
Definition gs_plugin_android_remove_repository_async (repo : nat) (st : State)
  : State * Async nat :=
  match objects st !! repo with
  | Some app =>
      if bool_decide (gs_app_get_kind app = AS_COMPONENT_KIND_REPOSITORY) then
        let st := update_app repo (gs_app_set_state GS_APP_STATE_REMOVING) st in
        (st, Called "RemoveRepository" (ParametersString (gs_app_get_id app)) repo)
      else (st, Aborted)
  | None => (st, Aborted)
  end.

(** [fdroid_remove_repository_cb]: [app] is the task data. *)
Definition fdroid_remove_repository_cb (app : nat) (res : GError + unit) (st : State)
  : State * GTaskResult :=
  let unique_id :=
    match objects st !! app with
    | Some a => unique_id_to_string (gs_app_get_unique_id a)
    | None => None
    end in
  let st := g_debug ("Removing F-Droid repository: " +:+ fmt unique_id) st in
  match res with
  | inl local_error =>
      let st := update_app app gs_app_set_state_recover st in
      (st, TaskError (g_dbus_error_strip_remote_error local_error))
  | inr _ =>
      let st := update_app app (gs_app_set_state GS_APP_STATE_AVAILABLE) st in
      (st, TaskBoolean true)
  end.

(** ** Launch *)

(** [strstr (haystack, needle) != NULL]. *)
Definition strstr (haystack needle : string) : bool :=
  match String.index 0 needle haystack with
  | Some _ => true
  | None => false
  end.

(** A [GKeyFile]: groups of keys with their values. *)
Definition g_key_file_has_group (key_file : gmap string (gmap string string))
    (group_name : string) : bool :=
  bool_decide (is_Some (key_file !! group_name)).

(** [g_key_file_has_key (key_file, group, key, NULL)]: false also when the
    group is missing. *)
Definition g_key_file_has_key (key_file : gmap string (gmap string string))
    (group_name key : string) : bool :=
  match key_file !! group_name with
  | Some group => bool_decide (is_Some (group !! key))
  | None => false
  end.

(** [gs_plugin_android_filter_desktop_file_cb]: may the desktop file
    [filename], with content [key_file], be used to launch the app. *)
Definition gs_plugin_android_filter_desktop_file_cb (filename : string)
    (key_file : gmap string (gmap string string)) : bool :=
  negb (strstr filename "/snapd/")
  && negb (strstr filename "/snap/")
  && negb (strstr filename "/flatpak/")
  && g_key_file_has_group key_file "Desktop Entry"
  && negb (g_key_file_has_key key_file "Desktop Entry" "X-Flatpak")
  && negb (g_key_file_has_key key_file "Desktop Entry" "X-SnapInstanceName").

(** * What the properties are stated with

    Notions read off the code above, and the concrete objects, replies and
    states of the examples. *)

Definition android : GsPlugin := "android".

(** An application as a host would hand it to the plugin: made through the
    [GsApp] API, with an optional owner and package name. *)
Definition example_app (id : string) (owner : option GsPlugin)
    (package_name : option string) (s : GsAppState) : GsApp :=
  let app := gs_app_new (Some id) in
  let app := gs_app_set_kind AS_COMPONENT_KIND_DESKTOP_APP app in
  let app := gs_app_set_scope AS_COMPONENT_SCOPE_SYSTEM app in
  let app := gs_app_set_bundle_kind AS_BUNDLE_KIND_PACKAGE app in
  let app := from_option (fun p => gs_app_set_management_plugin p app) app owner in
  let app := gs_app_set_metadata "android::package-name" package_name app in
  gs_app_set_state s app.

Definition install_flags_none : GsPluginInstallAppsFlags :=
  {| install_interactive := false; install_no_download := false;
     install_no_apply := false |}.

Definition update_flags_none : GsPluginUpdateAppsFlags :=
  {| update_interactive := false; update_no_download := false;
     update_no_apply := false |}.

(** Two updatable apps, the second without ["android::package-name"]. *)
Definition update_example_state : State :=
  gs_plugin_android_init
    [example_app "org.a" (Some android) (Some "org.a") GS_APP_STATE_UPDATABLE;
     example_app "org.b" (Some android) None GS_APP_STATE_UPDATABLE].

(** How many of the four dimensions the plugin understands are set. *)
Definition query_dimensions_set (q : GsAppQuery) : nat :=
  tristate_is_set (query_is_source q)
  + tristate_is_set (query_is_installed q)
  + tristate_is_set (query_is_for_update q)
  + (if query_keywords q is Some _ then 1 else 0).

Definition query_installed_and_source : GsAppQuery :=
  {| query_is_source := GS_APP_QUERY_TRISTATE_TRUE;
     query_is_installed := GS_APP_QUERY_TRISTATE_TRUE;
     query_is_for_update := GS_APP_QUERY_TRISTATE_UNSET;
     query_keywords := None;
     query_other_properties_set := 0 |}.

(** Two applications that [gs_app_list_add] takes for the same one. *)
Definition same_unique_id (a b : GsApp) : Prop :=
  exists u u', gs_app_get_unique_id a = Some u
               /\ gs_app_get_unique_id b = Some u'
               /\ as_utils_data_id_equal u u' = true.

Definition installed_app_of_child (self : GsPlugin) (child : gmap string GVariant)
    (package_name : string) : GsApp :=
  fdroid_installed_app self package_name
    (g_variant_dict_lookup child "name") (g_variant_dict_lookup child "id").

(** What holds of the loop of [fdroid_get_installed_apps_cb] after any
    number of children, when it started on an empty installed list. *)
Definition installed_loop_invariant (self : GsPlugin) (st0 : State)
    (processed : list (gmap string GVariant)) (acc : State * list nat) : Prop :=
  acc.2 = installed_apps acc.1
  /\ (exists new, objects acc.1 = objects st0 ++ new)
  /\ (forall r, r ∈ installed_apps acc.1 ->
        length (objects st0) <= r
        /\ exists child p,
             child ∈ processed
             /\ g_variant_dict_lookup child "packageName" = Some p
             /\ objects acc.1 !! r = Some (installed_app_of_child self child p))
  /\ (forall child p,
        child ∈ processed ->
        g_variant_dict_lookup child "packageName" = Some p ->
        exists r a,
          r ∈ installed_apps acc.1
          /\ objects acc.1 !! r = Some a
          /\ (a = installed_app_of_child self child p
              \/ same_unique_id a (installed_app_of_child self child p))).

(** [n] updatable refreshes in a row, each answered with [reply]. *)
Fixpoint refresh_updatable (self : GsPlugin) (reply : list (gmap string GVariant))
    (n : nat) (st : State) : State :=
  match n with
  | 0 => st
  | S n' => refresh_updatable self reply n' (fdroid_get_upgradable_cb self (inr reply) st).1
  end.

Definition upgradable_app_of_child (self : GsPlugin) (child : gmap string GVariant)
    (package_name : string) : GsApp :=
  fdroid_upgradable_app self package_name
    (g_variant_dict_lookup child "name") (g_variant_dict_lookup child "id")
    (g_variant_dict_lookup child "repository")
    (g_variant_dict_lookup child "currentVersion")
    (g_variant_dict_lookup child "availableVersion").

(** An updatable entry as the store service sends it. *)
Definition upgradable_child_example : gmap string GVariant :=
  <["packageName" := GVariantString "org.fdroid.fdroid"]>
    (<["id" := GVariantString "org.fdroid.fdroid"]>
       (<["name" := GVariantString "F-Droid"]>
          (<["currentVersion" := GVariantString "1.19"]>
             (<["availableVersion" := GVariantString "1.20"]> ∅)))).

(** One available application of the plugin's own. *)
Definition install_example_state : State :=
  gs_plugin_android_init
    [example_app "org.a" (Some android) (Some "org.a") GS_APP_STATE_AVAILABLE].

(** The error a failing [Install] arrives with. *)
Definition remote_error_example : GError :=
  g_error_new G_DBUS_ERROR 0
    "GDBus.Error:org.freedesktop.DBus.Error.Failed: Package not found".

(** Is [id] the package name of an installed application. *)
Definition installed_with_package_name (st : State) (id : option string) : Prop :=
  exists r installed_app,
    r ∈ installed_apps st
    /\ objects st !! r = Some installed_app
    /\ gs_app_get_metadata_item installed_app "android::package-name" = id.

Definition installed_child_example : gmap string GVariant :=
  <["packageName" := GVariantString "x.y.z"]>
    (<["id" := GVariantString "x.y.z"]>
       (<["name" := GVariantString "Example"]> ∅)).

(** The plugin after one installed refresh that reported ["x.y.z"]. *)
Definition installed_example_state : State :=
  (fdroid_get_installed_apps_cb android (inr [installed_child_example])
     (gs_plugin_android_init [])).1.

Definition search_package_example (icon_url : string) : list (string * JsonNode) :=
  [("version", JsonString "1.0"); ("icon_url", JsonString icon_url)].

Definition search_members_example (id : string) : list (string * JsonNode) :=
  [("id", JsonString id); ("name", JsonString "Example");
   ("summary", JsonString "An example"); ("description", JsonString "An example app");
   ("license", JsonString "GPL-3.0-or-later"); ("author", JsonString "Somebody");
   ("web_url", JsonString "https://example.com");
   ("repository", JsonString "F-Droid")].

(** A search result with a package object, and one without. *)
Definition search_element_example (id icon_url : string) : JsonNode :=
  JsonObject (search_members_example id
              ++ [("package", JsonObject (search_package_example icon_url))]).

Definition search_element_without_package (id : string) : JsonNode :=
  JsonObject (search_members_example id).

Definition uninit_null : nat -> option string * option string := fun _ => (None, None).

(** Two applications of the plugin's own, both with a package name. *)
Definition batch_example_state (s : GsAppState) : State :=
  gs_plugin_android_init
    [example_app "org.a" (Some android) (Some "org.a") s;
     example_app "org.b" (Some android) (Some "org.b") s].

(** An application that another plugin manages and that carries an
    ["android::package-name"]. *)
Definition foreign_example_state (s : GsAppState) : State :=
  gs_plugin_android_init
    [example_app "org.foreign" (Some "flatpak") (Some "org.foreign") s].

(** An application of the plugin's own next to a repository. *)
Definition repository_example_state : State :=
  gs_plugin_android_init
    [example_app "org.a" (Some android) (Some "org.a") GS_APP_STATE_AVAILABLE;
     fdroid_repository_app android "F-Droid" "https://f-droid.org/repo"].

(** The children of a reply that have a string under ["packageName"], each
    with that package name, in order. *)
Definition children_with_package_name (reply : list (gmap string GVariant))
  : list (gmap string GVariant * string) :=
  omap (fun child => (fun p => (child, p)) <$> g_variant_dict_lookup child "packageName")
       reply.

(** An updatable entry whose id is not its package name. *)
Definition upgradable_child_named : gmap string GVariant :=
  <["packageName" := GVariantString "org.example.app"]>
    (<["id" := GVariantString "example"]> ∅).

(** The plugin's world with an empty plugin cache. *)
Definition repositories_init (st : State) : Repositories :=
  {| repo_state := st; plugin_cache := ∅; origin_ui := ∅ |}.

(** A reply of [GetRepositories]: two repositories, the second listed
    again under another name. *)
Definition repositories_example : list (string * string) :=
  [("F-Droid", "https://f-droid.org/repo");
   ("IzzyOnDroid", "https://apt.izzysoft.de/fdroid/repo");
   ("Izzy", "https://apt.izzysoft.de/fdroid/repo")].

(** The proxies that a run of setup completions obtained, in order. *)
Definition setup_successes (results : list (GError + GDBusProxy)) : list GDBusProxy :=
  omap (fun res => match res with inr proxy => Some proxy | inl _ => None end) results.

(** [self->fdroid_proxy] after a run of setup completions. *)
Definition setup_all (results : list (GError + GDBusProxy))
    (fdroid_proxy : option GDBusProxy) : option GDBusProxy :=
  fold_left (fun proxy res => (fdroid_proxy_setup_cb res proxy).1) results fdroid_proxy.

(** A desktop file as a packaged application ships it. *)
Definition desktop_file_example : gmap string (gmap string string) :=
  {["Desktop Entry" := <["Name" := "Example"]> (<["Exec" := "example %U"]> ∅)]}.

(** The display name that both listings give the application made from
    [child]: the reported name when it is not empty, otherwise the package
    name [p], marked as of lowest quality. *)
Definition display_name_of_child (child : gmap string GVariant) (p : string) :
    option string * GsAppQuality :=
  match g_variant_dict_lookup child "name" with
  | Some (String c n) => (Some (String c n), GS_APP_QUALITY_NORMAL)
  | _ => (Some p, GS_APP_QUALITY_LOWEST)
  end.

(** [needle] occurs in [haystack]. *)
Definition occurs_in (needle haystack : string) : Prop :=
  exists pre suf, haystack = pre +:+ needle +:+ suf.

(** ** The plugin over a session *)

(** What happens to the plugin between setup and disposal: the host calls
    one of the entry points of [gs_plugin_android_class_init], or a D-Bus
    call completes and its callback runs with its task data.  Nothing ties
    a completion to an earlier call here: the task data is any the callback
    can be given. *)
Inductive Event :=
| ListApps (query : option GsAppQuery)
| GetRepositoriesDone (res : GError + list (string * string))
| GetInstalledAppsDone (res : GError + list (gmap string GVariant))
| GetUpgradableDone (res : GError + list (gmap string GVariant))
| SearchDone (uninit : nat -> option string * option string) (res : GError + JsonData)
| InstallApps (list_ : list nat) (flags : GsPluginInstallAppsFlags)
| InstallDone (install_list : option (list nat)) (res : GError + unit)
| UninstallApps (list_ : list nat)
| UninstallDone (app : option nat) (res : GError + unit)
| UpdateApps (list_ : list nat) (flags : GsPluginUpdateAppsFlags)
| UpgradePackagesDone (list_ : list nat) (res : GError + bool)
| RemoveRepository (repo : nat)
| RemoveRepositoryDone (app : nat) (res : GError + unit)
| RefreshMetadata
| UpdateCacheDone (res : GError + bool).

Definition on_state (f : State -> State) (rs : Repositories) : Repositories :=
  {| repo_state := f (repo_state rs);
     plugin_cache := plugin_cache rs;
     origin_ui := origin_ui rs |}.

(** The plugin's world after one event. *)
Definition step (self : GsPlugin) (rs : Repositories) (ev : Event) : Repositories :=
  match ev with
  | ListApps query =>
      on_state (fun st => (gs_plugin_android_list_apps_async query st).1) rs
  | GetRepositoriesDone res => (fdroid_get_repositories_cb self res rs).1
  | GetInstalledAppsDone res =>
      on_state (fun st => (fdroid_get_installed_apps_cb self res st).1) rs
  | GetUpgradableDone res =>
      on_state (fun st => (fdroid_get_upgradable_cb self res st).1) rs
  | SearchDone uninit res =>
      on_state (fun st => (fdroid_search_cb self uninit res st).1) rs
  | InstallApps list_ flags =>
      on_state (fun st => (gs_plugin_android_install_apps_async self list_ flags st).1) rs
  | InstallDone install_list res =>
      on_state (fun st => (fdroid_install_app_cb install_list res st).1) rs
  | UninstallApps list_ =>
      on_state (fun st => (gs_plugin_android_uninstall_apps_async self list_ st).1) rs
  | UninstallDone app res =>
      on_state (fun st => (fdroid_uninstall_app_cb app res st).1) rs
  | UpdateApps list_ flags =>
      on_state (fun st => (gs_plugin_android_update_apps_async self list_ flags st).1) rs
  | UpgradePackagesDone list_ res =>
      on_state (fun st => (fdroid_upgrade_packages_cb list_ res st).1) rs
  | RemoveRepository repo =>
      on_state (fun st => (gs_plugin_android_remove_repository_async repo st).1) rs
  | RemoveRepositoryDone app res =>
      on_state (fun st => (fdroid_remove_repository_cb app res st).1) rs
  | RefreshMetadata =>
      on_state (fun st => (gs_plugin_android_refresh_metadata_async st).1) rs
  | UpdateCacheDone res =>
      on_state (fun st => (fdroid_update_cache_cb res st).1) rs
  end.

Definition run (self : GsPlugin) (events : list Event) (rs : Repositories) : Repositories :=
  fold_left (step self) events rs.

(** The one event that writes the installed cache. *)
Definition is_installed_refresh (ev : Event) : bool :=
  match ev with
  | GetInstalledAppsDone (inr _) => true
  | _ => false
  end.

(** Two applications that differ at most in what the state setters write. *)
Definition same_static (a b : GsApp) : Prop :=
  app_id a = app_id b
  /\ app_kind a = app_kind b
  /\ app_management_plugin a = app_management_plugin b
  /\ app_metadata a = app_metadata b.

(** Every object of [objs] is still there in [objs'], up to its state. *)
Definition store_extends (objs objs' : list GsApp) : Prop :=
  forall r a, objs !! r = Some a -> exists b, objs' !! r = Some b /\ same_static a b.

(** From [st] to [st'] the caches are the same lists, and the store has
    only grown or changed states. *)
Definition frames (st st' : State) : Prop :=
  installed_apps st' = installed_apps st
  /\ updatable_apps st' = updatable_apps st
  /\ store_extends (objects st) (objects st').

(** What the three caches hold: installed applications that this plugin
    manages and that carry a package name, updatable applications that this
    plugin manages, and under each URL a repository of that URL. *)
Definition caches_sound (self : GsPlugin) (rs : Repositories) : Prop :=
  let st := repo_state rs in
  (forall r, r ∈ installed_apps st ->
     exists a p,
       objects st !! r = Some a
       /\ app_kind a = AS_COMPONENT_KIND_DESKTOP_APP
       /\ app_management_plugin a = Some self
       /\ gs_app_get_metadata_item a "android::package-name" = Some p)
  /\ (forall r, r ∈ updatable_apps st ->
        exists a,
          objects st !! r = Some a
          /\ app_kind a = AS_COMPONENT_KIND_DESKTOP_APP
          /\ app_management_plugin a = Some self)
  /\ (forall url r, plugin_cache rs !! url = Some r ->
        exists a name,
          objects st !! r = Some a
          /\ app_id a = Some name
          /\ app_kind a = AS_COMPONENT_KIND_REPOSITORY
          /\ app_management_plugin a = Some self
          /\ gs_app_get_metadata_item a "fdroid::repo-url" = Some url).

(** A session on [installed_example_state]: its installed application is
    uninstalled, and the service reports success. *)
Definition uninstall_session_example : list Event :=
  [UninstallApps [0]; UninstallDone (Some 0) (inr ())].

(** The completions after which the host is told that the updates have
    changed. *)
Definition emits_updates_changed (ev : Event) : bool :=
  match ev with
  | InstallDone (Some (_ :: _)) (inr _) => true
  | UninstallDone _ (inr _) => true
  | UpgradePackagesDone _ (inr true) => true
  | UpdateCacheDone (inr _) => true
  | _ => false
  end.

(** A session with five completions, three of which report a change. *)
Definition notify_session_example : list Event :=
  [InstallApps [0] install_flags_none;
   InstallDone (Some [0]) (inl remote_error_example);
   UpdateCacheDone (inr false);
   UpgradePackagesDone [0] (inr false);
   UninstallDone None (inr ());
   InstallDone (Some [0]) (inr ())].

(** * Properties *)

(** ** The object store under the state setters *)

Lemma gs_app_set_state_state s a : app_state (gs_app_set_state s a) = s.
Proof.
  unfold gs_app_set_state. case_bool_decide; [done|].
  by destruct (gs_app_state_is_transient s).
Qed.

Lemma gs_app_set_state_metadata s a :
  app_metadata (gs_app_set_state s a) = app_metadata a.
Proof.
  unfold gs_app_set_state. case_bool_decide; [done|].
  by destruct (gs_app_state_is_transient s).
Qed.

Lemma gs_app_set_state_transient_recover s a :
  gs_app_state_is_transient s = true ->
  app_state_recover (gs_app_set_state s a) = app_state_recover a.
Proof.
  intros Hs. unfold gs_app_set_state. case_bool_decide; [done|]. by rewrite Hs.
Qed.

Lemma objects_update_app r f st : objects (update_app r f st) = alter f r (objects st).
Proof. done. Qed.

Lemma objects_g_debug msg st : objects (g_debug msg st) = objects st.
Proof. done. Qed.

Lemma state_of_update_app_eq r f st :
  state_of (update_app r f st) r = app_state ∘ f <$> objects st !! r.
Proof.
  unfold state_of. rewrite objects_update_app, list_lookup_alter_eq.
  by destruct (objects st !! r).
Qed.

Lemma state_of_update_app_ne r r' f st :
  r ≠ r' -> state_of (update_app r f st) r' = state_of st r'.
Proof.
  intros Hne. unfold state_of. by rewrite objects_update_app, list_lookup_alter_ne.
Qed.

Lemma state_of_g_debug msg st r : state_of (g_debug msg st) r = state_of st r.
Proof. done. Qed.

Lemma state_of_set_state r r' s st :
  state_of st r' = Some s ->
  state_of (update_app r (gs_app_set_state s) st) r' = Some s.
Proof.
  intros H. destruct (decide (r = r')) as [->|Hne].
  - rewrite state_of_update_app_eq. unfold state_of in H.
    destruct (objects st !! r'); [|done]. simpl. by rewrite gs_app_set_state_state.
  - by rewrite state_of_update_app_ne.
Qed.

Lemma metadata_item_of_set_state r r' s key st :
  metadata_item_of (update_app r (gs_app_set_state s) st) r' key
  = metadata_item_of st r' key.
Proof.
  unfold metadata_item_of. rewrite objects_update_app.
  destruct (decide (r = r')) as [->|Hne].
  - rewrite list_lookup_alter_eq. destruct (objects st !! r'); [|done]. simpl.
    unfold gs_app_get_metadata_item. by rewrite gs_app_set_state_metadata.
  - by rewrite list_lookup_alter_ne.
Qed.

(** ** Update: what the success continuation does to the caller's list *)

Lemma upgrade_packages_loop_length list_ st :
  length (objects (upgrade_packages_loop list_ st)) = length (objects st).
Proof.
  revert st. induction list_ as [|r rest IH]; intros st; [done|].
  simpl. destruct (objects st !! r); [|done].
  rewrite IH. simpl. apply length_alter.
Qed.

Lemma upgrade_packages_loop_keeps list_ st r :
  state_of st r = Some GS_APP_STATE_INSTALLED ->
  state_of (upgrade_packages_loop list_ st) r = Some GS_APP_STATE_INSTALLED.
Proof.
  revert st. induction list_ as [|r0 rest IH]; intros st H; [done|].
  simpl. destruct (objects st !! r0); [|by apply IH].
  apply IH. rewrite state_of_g_debug. by apply state_of_set_state.
Qed.

Lemma upgrade_packages_loop_installed list_ st r :
  r ∈ list_ -> r < length (objects st) ->
  state_of (upgrade_packages_loop list_ st) r = Some GS_APP_STATE_INSTALLED.
Proof.
  revert st. induction list_ as [|r0 rest IH]; intros st Hin Hlt.
  - by apply elem_of_nil in Hin.
  - simpl. destruct (decide (r = r0)) as [->|Hne].
    + destruct (lookup_lt_is_Some_2 _ _ Hlt) as [a Ha]. rewrite Ha.
      apply upgrade_packages_loop_keeps.
      rewrite state_of_g_debug, state_of_update_app_eq, Ha. simpl.
      by rewrite gs_app_set_state_state.
    + apply elem_of_cons in Hin as [?|Hin]; [done|].
      destruct (objects st !! r0); [|by apply IH].
      apply IH; [done|]. simpl. by rewrite length_alter.
Qed.

Lemma update_apps_loop_length list_ builder st :
  length (objects (update_apps_loop list_ builder st).1) = length (objects st).
Proof.
  revert builder st. induction list_ as [|r rest IH]; intros builder st; [done|].
  simpl. destruct (metadata_item_of st r _); [|done].
  rewrite IH. simpl. apply length_alter.
Qed.

(** The batch sent to [UpgradePackages]: the package names of the apps that
    have one, in list order. *)
Lemma update_apps_loop_builder list_ builder st :
  (update_apps_loop list_ builder st).2
  = builder ++ omap (fun r => metadata_item_of st r "android::package-name") list_.
Proof.
  revert builder st. induction list_ as [|r rest IH]; intros builder st.
  - simpl. by rewrite app_nil_r.
  - simpl. destruct (metadata_item_of st r _) as [p|] eqn:Hp.
    + rewrite IH, <- app_assoc. simpl. f_equal. f_equal.
      apply list_omap_ext, Forall2_same_length_lookup_2; [done|].
      intros i x y Hx Hy. rewrite Hx in Hy. injection Hy as <-.
      by rewrite metadata_item_of_set_state.
    + apply IH.
Qed.

(** C10.  When an update batch is sent ([NO_APPLY] not requested) and the
    remote call answers success, the call carried the package names of the
    listed apps that have one, yet the continuation gets the caller's whole
    list as task data and leaves every app of that list in state
    Installed, whether or not it has a package name. *)
Theorem update_success_installs_whole_list
    (plugin : GsPlugin) (list_ : list nat) (flags : GsPluginUpdateAppsFlags)
    (st : State) (r : nat) :
  update_no_apply flags = false ->
  r ∈ list_ ->
  r < length (objects st) ->
  let '(st1, call) := gs_plugin_android_update_apps_async plugin list_ flags st in
  call = Called "UpgradePackages"
           (ParametersStrv
              (omap (fun r => metadata_item_of st r "android::package-name") list_))
           list_
  /\ let '(st2, result) := fdroid_upgrade_packages_cb list_ (inr true) st1 in
     result = TaskBoolean true
     /\ state_of st2 r = Some GS_APP_STATE_INSTALLED.
Proof.
  intros Hflags Hin Hlt. unfold gs_plugin_android_update_apps_async.
  rewrite Hflags.
  pose proof (update_apps_loop_builder list_ [] st) as Hb.
  pose proof (update_apps_loop_length list_ [] st) as Hl.
  destruct (update_apps_loop list_ [] st) as [st1 builder]. simpl in Hb, Hl.
  split; [by rewrite Hb|].
  simpl. split; [done|].
  change (state_of (upgrade_packages_loop list_ st1) r = Some GS_APP_STATE_INSTALLED).
  apply upgrade_packages_loop_installed; [done|by rewrite Hl].
Qed.

Lemma update_success_installs_whole_list_witness :
  let '(st1, call) :=
    gs_plugin_android_update_apps_async android [0; 1] update_flags_none
      update_example_state in
  call = Called "UpgradePackages" (ParametersStrv ["org.a"]) [0; 1]
  /\ let '(st2, result) := fdroid_upgrade_packages_cb [0; 1] (inr true) st1 in
     result = TaskBoolean true
     /\ state_of st2 1 = Some GS_APP_STATE_INSTALLED.
Proof.
  apply (update_success_installs_whole_list android [0; 1] update_flags_none
           update_example_state 1).
  - reflexivity.
  - apply (list_elem_of_lookup_2 _ 1). reflexivity.
  - vm_compute. lia.
Defined.

(** ** Query validation *)

(** C8.  A query with more than one of is-source, is-installed,
    is-for-update and keywords set, or with one of the three tristates set
    to false, is answered at once with the not-supported error: the entry
    point returns without a D-Bus call and leaves the state as it was. *)
Theorem list_apps_rejects_unsupported_query (q : GsAppQuery) (st : State) :
  1 < query_dimensions_set q
  \/ query_is_source q = GS_APP_QUERY_TRISTATE_FALSE
  \/ query_is_installed q = GS_APP_QUERY_TRISTATE_FALSE
  \/ query_is_for_update q = GS_APP_QUERY_TRISTATE_FALSE ->
  gs_plugin_android_list_apps_async (Some q) st
  = (st, Returned (TaskError (g_error_new G_IO_ERROR G_IO_ERROR_NOT_SUPPORTED
                                "Unsupported query"))).
Proof.
  intros H. unfold gs_plugin_android_list_apps_async.
  remember (gs_app_query_get_n_properties_set (Some q)) as n eqn:Hn.
  cbn [from_option].
  destruct H as [H|[H|[H|H]]].
  - assert (n ≠ 1) as Hne.
    { unfold query_dimensions_set in H. subst n. simpl. lia. }
    apply Nat.eqb_neq in Hne. by rewrite Hne.
  - rewrite H. by rewrite bool_decide_eq_true_2, orb_true_r.
  - rewrite H. by rewrite (bool_decide_eq_true_2 _ eq_refl), !orb_true_r.
  - rewrite H. by rewrite (bool_decide_eq_true_2 _ eq_refl), !orb_true_r.
Qed.

Lemma list_apps_rejects_unsupported_query_witness :
  gs_plugin_android_list_apps_async (Some query_installed_and_source)
    (gs_plugin_android_init [])
  = (gs_plugin_android_init [],
     Returned (TaskError (g_error_new G_IO_ERROR G_IO_ERROR_NOT_SUPPORTED
                            "Unsupported query"))).
Proof.
  apply (list_apps_rejects_unsupported_query query_installed_and_source).
  left. vm_compute. lia.
Defined.

(** The other query of the specification's examples: is-installed set to
    false and nothing else. *)
Example list_apps_rejects_negative_filter :
  gs_plugin_android_list_apps_async
    (Some {| query_is_source := GS_APP_QUERY_TRISTATE_UNSET;
             query_is_installed := GS_APP_QUERY_TRISTATE_FALSE;
             query_is_for_update := GS_APP_QUERY_TRISTATE_UNSET;
             query_keywords := None;
             query_other_properties_set := 0 |})
    (gs_plugin_android_init [])
  = (gs_plugin_android_init [], Returned (not_supported "Unsupported query")).
Proof. reflexivity. Qed.

(** ** Decoding field-map records *)

(** What the setters leave alone, as rewrite rules. *)
Create Rewrite HintDb gs_app.

Ltac gs_app_setter :=
  intros;
  unfold gs_app_set_state, gs_app_set_metadata, gs_app_add_source, gs_app_set_name,
    gs_app_set_text, gs_app_add_kudo, gs_app_add_quirk, gs_app_add_icon,
    gs_app_set_management_plugin, gs_app_get_unique_id;
  repeat first [case_bool_decide | case_match]; simpl in *;
  first [reflexivity | congruence].

Lemma sources_set_metadata k v a : app_sources (gs_app_set_metadata k v a) = app_sources a.
Proof. gs_app_setter. Qed.
Lemma sources_set_state s a : app_sources (gs_app_set_state s a) = app_sources a.
Proof. gs_app_setter. Qed.
Lemma sources_set_name q n a : app_sources (gs_app_set_name q n a) = app_sources a.
Proof. gs_app_setter. Qed.
Lemma sources_set_text k v a : app_sources (gs_app_set_text k v a) = app_sources a.
Proof. gs_app_setter. Qed.
Lemma sources_add_kudo k a : app_sources (gs_app_add_kudo k a) = app_sources a.
Proof. gs_app_setter. Qed.
Lemma sources_add_source_fresh id a :
  app_sources a = [] -> app_sources (gs_app_add_source id a) = option_list id.
Proof.
  intros H. unfold gs_app_add_source. destruct id as [s|]; [|done].
  rewrite H. case_bool_decide as Hin; [by apply elem_of_nil in Hin|done].
Qed.

#[global] Hint Rewrite sources_set_metadata sources_set_state sources_set_name
  sources_set_text sources_add_kudo : gs_app.

Lemma unique_id_set_metadata k v a :
  gs_app_get_unique_id (gs_app_set_metadata k v a) = gs_app_get_unique_id a.
Proof. gs_app_setter. Qed.
Lemma unique_id_set_state s a :
  gs_app_get_unique_id (gs_app_set_state s a) = gs_app_get_unique_id a.
Proof. gs_app_setter. Qed.
Lemma unique_id_set_name q n a :
  gs_app_get_unique_id (gs_app_set_name q n a) = gs_app_get_unique_id a.
Proof. gs_app_setter. Qed.
Lemma unique_id_set_text k v a :
  gs_app_get_unique_id (gs_app_set_text k v a) = gs_app_get_unique_id a.
Proof. gs_app_setter. Qed.
Lemma unique_id_add_kudo k a :
  gs_app_get_unique_id (gs_app_add_kudo k a) = gs_app_get_unique_id a.
Proof. gs_app_setter. Qed.
Lemma unique_id_add_source s a :
  gs_app_get_unique_id (gs_app_add_source s a) = gs_app_get_unique_id a.
Proof. gs_app_setter. Qed.

#[global] Hint Rewrite unique_id_set_metadata unique_id_set_state unique_id_set_name
  unique_id_set_text unique_id_add_kudo unique_id_add_source : gs_app.

Lemma fdroid_installed_app_sources self package_name name id :
  app_sources (fdroid_installed_app self package_name name id) = option_list id.
Proof.
  unfold fdroid_installed_app. autorewrite with gs_app.
  apply sources_add_source_fresh.
  destruct name as [[|]|]; by autorewrite with gs_app.
Qed.

Lemma fdroid_upgradable_app_sources self package_name name id repo cur avail :
  app_sources (fdroid_upgradable_app self package_name name id repo cur avail)
  = option_list id.
Proof.
  unfold fdroid_upgradable_app, gs_app_set_version, gs_app_set_update_version.
  destruct avail, cur; autorewrite with gs_app;
    apply sources_add_source_fresh;
    destruct repo, name as [[|]|]; by autorewrite with gs_app.
Qed.

(** One child with a package name, spelled out: a new object at the next
    free reference, offered to the returned list and to the plugin's list. *)
Lemma fdroid_get_installed_apps_child_some self st list_ child package_name :
  g_variant_dict_lookup child "packageName" = Some package_name ->
  let app := fdroid_installed_app self package_name
               (g_variant_dict_lookup child "name") (g_variant_dict_lookup child "id") in
  let objs := objects st ++ [app] in
  let r := length (objects st) in
  let st' := fdroid_get_installed_apps_child self (st, list_) child in
  objects st'.1 = objs
  /\ installed_apps st'.1 = gs_app_list_add objs (installed_apps st) r
  /\ updatable_apps st'.1 = updatable_apps st
  /\ st'.2 = gs_app_list_add objs list_ r.
Proof. intros H. unfold fdroid_get_installed_apps_child. rewrite H. done. Qed.

Lemma fdroid_get_upgradable_child_some self st list_ child package_name :
  g_variant_dict_lookup child "packageName" = Some package_name ->
  let app := fdroid_upgradable_app self package_name
               (g_variant_dict_lookup child "name") (g_variant_dict_lookup child "id")
               (g_variant_dict_lookup child "repository")
               (g_variant_dict_lookup child "currentVersion")
               (g_variant_dict_lookup child "availableVersion") in
  let objs := objects st ++ [app] in
  let r := length (objects st) in
  let st' := fdroid_get_upgradable_child self (st, list_) child in
  objects st'.1 = objs
  /\ updatable_apps st'.1 = gs_app_list_add objs (updatable_apps st) r
  /\ installed_apps st'.1 = installed_apps st
  /\ st'.2 = gs_app_list_add objs list_ r.
Proof. intros H. unfold fdroid_get_upgradable_child. rewrite H. done. Qed.

(** ** Adding to a list *)

Lemma gs_app_list_add_cases objs l r :
  (gs_app_list_check_for_duplicate objs l r = true /\ gs_app_list_add objs l r = l ++ [r])
  \/ (gs_app_list_check_for_duplicate objs l r = false /\ gs_app_list_add objs l r = l).
Proof.
  unfold gs_app_list_add. destruct (gs_app_list_check_for_duplicate objs l r); auto.
Qed.

Lemma gs_app_list_add_elem objs l r x :
  x ∈ gs_app_list_add objs l r -> x ∈ l \/ x = r.
Proof.
  destruct (gs_app_list_add_cases objs l r) as [[_ ->]|[_ ->]]; [|auto].
  rewrite elem_of_app, list_elem_of_singleton. auto.
Qed.

Lemma gs_app_list_add_keeps objs l r x : x ∈ l -> x ∈ gs_app_list_add objs l r.
Proof.
  destruct (gs_app_list_add_cases objs l r) as [[_ ->]|[_ ->]]; [|auto].
  rewrite elem_of_app. auto.
Qed.

Lemma gs_app_list_add_extends objs l r : exists new, gs_app_list_add objs l r = l ++ new.
Proof.
  destruct (gs_app_list_add_cases objs l r) as [[_ ->]|[_ ->]].
  - by exists [r].
  - exists []. by rewrite app_nil_r.
Qed.

(** An app that is refused is in the list already, or the list has one
    with an equal unique id. *)
Lemma gs_app_list_add_refused objs l r a :
  objs !! r = Some a ->
  gs_app_list_check_for_duplicate objs l r = false ->
  r ∈ l \/ exists r' b, r' ∈ l /\ objs !! r' = Some b /\ same_unique_id b a.
Proof.
  intros Ha. unfold gs_app_list_check_for_duplicate. rewrite Ha. simpl.
  case_bool_decide as Hin; [auto|].
  destruct (gs_app_get_unique_id a) as [u|] eqn:Hu; [|done].
  intros Hl. apply negb_false_iff in Hl. unfold gs_app_list_lookup in Hl.
  apply existsb_exists in Hl as (r' & Hr' & Heq). right.
  destruct (objs !! r') as [b|] eqn:Hb; [|done]. simpl in Heq.
  destruct (gs_app_get_unique_id b) as [u'|] eqn:Hu'; [|done].
  exists r', b. split; [by apply list_elem_of_In|]. split; [done|].
  by exists u', u.
Qed.

(** ** Installed refresh *)

Arguments fdroid_get_installed_apps_child : simpl never.
Arguments fdroid_get_upgradable_child : simpl never.
Arguments fdroid_get_installed_apps_cb : simpl never.
Arguments fdroid_get_upgradable_cb : simpl never.

Lemma installed_loop_invariant_holds self st0 processed :
  installed_apps st0 = [] ->
  installed_loop_invariant self st0 processed
    (fold_left (fdroid_get_installed_apps_child self) processed (st0, gs_app_list_new)).
Proof.
  intros Hempty. induction processed as [|x processed IH] using rev_ind.
  - unfold installed_loop_invariant. simpl. rewrite Hempty.
    split; [done|]. split; [exists []; by rewrite app_nil_r|].
    split; [intros r Hr; by apply elem_of_nil in Hr|].
    intros child p Hin. by apply elem_of_nil in Hin.
  - rewrite fold_left_app. simpl.
    destruct (fold_left _ processed _) as [st list_].
    destruct IH as (Hlist & [new Hnew] & Hsound & Hcomplete). simpl in *.
    unfold installed_loop_invariant.
    destruct (g_variant_dict_lookup x "packageName") as [p|] eqn:Hp.
    + pose proof (fdroid_get_installed_apps_child_some self st list_ x p Hp)
        as (Hobjs & Hinst & _ & Hl). simpl in Hobjs, Hinst, Hl.
      fold (installed_app_of_child self x p) in Hobjs, Hinst, Hl.
      set (app := installed_app_of_child self x p) in *.
      destruct (fdroid_get_installed_apps_child self (st, list_) x) as [st' list_'].
      simpl in *. subst list_.
      assert (objects st' !! length (objects st) = Some app) as Hnewobj.
      { rewrite Hobjs, lookup_app_r, Nat.sub_diag; [done|lia]. }
      assert (forall r a, objects st !! r = Some a -> objects st' !! r = Some a) as Hold.
      { intros r a Hr. rewrite Hobjs. by apply lookup_app_l_Some. }
      split; [by rewrite Hl, Hinst|].
      split; [exists (new ++ [app]); by rewrite Hobjs, Hnew, app_assoc|].
      split.
      * intros r Hr. rewrite Hinst in Hr.
        apply gs_app_list_add_elem in Hr as [Hr| ->].
        -- destruct (Hsound r Hr) as (Hge & child & q & Hin & Hq & Hobj).
           split; [done|]. exists child, q. rewrite elem_of_app. auto.
        -- split; [rewrite Hnew, length_app; lia|].
           exists x, p. rewrite elem_of_app, list_elem_of_singleton. auto.
      * intros child q Hin Hq. apply elem_of_app in Hin as [Hin|Hin].
        -- destruct (Hcomplete child q Hin Hq) as (r & a & Hr & Ha & Hor).
           exists r, a. rewrite Hinst. split; [by apply gs_app_list_add_keeps|]. auto.
        -- apply list_elem_of_singleton in Hin as ->.
           rewrite Hp in Hq. injection Hq as <-.
           rewrite Hinst.
           destruct (gs_app_list_add_cases (objects st ++ [app]) (installed_apps st)
                       (length (objects st))) as [[_ ->]|[Hdup ->]].
           ++ exists (length (objects st)), app.
              rewrite elem_of_app, list_elem_of_singleton. auto.
           ++ rewrite <- Hobjs in Hdup.
              destruct (gs_app_list_add_refused _ _ _ _ Hnewobj Hdup)
                as [Hin|(r' & b & Hr' & Hb & Hsame)].
              ** exists (length (objects st)), app. auto.
              ** exists r', b. auto.
    + unfold fdroid_get_installed_apps_child. rewrite Hp. simpl.
      split; [done|]. split; [by exists new|]. split.
      * intros r Hr. destruct (Hsound r Hr) as (Hge & child & q & Hin & Hq & Hobj).
        split; [done|]. exists child, q. rewrite elem_of_app. auto.
      * intros child q Hin Hq. apply elem_of_app in Hin as [Hin|Hin].
        -- by apply Hcomplete.
        -- apply list_elem_of_singleton in Hin as ->. congruence.
Qed.

Lemma fdroid_get_installed_apps_cb_loop self reply st :
  fdroid_get_installed_apps_cb self (inr reply) st
  = let acc := fold_left (fdroid_get_installed_apps_child self) reply
                 (with_installed_apps (gs_app_list_remove_all (installed_apps st)) st,
                  gs_app_list_new) in
    (acc.1, TaskPointer acc.2).
Proof. unfold fdroid_get_installed_apps_cb. by destruct (fold_left _ reply _). Qed.

(** After one installed refresh, every cached reference points into the
    store. *)
Lemma installed_refresh_refs_valid self reply st r :
  r ∈ installed_apps (fdroid_get_installed_apps_cb self (inr reply) st).1 ->
  r < length (objects (fdroid_get_installed_apps_cb self (inr reply) st).1).
Proof.
  rewrite fdroid_get_installed_apps_cb_loop.
  pose proof (installed_loop_invariant_holds self
                (with_installed_apps (gs_app_list_remove_all (installed_apps st)) st)
                reply eq_refl) as (_ & _ & Hsound & _).
  cbn zeta. destruct (fold_left _ reply _) as [st' l]. simpl in *.
  intros Hr. destruct (Hsound r Hr) as (_ & child & p & _ & _ & Hobj).
  by apply lookup_lt_Some in Hobj.
Qed.


(** ** Updatable refresh *)

Lemma fdroid_get_upgradable_cb_loop self reply st :
  exists msg,
    (fdroid_get_upgradable_cb self (inr reply) st).1
    = g_debug msg (fold_left (fdroid_get_upgradable_child self) reply
                     (st, gs_app_list_new)).1.
Proof.
  unfold fdroid_get_upgradable_cb. destruct (fold_left _ reply _) as [st' l].
  destruct (Nat.ltb 0 _); by eexists.
Qed.

(** ** Decoding a reply *)

(** The two listing loops have the same shape: a child without package
    name is passed over, a child with one makes a new object ([mk]) at the
    next free reference and offers it to the returned list. *)
Section listing_fold.

Context (mk : gmap string GVariant -> string -> GsApp).
Context (body : State * list nat -> gmap string GVariant -> State * list nat).

Hypothesis body_some : forall st list_ child p,
  g_variant_dict_lookup child "packageName" = Some p ->
  objects (body (st, list_) child).1 = objects st ++ [mk child p]
  /\ (body (st, list_) child).2
     = gs_app_list_add (objects st ++ [mk child p]) list_ (length (objects st)).

Hypothesis body_none : forall st list_ child,
  g_variant_dict_lookup child "packageName" = None ->
  body (st, list_) child = (st, list_).

Lemma listing_fold_decodes reply st list_ :
  let acc := fold_left body reply (st, list_) in
  let decoded := children_with_package_name reply in
  objects acc.1 = objects st ++ map (fun cp => mk cp.1 cp.2) decoded
  /\ (forall r, r ∈ acc.2 ->
        r ∈ list_ \/ length (objects st) <= r < length (objects st) + length decoded)
  /\ (forall i cp, decoded !! i = Some cp ->
        length (objects st) + i ∈ acc.2
        \/ exists r' b,
             r' ∈ acc.2 /\ objects acc.1 !! r' = Some b
             /\ same_unique_id b (mk cp.1 cp.2)).
Proof.
  cbn zeta. unfold children_with_package_name.
  induction reply as [|x reply IH] using rev_ind.
  - simpl. rewrite app_nil_r. split; [done|]. split; [auto|].
    intros i cp Hi. by rewrite lookup_nil in Hi.
  - rewrite fold_left_app, omap_app. cbn [fold_left].
    destruct (fold_left body reply (st, list_)) as [st1 l1]. cbn [fst snd] in IH.
    destruct IH as (Hobjs & Hsound & Hcomplete).
    set (decoded := omap _ reply) in *. simpl omap.
    destruct (g_variant_dict_lookup x "packageName") as [p|] eqn:Hp.
    + destruct (body_some st1 l1 x p Hp) as [Hobjs' Hl'].
      destruct (body (st1, l1) x) as [st2 l2]. cbn [fst snd option_list fmap option_fmap
        option_map] in *.
      assert (length (objects st1) = length (objects st) + length decoded) as Hlen.
      { by rewrite Hobjs, length_app, length_map. }
      assert (objects st2 !! length (objects st1) = Some (mk x p)) as Hnew.
      { rewrite Hobjs', lookup_app_r, Nat.sub_diag; [done|lia]. }
      split; [by rewrite Hobjs', Hobjs, map_app, app_assoc|]. split.
      * intros r Hr. rewrite Hl' in Hr. rewrite length_app. cbn [length].
        apply gs_app_list_add_elem in Hr as [Hr| ->].
        -- destruct (Hsound r Hr); [auto|right; lia].
        -- right. lia.
      * intros i cp Hi. apply lookup_app_Some in Hi as [Hi|[Hge Hi]].
        -- destruct (Hcomplete i cp Hi) as [Hin|(r' & b & Hr' & Hb & Hsame)].
           ++ left. rewrite Hl'. by apply gs_app_list_add_keeps.
           ++ right. exists r', b. rewrite Hl', Hobjs'.
              split; [by apply gs_app_list_add_keeps|].
              split; [by apply lookup_app_l_Some|done].
        -- apply list_lookup_singleton_Some in Hi as [Hi <-]. cbn [fst snd].
           replace (length (objects st) + i) with (length (objects st1)) by lia.
           rewrite Hl'.
           destruct (gs_app_list_add_cases (objects st1 ++ [mk x p]) l1
                       (length (objects st1))) as [[_ ->]|[Hdup ->]].
           ++ left. rewrite elem_of_app, list_elem_of_singleton. auto.
           ++ rewrite <- Hobjs' in Hdup.
              destruct (gs_app_list_add_refused _ _ _ _ Hnew Hdup)
                as [Hin|(r' & b & Hr' & Hb & Hsame)]; [auto|].
              right. by exists r', b.
    + rewrite (body_none st1 l1 x Hp). cbn [fst snd]. rewrite app_nil_r.
      split; [done|]. split; done.
Qed.

End listing_fold.

(** C7.  Both listing callbacks decode their reply entry by entry.  The
    entries that have a string under ["packageName"] make one new object
    each, in the order of the reply, and the entries that lack it make
    none: they are passed over, and the reply as a whole still ends the
    task with a list, never with an error.  The object made from an entry
    has the entry's ["id"] as its one source (and no source when the entry
    has no id).  The returned list holds references to these new objects
    only, and every one of them is in it, or is represented in it by an
    object with an equal unique id when [gs_app_list_add] took it for a
    duplicate. *)
Theorem field_map_decoding
    (self : GsPlugin) (st : State) (reply : list (gmap string GVariant)) :
  let decoded := children_with_package_name reply in
  let n := length (objects st) in
  (let '(st', result) := fdroid_get_installed_apps_cb self (inr reply) st in
   objects st'
   = objects st ++ map (fun cp => installed_app_of_child self cp.1 cp.2) decoded
   /\ exists l,
        result = TaskPointer l
        /\ (forall r, r ∈ l -> n <= r < n + length decoded)
        /\ (forall i child p, decoded !! i = Some (child, p) ->
              exists app,
                objects st' !! (n + i) = Some app
                /\ app_sources app = option_list (g_variant_dict_lookup child "id")
                /\ (n + i ∈ l
                    \/ exists r' b,
                         r' ∈ l /\ objects st' !! r' = Some b /\ same_unique_id b app)))
  /\ (let '(st', result) := fdroid_get_upgradable_cb self (inr reply) st in
      objects st'
      = objects st ++ map (fun cp => upgradable_app_of_child self cp.1 cp.2) decoded
      /\ exists l,
           result = TaskPointer l
           /\ (forall r, r ∈ l -> n <= r < n + length decoded)
           /\ (forall i child p, decoded !! i = Some (child, p) ->
                 exists app,
                   objects st' !! (n + i) = Some app
                   /\ app_sources app = option_list (g_variant_dict_lookup child "id")
                   /\ (n + i ∈ l
                       \/ exists r' b,
                            r' ∈ l /\ objects st' !! r' = Some b
                            /\ same_unique_id b app)))
  /\ (Forall (fun child => g_variant_dict_lookup child "packageName" = None) reply ->
      decoded = []).
Proof.
  cbn zeta. split; [|split].
  - unfold fdroid_get_installed_apps_cb.
    pose proof (listing_fold_decodes (installed_app_of_child self)
                  (fdroid_get_installed_apps_child self)) as H.
    specialize (H ltac:(intros st0 l0 child p Hp;
                        by destruct (fdroid_get_installed_apps_child_some
                                       self st0 l0 child p Hp) as (? & _ & _ & ?))).
    specialize (H ltac:(intros st0 l0 child Hp;
                        unfold fdroid_get_installed_apps_child; by rewrite Hp)).
    specialize (H reply
                  (with_installed_apps (gs_app_list_remove_all (installed_apps st)) st)
                  gs_app_list_new).
    cbn zeta in H. destruct (fold_left _ reply _) as [st' l]. cbn [fst snd] in H.
    destruct H as (Hobjs & Hsound & Hcomplete).
    change (objects (with_installed_apps (gs_app_list_remove_all (installed_apps st)) st))
      with (objects st) in *.
    split; [done|]. exists l. split; [done|]. split.
    + intros r Hr. destruct (Hsound r Hr) as [Hnil|?]; [|done].
      by apply elem_of_nil in Hnil.
    + intros i child p Hi. exists (installed_app_of_child self child p).
      split; [|split].
      * rewrite Hobjs, lookup_app_r, Nat.add_comm, Nat.add_sub by lia.
        by rewrite list_lookup_fmap, Hi.
      * apply fdroid_installed_app_sources.
      * apply (Hcomplete i (child, p) Hi).
  - unfold fdroid_get_upgradable_cb.
    pose proof (listing_fold_decodes (upgradable_app_of_child self)
                  (fdroid_get_upgradable_child self)) as H.
    specialize (H ltac:(intros st0 l0 child p Hp;
                        by destruct (fdroid_get_upgradable_child_some
                                       self st0 l0 child p Hp) as (? & _ & _ & ?))).
    specialize (H ltac:(intros st0 l0 child Hp;
                        unfold fdroid_get_upgradable_child; by rewrite Hp)).
    specialize (H reply st gs_app_list_new).
    cbn zeta in H. destruct (fold_left _ reply _) as [st' l]. cbn [fst snd] in H.
    destruct H as (Hobjs & Hsound & Hcomplete).
    assert (forall msg, objects (if Nat.ltb 0 (length (filter
                (fun child => is_Some (g_variant_dict_lookup child "packageName")) reply))
              then g_debug ("Found " +:+ msg +:+ " upgradable Android apps") st'
              else g_debug "No upgradable Android apps found" st') = objects st') as Hdebug.
    { intros msg. by destruct (Nat.ltb 0 _). }
    rewrite Hdebug.
    split; [done|]. exists l. split; [done|]. split.
    + intros r Hr. destruct (Hsound r Hr) as [Hnil|?]; [|done].
      by apply elem_of_nil in Hnil.
    + intros i child p Hi. exists (upgradable_app_of_child self child p).
      split; [|split].
      * rewrite Hobjs, lookup_app_r, Nat.add_comm, Nat.add_sub by lia.
        by rewrite list_lookup_fmap, Hi.
      * apply fdroid_upgradable_app_sources.
      * apply (Hcomplete i (child, p) Hi).
  - unfold children_with_package_name. induction 1 as [|child reply Hp _ IH]; [done|].
    cbn [omap list_omap]. by rewrite Hp, IH.
Qed.

Lemma fdroid_get_upgradable_child_extends self acc child :
  exists new, updatable_apps (fdroid_get_upgradable_child self acc child).1
              = updatable_apps acc.1 ++ new.
Proof.
  destruct acc as [st list_].
  destruct (g_variant_dict_lookup child "packageName") as [p|] eqn:Hp.
  - destruct (fdroid_get_upgradable_child_some self st list_ child p Hp)
      as (_ & -> & _). apply gs_app_list_add_extends.
  - unfold fdroid_get_upgradable_child. rewrite Hp. exists []. by rewrite app_nil_r.
Qed.

(** An updatable refresh never clears the cache: what was in it stays at
    its front. *)
Lemma updatable_refresh_extends self reply st :
  exists new, updatable_apps (fdroid_get_upgradable_cb self (inr reply) st).1
              = updatable_apps st ++ new.
Proof.
  destruct (fdroid_get_upgradable_cb_loop self reply st) as [msg ->].
  change (updatable_apps (g_debug msg ?s)) with (updatable_apps s).
  induction reply as [|x reply IH] using rev_ind.
  - exists []. by rewrite app_nil_r.
  - rewrite fold_left_app. simpl. destruct IH as [new Hnew].
    destruct (fdroid_get_upgradable_child_extends self
                (fold_left (fdroid_get_upgradable_child self) reply (st, gs_app_list_new)) x)
      as [new' ->].
    exists (new ++ new'). by rewrite Hnew, app_assoc.
Qed.

(** A refresh whose reply is the single child [child]. *)
Lemma updatable_refresh_single self child p st :
  g_variant_dict_lookup child "packageName" = Some p ->
  let st' := (fdroid_get_upgradable_cb self (inr [child]) st).1 in
  let objs := objects st ++ [upgradable_app_of_child self child p] in
  objects st' = objs
  /\ updatable_apps st' = gs_app_list_add objs (updatable_apps st) (length (objects st)).
Proof.
  intros Hp. cbv zeta.
  destruct (fdroid_get_upgradable_cb_loop self [child] st) as [msg ->].
  cbn [fold_left].
  change (objects (g_debug msg ?s)) with (objects s).
  change (updatable_apps (g_debug msg ?s)) with (updatable_apps s).
  by destruct (fdroid_get_upgradable_child_some self st gs_app_list_new child p Hp)
    as (-> & -> & _).
Qed.

Lemma upgradable_app_unique_id self child p :
  gs_app_get_unique_id (upgradable_app_of_child self child p)
  = (fun id => (AS_COMPONENT_SCOPE_SYSTEM, AS_BUNDLE_KIND_PACKAGE, id))
      <$> g_variant_dict_lookup child "id".
Proof.
  unfold upgradable_app_of_child, fdroid_upgradable_app, gs_app_set_version,
    gs_app_set_update_version.
  destruct (g_variant_dict_lookup child "availableVersion"),
    (g_variant_dict_lookup child "currentVersion"),
    (g_variant_dict_lookup child "repository"),
    (g_variant_dict_lookup child "name") as [[|]|];
    autorewrite with gs_app; by destruct (g_variant_dict_lookup child "id").
Qed.

Lemma as_utils_data_id_equal_refl u : as_utils_data_id_equal u u = true.
Proof.
  destruct u as [[s b] id]. unfold as_utils_data_id_equal.
  rewrite String.eqb_refl, !(bool_decide_eq_true_2 (_ = _) eq_refl).
  by rewrite !orb_true_r.
Qed.

Lemma gs_app_list_lookup_app objs extra l u :
  gs_app_list_lookup objs l u = true -> gs_app_list_lookup (objs ++ extra) l u = true.
Proof.
  unfold gs_app_list_lookup. rewrite !existsb_exists.
  intros (r & Hr & Heq). exists r. split; [done|].
  destruct (objs !! r) as [b|] eqn:Hb; [|done].
  by rewrite (lookup_app_l_Some _ _ _ _ Hb).
Qed.

Lemma gs_app_list_lookup_elem objs l r a u :
  r ∈ l -> objs !! r = Some a -> gs_app_get_unique_id a = Some u ->
  gs_app_list_lookup objs l u = true.
Proof.
  intros Hr Ha Hu. unfold gs_app_list_lookup. apply existsb_exists.
  exists r. split; [by apply list_elem_of_In|].
  rewrite Ha. simpl. rewrite Hu. apply as_utils_data_id_equal_refl.
Qed.

(** A child without id: the new object has no unique id and is always
    appended. *)
Lemma updatable_refresh_single_no_id self child p st :
  g_variant_dict_lookup child "packageName" = Some p ->
  g_variant_dict_lookup child "id" = None ->
  (forall r, r ∈ updatable_apps st -> r < length (objects st)) ->
  let st' := (fdroid_get_upgradable_cb self (inr [child]) st).1 in
  updatable_apps st' = updatable_apps st ++ [length (objects st)]
  /\ (forall r, r ∈ updatable_apps st' -> r < length (objects st')).
Proof.
  intros Hp Hid Hvalid.
  destruct (updatable_refresh_single self child p st Hp) as [Hobjs Hupd].
  simpl in *. rewrite Hobjs, Hupd.
  assert (gs_app_list_check_for_duplicate
            (objects st ++ [upgradable_app_of_child self child p])
            (updatable_apps st) (length (objects st)) = true) as Hcheck.
  { unfold gs_app_list_check_for_duplicate.
    rewrite bool_decide_eq_false_2; [|intros Hin; apply Hvalid in Hin; lia].
    rewrite lookup_app_r, Nat.sub_diag by lia. simpl.
    by rewrite upgradable_app_unique_id, Hid. }
  unfold gs_app_list_add. rewrite Hcheck. split; [done|].
  intros r Hr. rewrite length_app. simpl.
  apply elem_of_app in Hr as [Hr|Hr]; [apply Hvalid in Hr; lia|].
  apply list_elem_of_singleton in Hr. lia.
Qed.

(** A child with an id, whose unique id the cache already holds: the new
    object is refused. *)
Lemma updatable_refresh_single_known_id self child p id st :
  g_variant_dict_lookup child "packageName" = Some p ->
  g_variant_dict_lookup child "id" = Some id ->
  let u := (AS_COMPONENT_SCOPE_SYSTEM, AS_BUNDLE_KIND_PACKAGE, id) in
  gs_app_list_lookup (objects st) (updatable_apps st) u = true ->
  let st' := (fdroid_get_upgradable_cb self (inr [child]) st).1 in
  updatable_apps st' = updatable_apps st
  /\ gs_app_list_lookup (objects st') (updatable_apps st') u = true.
Proof.
  intros Hp Hid u Hknown.
  destruct (updatable_refresh_single self child p st Hp) as [Hobjs Hupd].
  simpl in *. rewrite Hobjs, Hupd.
  apply (gs_app_list_lookup_app _ [upgradable_app_of_child self child p]) in Hknown.
  assert (gs_app_list_check_for_duplicate
            (objects st ++ [upgradable_app_of_child self child p])
            (updatable_apps st) (length (objects st)) = false) as Hcheck.
  { unfold gs_app_list_check_for_duplicate. case_bool_decide; [done|].
    rewrite lookup_app_r, Nat.sub_diag by lia. simpl.
    rewrite upgradable_app_unique_id, Hid. simpl. fold u. by rewrite Hknown. }
  unfold gs_app_list_add. by rewrite Hcheck.
Qed.

(** A child with an id: after the refresh the cache holds its unique id,
    with at most one entry more than before. *)
Lemma updatable_refresh_single_id self child p id st :
  g_variant_dict_lookup child "packageName" = Some p ->
  g_variant_dict_lookup child "id" = Some id ->
  let u := (AS_COMPONENT_SCOPE_SYSTEM, AS_BUNDLE_KIND_PACKAGE, id) in
  let st' := (fdroid_get_upgradable_cb self (inr [child]) st).1 in
  gs_app_list_lookup (objects st') (updatable_apps st') u = true
  /\ (updatable_apps st = [] -> updatable_apps st' = [length (objects st)]).
Proof.
  intros Hp Hid u.
  destruct (updatable_refresh_single self child p st Hp) as [Hobjs Hupd].
  simpl in *. rewrite Hobjs, Hupd.
  set (app := upgradable_app_of_child self child p) in *.
  assert ((objects st ++ [app]) !! length (objects st) = Some app) as Hnew.
  { by rewrite lookup_app_r, Nat.sub_diag by lia. }
  assert (gs_app_get_unique_id app = Some u) as Hu.
  { unfold app. by rewrite upgradable_app_unique_id, Hid. }
  split.
  - unfold gs_app_list_add, gs_app_list_check_for_duplicate.
    case_bool_decide as Hin.
    + by apply (gs_app_list_lookup_elem _ _ _ _ _ Hin Hnew Hu).
    + rewrite Hnew. simpl. rewrite Hu.
      destruct (gs_app_list_lookup _ (updatable_apps st) u) eqn:Hl; [done|]. simpl.
      apply (gs_app_list_lookup_elem _ _ (length (objects st)) app); [|done|done].
      rewrite elem_of_app, list_elem_of_singleton. auto.
  - intros ->. unfold gs_app_list_add, gs_app_list_check_for_duplicate.
    rewrite bool_decide_eq_false_2 by apply not_elem_of_nil.
    rewrite Hnew. simpl. by rewrite Hu.
Qed.

Lemma refresh_updatable_no_id self child p n st :
  g_variant_dict_lookup child "packageName" = Some p ->
  g_variant_dict_lookup child "id" = None ->
  (forall r, r ∈ updatable_apps st -> r < length (objects st)) ->
  length (updatable_apps (refresh_updatable self [child] n st))
  = length (updatable_apps st) + n.
Proof.
  intros Hp Hid. revert st. induction n as [|n IH]; intros st Hvalid.
  - simpl. lia.
  - simpl.
    destruct (updatable_refresh_single_no_id self child p st Hp Hid Hvalid)
      as [Hupd Hvalid'].
    rewrite (IH _ Hvalid'), Hupd, length_app. simpl. lia.
Qed.

Lemma refresh_updatable_known_id self child p id n st :
  g_variant_dict_lookup child "packageName" = Some p ->
  g_variant_dict_lookup child "id" = Some id ->
  gs_app_list_lookup (objects st) (updatable_apps st)
    (AS_COMPONENT_SCOPE_SYSTEM, AS_BUNDLE_KIND_PACKAGE, id) = true ->
  updatable_apps (refresh_updatable self [child] n st) = updatable_apps st.
Proof.
  intros Hp Hid. revert st. induction n as [|n IH]; intros st Hknown; [done|].
  simpl.
  destruct (updatable_refresh_single_known_id self child p id st Hp Hid Hknown)
    as [Hupd Hknown'].
  by rewrite (IH _ Hknown').
Qed.

(** C5, as the code has it.  An updatable refresh never clears the
    updatable cache: what the cache held stays at its front, and each
    decoded entity is offered to it through [gs_app_list_add].  Refreshes
    that all decode to the same single entry therefore add one entry per
    call only when the entry has no id; with an id, the entity of every call
    after the first has the unique id of one the cache holds, and is
    refused: the cache is after any number of calls what it was after the
    first, a single entry when it started empty. *)
Theorem updatable_refresh_accumulation
    (self : GsPlugin) (child : gmap string GVariant) (p : string) (st : State)
    (reply : list (gmap string GVariant)) (n : nat) :
  g_variant_dict_lookup child "packageName" = Some p ->
  (forall r, r ∈ updatable_apps st -> r < length (objects st)) ->
  (exists new, updatable_apps (fdroid_get_upgradable_cb self (inr reply) st).1
               = updatable_apps st ++ new)
  /\ match g_variant_dict_lookup child "id" with
     | None =>
         length (updatable_apps (refresh_updatable self [child] n st))
         = length (updatable_apps st) + n
     | Some _ =>
         updatable_apps (refresh_updatable self [child] (S n) st)
         = updatable_apps (refresh_updatable self [child] 1 st)
         /\ (updatable_apps st = [] ->
             length (updatable_apps (refresh_updatable self [child] (S n) st)) = 1)
     end.
Proof.
  intros Hp Hvalid. split; [apply updatable_refresh_extends|].
  destruct (g_variant_dict_lookup child "id") as [id|] eqn:Hid.
  - destruct (updatable_refresh_single_id self child p id st Hp Hid) as [Hknown Hone].
    simpl in Hknown, Hone.
    assert (updatable_apps (refresh_updatable self [child] (S n) st)
            = updatable_apps (refresh_updatable self [child] 1 st)) as Heq.
    { simpl. by apply (refresh_updatable_known_id self child p id). }
    split; [done|]. intros Hempty. rewrite Heq. simpl. by rewrite (Hone Hempty).
  - by apply (refresh_updatable_no_id self child p).
Qed.

Lemma updatable_refresh_accumulation_witness :
  (exists new,
      updatable_apps (fdroid_get_upgradable_cb android (inr [upgradable_child_example])
                        (gs_plugin_android_init [])).1
      = updatable_apps (gs_plugin_android_init []) ++ new)
  /\ updatable_apps (refresh_updatable android [upgradable_child_example] 3
                       (gs_plugin_android_init []))
     = updatable_apps (refresh_updatable android [upgradable_child_example] 1
                         (gs_plugin_android_init []))
  /\ (updatable_apps (gs_plugin_android_init []) = [] ->
      length (updatable_apps (refresh_updatable android [upgradable_child_example] 3
                                (gs_plugin_android_init []))) = 1).
Proof.
  apply (updatable_refresh_accumulation android upgradable_child_example
           "org.fdroid.fdroid" (gs_plugin_android_init [])
           [upgradable_child_example] 2).
  - vm_compute. reflexivity.
  - intros r Hr. vm_compute in Hr. by apply elem_of_nil in Hr.
Defined.

(** C5, as the specification has it, fails: two refreshes, each answered
    with the same single entry, leave one entry in the updatable cache, not
    two. *)
Lemma updatable_refresh_twice_one_entry :
  length (updatable_apps
            (refresh_updatable android [upgradable_child_example] 2
               (gs_plugin_android_init []))) = 1.
Proof. vm_compute. reflexivity. Qed.

(** ** Install: failure of the remote call *)

Lemma gs_app_set_state_idempotent s a :
  gs_app_set_state s (gs_app_set_state s a) = gs_app_set_state s a.
Proof.
  unfold gs_app_set_state at 1. by rewrite gs_app_set_state_state, bool_decide_eq_true_2.
Qed.

(** The loop of the entry point touches an object only by setting it to
    Installing, and does so to every object it adds to [install_list]. *)
Lemma install_apps_loop_objects plugin list_ install_list st st' install_list' r :
  install_apps_loop plugin list_ install_list st = (st', Some install_list') ->
  let f := gs_app_set_state GS_APP_STATE_INSTALLING in
  (objects st' !! r = objects st !! r \/ objects st' !! r = f <$> objects st !! r)
  /\ (r ∈ install_list' -> r ∈ install_list \/ objects st' !! r = f <$> objects st !! r).
Proof.
  intros Hloop f. revert install_list st Hloop.
  induction list_ as [|r0 rest IH]; intros install_list st Hloop.
  - injection Hloop as <- <-. auto.
  - simpl in Hloop. destruct (objects st !! r0) as [app|] eqn:Happ; [|by apply IH].
    case_bool_decide; [done|].
    destruct (gs_app_has_management_plugin app plugin); simpl in Hloop;
      [|by apply (IH _ _ Hloop)].
    destruct (gs_app_get_metadata_item app "android::package-name") as [p|];
      [|by apply (IH _ _ Hloop)].
    destruct (IH _ _ Hloop) as [Hobj Hin]. clear IH Hloop.
    rewrite objects_update_app, objects_g_debug in Hobj, Hin.
    assert (f <$> (f <$> objects st !! r) = f <$> objects st !! r) as Hidem.
    { destruct (objects st !! r); [|done]. simpl. f_equal.
      apply gs_app_set_state_idempotent. }
    destruct (decide (r0 = r)) as [->|Hne].
    + rewrite list_lookup_alter_eq in Hobj, Hin. fold f in Hobj, Hin.
      rewrite Hidem in Hobj, Hin. split; [tauto|]. intros Hr. right.
      destruct Hobj as [->| ->]; done.
    + rewrite list_lookup_alter_ne in Hobj, Hin by done. split; [done|].
      intros Hr. destruct (Hin Hr) as [Hr'|Hr']; [|by right].
      apply gs_app_list_add_elem in Hr' as [Hr'|Hr']; [by left|]. by subst.
Qed.


(** *** What stripping does to the message *)

Lemma string_append_nil s : "" +:+ s = s.
Proof. reflexivity. Qed.

Lemma string_append_cons c s1 s2 : String c s1 +:+ s2 = String c (s1 +:+ s2).
Proof. reflexivity. Qed.













(** ** Search *)

Lemma icons_set_metadata k v a : app_icons (gs_app_set_metadata k v a) = app_icons a.
Proof. gs_app_setter. Qed.
Lemma icons_set_state s a : app_icons (gs_app_set_state s a) = app_icons a.
Proof. gs_app_setter. Qed.
Lemma icons_set_name q n a : app_icons (gs_app_set_name q n a) = app_icons a.
Proof. gs_app_setter. Qed.
Lemma icons_set_text k v a : app_icons (gs_app_set_text k v a) = app_icons a.
Proof. gs_app_setter. Qed.
Lemma icons_add_kudo k a : app_icons (gs_app_add_kudo k a) = app_icons a.
Proof. gs_app_setter. Qed.
Lemma icons_add_quirk q a : app_icons (gs_app_add_quirk q a) = app_icons a.
Proof. gs_app_setter. Qed.
Lemma icons_add_source s a : app_icons (gs_app_add_source s a) = app_icons a.
Proof. gs_app_setter. Qed.
Lemma icons_set_management_plugin p a :
  app_icons (gs_app_set_management_plugin p a) = app_icons a.
Proof. gs_app_setter. Qed.

#[global] Hint Rewrite icons_set_metadata icons_set_state icons_set_name icons_set_text
  icons_add_kudo icons_add_quirk icons_add_source icons_set_management_plugin : gs_app.

Lemma search_is_installed_spec st id :
  search_is_installed st id = true <-> installed_with_package_name st id.
Proof.
  unfold search_is_installed, installed_with_package_name. rewrite existsb_exists.
  split.
  - intros (r & Hr & Heq). destruct (objects st !! r) as [a|] eqn:Ha; [|done].
    exists r, a. split; [by apply list_elem_of_In|]. split; [done|].
    by apply bool_decide_eq_true in Heq.
  - intros (r & a & Hr & Ha & Heq). exists r. split; [by apply list_elem_of_In|].
    rewrite Ha. by apply bool_decide_eq_true.
Qed.

(** The state of the application made from an element with a package
    object. *)
Lemma fdroid_search_element_state self st element uninit package :
  json_object_get_object_member (json_node_get_object element) "package" = Some package ->
  app_state (fdroid_search_element self st element uninit).1
  = if search_is_installed st
         (json_object_get_string_member (json_node_get_object element) "id")
    then GS_APP_STATE_INSTALLED else GS_APP_STATE_AVAILABLE.
Proof.
  intros Hpackage. unfold fdroid_search_element. rewrite Hpackage.
  destruct (json_object_get_string_member (Some package) "icon_url") as [icon_url|];
    [destruct (negb _ && negb _)|]; cbn [fst]; apply gs_app_set_state_state.
Qed.

(** The state of the application made from any element: [is_installed]
    is FALSE by its initialiser and written only under [if (package)]. *)
Lemma fdroid_search_element_state_any self st element uninit :
  app_state (fdroid_search_element self st element uninit).1
  = if match json_object_get_object_member (json_node_get_object element) "package" with
       | Some _ =>
           search_is_installed st
             (json_object_get_string_member (json_node_get_object element) "id")
       | None => false
       end
    then GS_APP_STATE_INSTALLED else GS_APP_STATE_AVAILABLE.
Proof.
  unfold fdroid_search_element.
  destruct (json_object_get_object_member (json_node_get_object element) "package")
    as [package|].
  - destruct (json_object_get_string_member (Some package) "icon_url") as [icon_url|];
      [destruct (negb _ && negb _)|]; cbn [fst]; apply gs_app_set_state_state.
  - destruct uninit as [version [icon_url|]]; cbn [fst snd];
      [destruct (negb _ && negb _)|]; cbn [fst]; apply gs_app_set_state_state.
Qed.

(** The icons and the diagnostic of the application made from an element
    whose package object has an [icon_url] without http or https scheme. *)
Lemma fdroid_search_element_invalid_icon self st element uninit package icon_url :
  json_object_get_object_member (json_node_get_object element) "package" = Some package ->
  json_object_get_string_member (Some package) "icon_url" = Some icon_url ->
  g_str_has_prefix icon_url "http://" = false ->
  g_str_has_prefix icon_url "https://" = false ->
  let name := json_object_get_string_member (json_node_get_object element) "name" in
  app_icons (fdroid_search_element self st element uninit).1 = []
  /\ (fdroid_search_element self st element uninit).2
     = ["App '" +:+ fmt name +:+ "' has invalid icon URL: " +:+ icon_url].
Proof.
  intros Hpackage Hicon Hhttp Hhttps. unfold fdroid_search_element.
  rewrite Hpackage, Hicon, Hhttp, Hhttps. cbn [negb andb fst snd].
  split; [|done].
  unfold gs_app_set_summary, gs_app_set_description, gs_app_set_license,
    gs_app_set_developer_name, gs_app_set_url_homepage, gs_app_set_version.
  by autorewrite with gs_app.
Qed.

Lemma g_debug_fold msgs st :
  let st' := fold_left (fun st msg => g_debug msg st) msgs st in
  objects st' = objects st
  /\ installed_apps st' = installed_apps st
  /\ debug st' = debug st ++ msgs.
Proof.
  revert st. induction msgs as [|msg msgs IH]; intros st; simpl.
  - by rewrite app_nil_r.
  - destruct (IH (g_debug msg st)) as (-> & -> & ->). simpl.
    by rewrite <- app_assoc.
Qed.

(** One turn of the outer loop. *)
Lemma fdroid_search_loop_cons self uninit i element rest st list_ :
  exists st1 list1,
    fdroid_search_loop self uninit i (element :: rest) st list_
    = fdroid_search_loop self uninit (S i) rest st1 list1
    /\ installed_apps st1 = installed_apps st
    /\ objects st1 = objects st ++ [(fdroid_search_element self st element (uninit i)).1]
    /\ debug st1 = debug st ++ (fdroid_search_element self st element (uninit i)).2.
Proof.
  cbn [fdroid_search_loop].
  destruct (fdroid_search_element self st element (uninit i)) as [app msgs].
  destruct (g_debug_fold msgs st) as (Hobjs & Hinst & Hdebug). cbn zeta in *.
  unfold alloc_app. eexists _, _. split; [reflexivity|]. simpl.
  by rewrite Hobjs, Hinst, Hdebug.
Qed.

(** The loop only adds: to the store and to the log. *)
Lemma fdroid_search_loop_extends self uninit elements i st list_ :
  let st' := (fdroid_search_loop self uninit i elements st list_).1 in
  installed_apps st' = installed_apps st
  /\ (exists new, objects st' = objects st ++ new)
  /\ (exists new, debug st' = debug st ++ new).
Proof.
  revert i st list_. induction elements as [|element rest IH]; intros i st list_.
  - simpl. split; [done|]. split; exists []; by rewrite app_nil_r.
  - destruct (fdroid_search_loop_cons self uninit i element rest st list_)
      as (st1 & list1 & -> & Hinst & Hobjs & Hdebug).
    destruct (IH (S i) st1 list1) as (Hinst' & [new Hnew] & [newd Hnewd]).
    cbn zeta in *. rewrite Hinst', Hnew, Hnewd, Hinst, Hobjs, Hdebug.
    split; [done|]. split; eexists; by rewrite <- app_assoc.
Qed.

(** The outer loop: the object made for the element at position [k] sits
    at the [k]-th new reference; it was made in a state that has the
    installed list of the start and a store that extends the starting one;
    what it printed is in the log. *)
Lemma fdroid_search_loop_nth self uninit elements i st list_ k element :
  elements !! k = Some element ->
  exists st_k new,
    installed_apps st_k = installed_apps st
    /\ objects st_k = objects st ++ new
    /\ objects (fdroid_search_loop self uninit i elements st list_).1
         !! (length (objects st) + k)
       = Some (fdroid_search_element self st_k element (uninit (i + k))).1
    /\ (forall msg,
          msg ∈ (fdroid_search_element self st_k element (uninit (i + k))).2 ->
          msg ∈ debug (fdroid_search_loop self uninit i elements st list_).1).
Proof.
  revert i st list_ k. induction elements as [|e rest IH]; intros i st list_ k Hk.
  - by rewrite lookup_nil in Hk.
  - destruct (fdroid_search_loop_cons self uninit i e rest st list_)
      as (st1 & list1 & -> & Hinst & Hobjs & Hdebug).
    destruct k as [|k].
    + injection Hk as ->. exists st, []. rewrite app_nil_r, !Nat.add_0_r.
      destruct (fdroid_search_loop_extends self uninit rest (S i) st1 list1)
        as (_ & [new Hnew] & [newd Hnewd]). cbn zeta in *.
      rewrite Hnew, Hnewd, Hobjs, Hdebug. split; [done|]. split; [done|]. split.
      * rewrite <- app_assoc, lookup_app_r, Nat.sub_diag; [done|lia].
      * intros msg Hmsg. rewrite !elem_of_app. auto.
    + destruct (IH (S i) st1 list1 k Hk) as (st_k & new & Hinst_k & Hobjs_k & Hobj & Hmsgs).
      exists st_k, ((fdroid_search_element self st e (uninit i)).1 :: new).
      replace (i + S k) with (S i + k) by lia.
      replace (length (objects st) + S k) with (length (objects st1) + k).
      2:{ rewrite Hobjs, length_app. simpl. lia. }
      split; [congruence|]. split; [|done].
      by rewrite Hobjs_k, Hobjs, <- app_assoc.
Qed.

Lemma fdroid_search_cb_loop self uninit elements st :
  fdroid_search_cb self uninit (inr (JsonDocument (Some (JsonArray elements)))) st
  = let acc := fdroid_search_loop self uninit 0 elements st gs_app_list_new in
    (acc.1, TaskPointer acc.2).
Proof.
  unfold fdroid_search_cb. simpl. by destruct (fdroid_search_loop _ _ _ _ _ _).
Qed.

(** New objects do not change what the inner loop finds, as long as the
    installed list points into the store. *)
Lemma search_is_installed_extends st st_k new id :
  installed_apps st_k = installed_apps st ->
  objects st_k = objects st ++ new ->
  (forall r, r ∈ installed_apps st -> r < length (objects st)) ->
  search_is_installed st_k id = search_is_installed st id.
Proof.
  intros Hinst Hobjs Hvalid. unfold search_is_installed. rewrite Hinst, Hobjs.
  revert Hvalid. generalize (installed_apps st) as l.
  induction l as [|r l IH]; intros Hvalid; [done|]. simpl.
  rewrite IH by (intros r' Hr'; apply Hvalid, elem_of_cons; by right).
  rewrite lookup_app_l by (apply Hvalid, elem_of_cons; by left). done.
Qed.

(** C2, as the code has it.  For a search reply whose root is an array,
    and any element of it: the application made from the element ends up
    Installed when the element carries a package object and an application
    of the installed cache has the element's id as its package-name
    metadata; it ends up Available when no application of the installed
    cache has, and also whenever the element carries no package object.
    (The installed cache holds references to objects of the store.) *)
Theorem search_cross_reference
    (self : GsPlugin) (uninit : nat -> option string * option string) (st : State)
    (elements : list JsonNode) (k : nat) (element : JsonNode) :
  (forall r, r ∈ installed_apps st -> r < length (objects st)) ->
  elements !! k = Some element ->
  let id := json_object_get_string_member (json_node_get_object element) "id" in
  let package :=
    json_object_get_object_member (json_node_get_object element) "package" in
  let st' := (fdroid_search_cb self uninit
                (inr (JsonDocument (Some (JsonArray elements)))) st).1 in
  (is_Some package ->
   installed_with_package_name st id ->
   state_of st' (length (objects st) + k) = Some GS_APP_STATE_INSTALLED)
  /\ (~ installed_with_package_name st id ->
      state_of st' (length (objects st) + k) = Some GS_APP_STATE_AVAILABLE)
  /\ (package = None ->
      state_of st' (length (objects st) + k) = Some GS_APP_STATE_AVAILABLE).
Proof.
  intros Hvalid Hk id package st'. subst st'.
  rewrite fdroid_search_cb_loop. cbn zeta. cbn [fst].
  destruct (fdroid_search_loop_nth self uninit elements 0 st gs_app_list_new k element Hk)
    as (st_k & new & Hinst & Hobjs & Hobj & _).
  unfold state_of. rewrite Hobj. simpl. unfold gs_app_get_state.
  rewrite fdroid_search_element_state_any.
  rewrite (search_is_installed_extends st st_k new _ Hinst Hobjs Hvalid).
  fold id. fold package.
  pose proof (search_is_installed_spec st id) as Hspec.
  destruct package as [members|].
  - destruct (search_is_installed st id).
    + split; [done|]. split; [|done]. intros Hno. exfalso. apply Hno. by apply Hspec.
    + split; [|done]. intros _ Hyes. apply Hspec in Hyes. done.
  - split; [|done]. by intros [? ?].
Qed.

(** C9.  For a search reply whose root is an array, and an element of it
    whose package object has an [icon_url] that starts with neither
    ["http://"] nor ["https://"]: the call ends with a list, the
    application made from the element has no icon, and the log holds the
    diagnostic that names the application and the URL. *)
Theorem search_invalid_icon_is_skipped
    (self : GsPlugin) (uninit : nat -> option string * option string) (st : State)
    (elements : list JsonNode) (k : nat) (element : JsonNode)
    (package : list (string * JsonNode)) (icon_url : string) :
  elements !! k = Some element ->
  json_object_get_object_member (json_node_get_object element) "package" = Some package ->
  json_object_get_string_member (Some package) "icon_url" = Some icon_url ->
  g_str_has_prefix icon_url "http://" = false ->
  g_str_has_prefix icon_url "https://" = false ->
  let name := json_object_get_string_member (json_node_get_object element) "name" in
  let '(st', result) :=
    fdroid_search_cb self uninit (inr (JsonDocument (Some (JsonArray elements)))) st in
  (exists l, result = TaskPointer l)
  /\ (exists app, objects st' !! (length (objects st) + k) = Some app
                  /\ app_icons app = [])
  /\ ("App '" +:+ fmt name +:+ "' has invalid icon URL: " +:+ icon_url) ∈ debug st'.
Proof.
  intros Hk Hpackage Hicon Hhttp Hhttps name.
  rewrite fdroid_search_cb_loop. cbn zeta.
  destruct (fdroid_search_loop_nth self uninit elements 0 st gs_app_list_new k element Hk)
    as (st_k & new & _ & _ & Hobj & Hmsgs).
  destruct (fdroid_search_element_invalid_icon self st_k element (uninit (0 + k))
              package icon_url Hpackage Hicon Hhttp Hhttps) as [Hicons Hmsg].
  split; [by eexists|]. split.
  - eexists. split; [exact Hobj|exact Hicons].
  - apply Hmsgs. rewrite Hmsg. by apply list_elem_of_singleton.
Qed.

(** *** Search on examples *)

Lemma installed_example_state_valid r :
  r ∈ installed_apps installed_example_state ->
  r < length (objects installed_example_state).
Proof. apply installed_refresh_refs_valid. Defined.

Lemma search_cross_reference_witness :
  let st' := (fdroid_search_cb android uninit_null
                (inr (JsonDocument (Some (JsonArray
                   [search_element_example "x.y.z" "https://example.com/icon.png"]))))
                installed_example_state).1 in
  state_of st' 1 = Some GS_APP_STATE_INSTALLED.
Proof.
  apply (search_cross_reference android uninit_null installed_example_state
           [search_element_example "x.y.z" "https://example.com/icon.png"] 0
           (search_element_example "x.y.z" "https://example.com/icon.png")).
  - apply installed_example_state_valid.
  - reflexivity.
  - by eexists.
  - exists 0, (installed_app_of_child android installed_child_example "x.y.z").
    split; [|split].
    + apply list_elem_of_singleton. reflexivity.
    + vm_compute. reflexivity.
    + vm_compute. reflexivity.
Defined.

(** C2, as the specification has it, fails on an element without package
    object: ["x.y.z"] is installed (the cache holds it with that package
    name), the search returns an element with id ["x.y.z"], and the
    application made from it is Available.  [version] and [icon_url], which
    the C code reads uninitialised here, are taken to hold NULL. *)
Lemma search_without_package_is_available :
  installed_apps installed_example_state = [0]
  /\ metadata_item_of installed_example_state 0 "android::package-name" = Some "x.y.z"
  /\ state_of
       (fdroid_search_cb android uninit_null
          (inr (JsonDocument (Some (JsonArray [search_element_without_package "x.y.z"]))))
          installed_example_state).1 1
     = Some GS_APP_STATE_AVAILABLE.
Proof. vm_compute. repeat split; reflexivity. Qed.

Lemma search_invalid_icon_is_skipped_witness :
  let '(st', result) :=
    fdroid_search_cb android uninit_null
      (inr (JsonDocument (Some (JsonArray
         [search_element_example "x.y.z" "ftp://example.com/icon.png"]))))
      (gs_plugin_android_init []) in
  (exists l, result = TaskPointer l)
  /\ (exists app, objects st' !! 0 = Some app /\ app_icons app = [])
  /\ "App 'Example' has invalid icon URL: ftp://example.com/icon.png" ∈ debug st'.
Proof.
  apply (search_invalid_icon_is_skipped android uninit_null (gs_plugin_android_init [])
           [search_element_example "x.y.z" "ftp://example.com/icon.png"] 0
           (search_element_example "x.y.z" "ftp://example.com/icon.png")
           (search_package_example "ftp://example.com/icon.png")
           "ftp://example.com/icon.png").
  - reflexivity.
  - reflexivity.
  - reflexivity.
  - vm_compute. reflexivity.
  - vm_compute. reflexivity.
Defined.

(** ** Batches that are turned down *)

(** C1 at a batch of two.  Install and uninstall both answer with the
    not-supported error, and by then both applications have left the state
    they were in: the loop sets each target to Installing (Removing) before
    the targets are counted, and nothing sets them back. *)
Theorem batch_of_two_is_rejected_after_marking :
  (let '(st', outcome) :=
     gs_plugin_android_install_apps_async android [0; 1] install_flags_none
       (batch_example_state GS_APP_STATE_AVAILABLE) in
   outcome = Returned (not_supported "Can only install one app at a time")
   /\ state_of (batch_example_state GS_APP_STATE_AVAILABLE) 0 = Some GS_APP_STATE_AVAILABLE
   /\ state_of st' 0 = Some GS_APP_STATE_INSTALLING
   /\ state_of st' 1 = Some GS_APP_STATE_INSTALLING)
  /\ (let '(st', outcome) :=
        gs_plugin_android_uninstall_apps_async android [0; 1]
          (batch_example_state GS_APP_STATE_INSTALLED) in
      outcome = Returned (not_supported "Can only uninstall one app at a time")
      /\ state_of (batch_example_state GS_APP_STATE_INSTALLED) 0
         = Some GS_APP_STATE_INSTALLED
      /\ state_of st' 0 = Some GS_APP_STATE_REMOVING
      /\ state_of st' 1 = Some GS_APP_STATE_REMOVING).
Proof. vm_compute. repeat split; reflexivity. Qed.

(** ** Applications of other plugins *)

(** C3 on one application of another plugin.  Install and uninstall pass
    it over with a diagnostic and leave its state alone (the call then ends
    with the not-supported error, for want of a target).  Update has no
    such test: the application's package name goes into the
    [UpgradePackages] batch and the application is set to Installing. *)
Theorem foreign_app_in_a_batch :
  (let '(st', outcome) :=
     gs_plugin_android_install_apps_async android [0] install_flags_none
       (foreign_example_state GS_APP_STATE_AVAILABLE) in
   outcome = Returned (not_supported "Can only install one app at a time")
   /\ debug st' = ["App is not managed by us, not installing"]
   /\ state_of st' 0 = Some GS_APP_STATE_AVAILABLE)
  /\ (let '(st', outcome) :=
        gs_plugin_android_uninstall_apps_async android [0]
          (foreign_example_state GS_APP_STATE_INSTALLED) in
      outcome = Returned (not_supported "Can only uninstall one app at a time")
      /\ debug st'
         = ["Considering app system/package/*/org.foreign/* for uninstallation";
            "App system/package/*/org.foreign/* is not managed by us, not uninstalling"]
      /\ state_of st' 0 = Some GS_APP_STATE_INSTALLED)
  /\ (let '(st', outcome) :=
        gs_plugin_android_update_apps_async android [0] update_flags_none
          (foreign_example_state GS_APP_STATE_UPDATABLE) in
      outcome = Called "UpgradePackages" (ParametersStrv ["org.foreign"]) [0]
      /\ debug st' = ["Adding package to upgrade: org.foreign"]
      /\ state_of st' 0 = Some GS_APP_STATE_INSTALLING).
Proof. vm_compute. repeat split; reflexivity. Qed.

(** *** In general: what the install and uninstall loops do to an
    application of another plugin, and to a target *)

Lemma install_apps_loop_debug plugin list_ install_list st st' install_list' :
  install_apps_loop plugin list_ install_list st = (st', Some install_list') ->
  exists new, debug st' = debug st ++ new.
Proof.
  revert install_list st. induction list_ as [|r0 rest IH]; intros install_list st Hloop.
  - injection Hloop as <- <-. exists []. by rewrite app_nil_r.
  - simpl in Hloop. destruct (objects st !! r0) as [app|]; [|by apply (IH _ _ Hloop)].
    case_bool_decide; [done|].
    destruct (gs_app_has_management_plugin app plugin); simpl in Hloop;
      [destruct (gs_app_get_metadata_item app "android::package-name")|];
      destruct (IH _ _ Hloop) as [new ->]; simpl; rewrite <- app_assoc; by eexists.
Qed.

(** Install passes over an application it does not manage: the object is
    untouched, it is not among the targets, and the log says so. *)
Lemma install_apps_loop_skips_unowned plugin list_ install_list st st' install_list' r a :
  install_apps_loop plugin list_ install_list st = (st', Some install_list') ->
  objects st !! r = Some a ->
  gs_app_has_management_plugin a plugin = false ->
  objects st' !! r = Some a
  /\ (r ∈ install_list' -> r ∈ install_list)
  /\ (r ∈ list_ -> "App is not managed by us, not installing" ∈ debug st').
Proof.
  intros Hloop Ha Hunowned. revert install_list st Hloop Ha.
  induction list_ as [|r0 rest IH]; intros install_list st Hloop Ha.
  - injection Hloop as <- <-. split; [done|]. split; [done|].
    intros Hin. by apply elem_of_nil in Hin.
  - simpl in Hloop. destruct (objects st !! r0) as [app|] eqn:Happ.
    2:{ destruct (IH _ _ Hloop Ha) as (? & ? & Hlog). split; [done|]. split; [done|].
        intros Hin. apply elem_of_cons in Hin as [->|Hin]; [congruence|auto]. }
    case_bool_decide; [done|].
    destruct (gs_app_has_management_plugin app plugin) eqn:Hown; simpl in Hloop.
    + assert (r0 ≠ r) as Hne by congruence.
      assert (r ∈ r0 :: rest -> r ∈ rest) as Htail.
      { intros Hin. apply elem_of_cons in Hin as [->|Hin]; done. }
      destruct (gs_app_get_metadata_item app "android::package-name") as [p|].
      * destruct (IH _ _ Hloop) as (? & Hin' & Hlog).
        { by rewrite objects_update_app, list_lookup_alter_ne. }
        split; [done|]. split; [|auto].
        intros Hin. apply Hin' in Hin.
        apply gs_app_list_add_elem in Hin as [Hin|Hin]; [done|by subst].
      * destruct (IH _ _ Hloop Ha) as (? & ? & Hlog). auto.
    + destruct (IH _ _ Hloop Ha) as (? & ? & Hlog). split; [done|]. split; [done|].
      intros _. destruct (install_apps_loop_debug _ _ _ _ _ _ Hloop) as [new ->].
      simpl. rewrite !elem_of_app, list_elem_of_singleton. auto.
Qed.

(** Install sets every application it manages and that has a package name
    to Installing, before it looks at how many there are. *)
Lemma install_apps_loop_marks_targets plugin list_ install_list st st' install_list' r a p :
  install_apps_loop plugin list_ install_list st = (st', Some install_list') ->
  r ∈ list_ ->
  objects st !! r = Some a ->
  gs_app_has_management_plugin a plugin = true ->
  gs_app_get_metadata_item a "android::package-name" = Some p ->
  state_of st' r = Some GS_APP_STATE_INSTALLING.
Proof.
  intros Hloop Hin Ha Hown Hp. revert install_list st Hloop Ha.
  induction list_ as [|r0 rest IH]; intros install_list st Hloop Ha.
  - by apply elem_of_nil in Hin.
  - simpl in Hloop. destruct (decide (r = r0)) as [<-|Hne].
    + rewrite Ha in Hloop. case_bool_decide; [done|].
      rewrite Hown, Hp in Hloop. simpl in Hloop.
      destruct (install_apps_loop_objects _ _ _ _ _ _ r Hloop) as [Hobj _].
      rewrite objects_update_app, objects_g_debug, list_lookup_alter_eq, Ha in Hobj.
      unfold state_of. destruct Hobj as [->| ->]; simpl;
        by rewrite ?gs_app_set_state_state.
    + apply elem_of_cons in Hin as [?|Hin]; [done|].
      destruct (objects st !! r0) as [app|]; [|by apply (IH Hin _ _ Hloop)].
      case_bool_decide; [done|].
      destruct (gs_app_has_management_plugin app plugin); simpl in Hloop;
        [destruct (gs_app_get_metadata_item app "android::package-name")|];
        apply (IH Hin _ _ Hloop); try done.
      by rewrite objects_update_app, list_lookup_alter_ne.
Qed.

(** ** The refreshes on examples *)

(** Two installed refreshes with different replies: the cache holds the
    one application of the second reply. *)
Example installed_refresh_twice :
  let st1 := installed_example_state in
  let st2 := (fdroid_get_installed_apps_cb android
                (inr [<["packageName" := GVariantString "org.other"]>
                        (<["id" := GVariantString "org.other"]> ∅)]) st1).1 in
  installed_apps st1 = [0]
  /\ installed_apps st2 = [1]
  /\ metadata_item_of st2 1 "android::package-name" = Some "org.other".
Proof. vm_compute. repeat split; reflexivity. Qed.

(** An updatable entry without id is appended at every refresh. *)
Example updatable_refresh_without_id :
  updatable_apps
    (refresh_updatable android [<["packageName" := GVariantString "org.a"]> ∅] 3
       (gs_plugin_android_init []))
  = [0; 1; 2].
Proof. vm_compute. reflexivity. Qed.

(** The message of a remote error, before and after stripping. *)
Example strip_remote_error_example :
  error_message (g_dbus_error_strip_remote_error remote_error_example)
  = "Package not found".
Proof. reflexivity. Qed.

(** ** The other loops, in general *)

Lemma uninstall_apps_loop_debug plugin list_ uninstall_list st st' uninstall_list' :
  uninstall_apps_loop plugin list_ uninstall_list st = (st', Some uninstall_list') ->
  exists new, debug st' = debug st ++ new.
Proof.
  revert uninstall_list st.
  induction list_ as [|r0 rest IH]; intros uninstall_list st Hloop.
  - injection Hloop as <- <-. exists []. by rewrite app_nil_r.
  - simpl in Hloop. destruct (objects st !! r0) as [app|]; [|by apply (IH _ _ Hloop)].
    case_bool_decide; [done|].
    destruct (gs_app_has_management_plugin app plugin); simpl in Hloop;
      destruct (IH _ _ Hloop) as [new ->]; simpl; rewrite <- ?app_assoc; by eexists.
Qed.

(** Uninstall passes over an application it does not manage, with its two
    diagnostics. *)
Lemma uninstall_apps_loop_skips_unowned
    plugin list_ uninstall_list st st' uninstall_list' r a :
  uninstall_apps_loop plugin list_ uninstall_list st = (st', Some uninstall_list') ->
  objects st !! r = Some a ->
  gs_app_has_management_plugin a plugin = false ->
  objects st' !! r = Some a
  /\ (r ∈ uninstall_list' -> r ∈ uninstall_list)
  /\ (r ∈ list_ ->
      ("App " +:+ fmt (unique_id_to_string (gs_app_get_unique_id a))
       +:+ " is not managed by us, not uninstalling") ∈ debug st').
Proof.
  intros Hloop Ha Hunowned. revert uninstall_list st Hloop Ha.
  induction list_ as [|r0 rest IH]; intros uninstall_list st Hloop Ha.
  - injection Hloop as <- <-. split; [done|]. split; [done|].
    intros Hin. by apply elem_of_nil in Hin.
  - simpl in Hloop. destruct (objects st !! r0) as [app|] eqn:Happ.
    2:{ destruct (IH _ _ Hloop Ha) as (? & ? & Hlog). split; [done|]. split; [done|].
        intros Hin. apply elem_of_cons in Hin as [->|Hin]; [congruence|auto]. }
    case_bool_decide; [done|].
    destruct (gs_app_has_management_plugin app plugin) eqn:Hown; simpl in Hloop.
    + assert (r0 ≠ r) as Hne by congruence.
      destruct (IH _ _ Hloop) as (? & Hin' & Hlog).
      { by rewrite objects_update_app, list_lookup_alter_ne. }
      split; [done|]. split.
      * intros Hin. apply Hin' in Hin.
        apply gs_app_list_add_elem in Hin as [Hin|Hin]; [done|by subst].
      * intros Hin. apply elem_of_cons in Hin as [->|Hin]; [done|auto].
    + destruct (IH _ _ Hloop Ha) as (? & ? & Hlog). split; [done|]. split; [done|].
      intros Hin. apply elem_of_cons in Hin as [->|Hin]; [|auto].
      rewrite Ha in Happ. injection Happ as <-.
      destruct (uninstall_apps_loop_debug _ _ _ _ _ _ Hloop) as [new ->].
      simpl. rewrite !elem_of_app, !list_elem_of_singleton. auto.
Qed.

Lemma update_apps_loop_objects list_ builder st r :
  objects (update_apps_loop list_ builder st).1 !! r = objects st !! r
  \/ objects (update_apps_loop list_ builder st).1 !! r
     = gs_app_set_state GS_APP_STATE_INSTALLING <$> objects st !! r.
Proof.
  revert builder st. induction list_ as [|r0 rest IH]; intros builder st.
  - by left.
  - simpl. destruct (metadata_item_of st r0 "android::package-name") as [p|];
      [|apply IH].
    match goal with
    | |- context [update_apps_loop rest ?b ?s] => specialize (IH b s)
    end.
    rewrite objects_update_app, objects_g_debug in IH.
    destruct (decide (r0 = r)) as [->|Hne].
    + rewrite list_lookup_alter_eq in IH. right.
      destruct IH as [IH|IH]; rewrite IH; [done|].
      destruct (objects st !! r); [|done]. simpl. f_equal.
      apply gs_app_set_state_idempotent.
    + by rewrite list_lookup_alter_ne in IH.
Qed.

(** Update asks for no owner: every listed application with a package
    name is set to Installing (and, by [update_apps_loop_builder], is in
    the batch). *)
Lemma update_apps_loop_marks list_ builder st r p :
  r ∈ list_ ->
  metadata_item_of st r "android::package-name" = Some p ->
  state_of (update_apps_loop list_ builder st).1 r = Some GS_APP_STATE_INSTALLING.
Proof.
  intros Hin Hp. revert builder st Hp.
  induction list_ as [|r0 rest IH]; intros builder st Hp.
  - by apply elem_of_nil in Hin.
  - simpl. destruct (decide (r = r0)) as [<-|Hne].
    + rewrite Hp.
      match goal with
      | |- state_of (update_apps_loop rest ?b ?s).1 r = _ =>
          destruct (update_apps_loop_objects rest b s r) as [Hobj|Hobj]
      end; unfold state_of; rewrite Hobj, objects_update_app, list_lookup_alter_eq;
        unfold metadata_item_of in Hp; simpl;
        destruct (objects st !! r); try done; simpl;
        by rewrite ?gs_app_set_state_state.
    + apply elem_of_cons in Hin as [?|Hin]; [done|].
      destruct (metadata_item_of st r0 "android::package-name"); [|by apply IH].
      apply IH; [done|]. by rewrite metadata_item_of_set_state.
Qed.

(** * Further properties *)

(** ** Install and uninstall: how the call ends *)

Lemma gs_app_set_state_recover_transient s a :
  gs_app_state_is_transient s = true ->
  app_state a ≠ GS_APP_STATE_UNKNOWN ->
  app_state_recover a = app_state a ->
  app_state (gs_app_set_state_recover (gs_app_set_state s a)) = app_state a.
Proof.
  intros Hs Hknown Hrec.
  unfold gs_app_set_state_recover, gs_app_set_state.
  destruct a as [? ? ? ? s0 s' ? ? ? ? ? ? ? ? ?]. simpl in *. subst s'.
  by destruct s, s0.
Qed.

Lemma uninstall_apps_loop_objects plugin list_ uninstall_list st st' uninstall_list' r :
  uninstall_apps_loop plugin list_ uninstall_list st = (st', Some uninstall_list') ->
  (objects st' !! r = objects st !! r
   \/ objects st' !! r = gs_app_set_state GS_APP_STATE_REMOVING <$> objects st !! r)
  /\ (r ∈ uninstall_list' ->
      r ∈ uninstall_list
      \/ objects st' !! r = gs_app_set_state GS_APP_STATE_REMOVING <$> objects st !! r).
Proof.
  set (f := gs_app_set_state GS_APP_STATE_REMOVING).
  revert uninstall_list st.
  induction list_ as [|r0 rest IH]; intros uninstall_list st Hloop.
  - injection Hloop as <- <-. auto.
  - simpl in Hloop. destruct (objects st !! r0) as [app|] eqn:Happ; [|by apply IH].
    case_bool_decide; [done|].
    destruct (gs_app_has_management_plugin app plugin); simpl in Hloop;
      [|by apply (IH _ _ Hloop)].
    destruct (IH _ _ Hloop) as [Hobj Hin]. clear IH Hloop.
    rewrite objects_update_app, objects_g_debug in Hobj, Hin. fold f in Hobj, Hin.
    assert (f <$> (f <$> objects st !! r) = f <$> objects st !! r) as Hidem.
    { destruct (objects st !! r); [|done]. simpl. f_equal.
      apply gs_app_set_state_idempotent. }
    destruct (decide (r0 = r)) as [->|Hne].
    + rewrite list_lookup_alter_eq in Hobj, Hin.
      rewrite Hidem in Hobj, Hin. split; [tauto|]. intros Hr. right.
      destruct Hobj as [->| ->]; done.
    + rewrite list_lookup_alter_ne in Hobj, Hin by done. split; [done|].
      intros Hr. destruct (Hin Hr) as [Hr'|Hr']; [|by right].
      apply gs_app_list_add_elem in Hr' as [Hr'|Hr']; [by left|]. by subst.
Qed.

Lemma install_apps_loop_updates_changed plugin list_ install_list st :
  updates_changed (install_apps_loop plugin list_ install_list st).1 = updates_changed st.
Proof.
  revert install_list st. induction list_ as [|r0 rest IH]; intros install_list st;
    cbn [install_apps_loop]; [done|].
  destruct (objects st !! r0) as [app|]; [|apply IH].
  case_bool_decide; [done|].
  destruct (gs_app_has_management_plugin app plugin); cbn [negb];
    [destruct (gs_app_get_metadata_item app "android::package-name")|];
    by rewrite IH.
Qed.

Lemma uninstall_apps_loop_updates_changed plugin list_ uninstall_list st :
  updates_changed (uninstall_apps_loop plugin list_ uninstall_list st).1
  = updates_changed st.
Proof.
  revert uninstall_list st.
  induction list_ as [|r0 rest IH]; intros uninstall_list st;
    cbn [uninstall_apps_loop]; [done|].
  destruct (objects st !! r0) as [app|]; [|apply IH].
  case_bool_decide; [done|]. cbv zeta.
  destruct (gs_app_has_management_plugin app plugin); cbn [negb]; by rewrite IH.
Qed.

(** What the install loop puts on [install_list] carries a package name. *)
Lemma install_apps_loop_package_name plugin list_ install_list st st' install_list' r :
  install_apps_loop plugin list_ install_list st = (st', Some install_list') ->
  r ∈ install_list' ->
  r ∈ install_list \/ is_Some (metadata_item_of st r "android::package-name").
Proof.
  revert install_list st. induction list_ as [|r0 rest IH]; intros install_list st Hloop Hr.
  - injection Hloop as <- <-. auto.
  - cbn [install_apps_loop] in Hloop.
    destruct (objects st !! r0) as [app|] eqn:Happ; [|by apply (IH _ _ Hloop)].
    case_bool_decide; [done|].
    destruct (negb (gs_app_has_management_plugin app plugin)).
    { destruct (IH _ _ Hloop Hr) as [?|?]; auto. }
    destruct (gs_app_get_metadata_item app "android::package-name") as [p|] eqn:Hp.
    + destruct (IH _ _ Hloop Hr) as [Hin|Hsome].
      * apply gs_app_list_add_elem in Hin as [?| ->]; [auto|]. right.
        unfold metadata_item_of. rewrite Happ, Hp. by eexists.
      * right. by rewrite metadata_item_of_set_state in Hsome.
    + destruct (IH _ _ Hloop Hr) as [?|?]; auto.
Qed.

(** X1.  An uninstall call that reached the remote service, for an
    application in a state it was set to (not the initial unknown one):
    the method called is [UninstallApp], with the application's
    ["android::package-name"] (NULL when it has none), and the application
    is Removing meanwhile.  When the call fails, the task ends with the
    stripped remote error and the application is back in the state it had
    before the call.  When it succeeds, the task ends with TRUE, the
    application is Available, and updates-changed was emitted exactly once
    since the call began. *)
Theorem uninstall_outcomes
    (plugin : GsPlugin) (list_ : list nat) (st : State) (r : nat) (a : GsApp) (e : GError)
    (method : string) (parameters : DBusParameters) :
  (gs_plugin_android_uninstall_apps_async plugin list_ st).2
  = Called method parameters (Some r) ->
  objects st !! r = Some a ->
  app_state a ≠ GS_APP_STATE_UNKNOWN ->
  app_state_recover a = app_state a ->
  let st1 := (gs_plugin_android_uninstall_apps_async plugin list_ st).1 in
  method = "UninstallApp"
  /\ parameters = ParametersString (gs_app_get_metadata_item a "android::package-name")
  /\ state_of st1 r = Some GS_APP_STATE_REMOVING
  /\ (let '(st2, result) := fdroid_uninstall_app_cb (Some r) (inl e) st1 in
      result = TaskError (g_dbus_error_strip_remote_error e)
      /\ state_of st2 r = Some (app_state a)
      /\ updates_changed st2 = updates_changed st)
  /\ (let '(st2, result) := fdroid_uninstall_app_cb (Some r) (inr ()) st1 in
      result = TaskBoolean true
      /\ state_of st2 r = Some GS_APP_STATE_AVAILABLE
      /\ updates_changed st2 = S (updates_changed st)).
Proof.
  intros Hcall Ha Hknown Hrec. unfold gs_plugin_android_uninstall_apps_async in *.
  destruct (uninstall_apps_loop plugin list_ gs_app_list_new st)
    as [st1 [uninstall_list|]] eqn:Hloop; [|done].
  destruct (negb _) eqn:Hlen; [done|]. cbn [fst snd] in *.
  injection Hcall as Hmethod Hparameters Hidx.
  apply negb_false_iff, Nat.eqb_eq in Hlen.
  assert (r ∈ uninstall_list) as Hin by (by apply (list_elem_of_lookup_2 _ 0)).
  pose proof (uninstall_apps_loop_updates_changed plugin list_ gs_app_list_new st) as Huc.
  rewrite Hloop in Huc. cbn [fst] in Huc.
  destruct (uninstall_apps_loop_objects _ _ _ _ _ _ r Hloop) as [_ Hobj].
  destruct (Hobj Hin) as [Hnil|Hr]; [by apply elem_of_nil in Hnil|].
  rewrite Ha in Hr. cbn [fmap option_fmap option_map] in Hr.
  split; [done|]. split.
  { rewrite <- Hparameters, Hidx. unfold metadata_item_of, gs_app_get_metadata_item.
    by rewrite Hr, gs_app_set_state_metadata. }
  split.
  { unfold state_of. rewrite Hr. simpl. by rewrite gs_app_set_state_state. }
  simpl. split.
  - split; [done|]. split; [|done].
    unfold state_of. simpl. rewrite list_lookup_alter_eq, Hr. simpl.
    f_equal. by apply gs_app_set_state_recover_transient.
  - split; [done|]. split; [|by rewrite Huc].
    unfold state_of. simpl. rewrite list_lookup_alter_eq, Hr. simpl.
    by rewrite gs_app_set_state_state.
Qed.

Lemma uninstall_outcomes_witness :
  let call := gs_plugin_android_uninstall_apps_async android [0] installed_example_state in
  call.2 = Called "UninstallApp" (ParametersString (Some "x.y.z")) (Some 0)
  /\ state_of call.1 0 = Some GS_APP_STATE_REMOVING
  /\ (let '(st2, result) :=
        fdroid_uninstall_app_cb (Some 0) (inl remote_error_example) call.1 in
      result = TaskError (g_dbus_error_strip_remote_error remote_error_example)
      /\ state_of st2 0 = Some GS_APP_STATE_INSTALLED
      /\ updates_changed st2 = updates_changed installed_example_state)
  /\ (let '(st2, result) := fdroid_uninstall_app_cb (Some 0) (inr ()) call.1 in
      result = TaskBoolean true
      /\ state_of st2 0 = Some GS_APP_STATE_AVAILABLE
      /\ updates_changed st2 = S (updates_changed installed_example_state)).
Proof.
  assert ((gs_plugin_android_uninstall_apps_async android [0] installed_example_state).2
          = Called "UninstallApp" (ParametersString (Some "x.y.z")) (Some 0)) as Hcall.
  { vm_compute. reflexivity. }
  cbv zeta. split; [exact Hcall|].
  apply (uninstall_outcomes android [0] installed_example_state 0
           (installed_app_of_child android installed_child_example "x.y.z")
           remote_error_example "UninstallApp" (ParametersString (Some "x.y.z"))).
  - exact Hcall.
  - vm_compute. reflexivity.
  - vm_compute. discriminate.
  - vm_compute. reflexivity.
Defined.

(** X2.  An install call that reached the remote service: the method
    called is [Install], with the application's ["android::package-name"],
    which it has, and the application is Installing meanwhile.  When the
    call succeeds, the task ends with TRUE, the application is Installed,
    updates-changed was emitted exactly once since the call began, and the
    continuation has touched no other object. *)
Theorem install_success
    (plugin : GsPlugin) (list_ : list nat) (flags : GsPluginInstallAppsFlags)
    (st : State) (r : nat) (a : GsApp)
    (method : string) (parameters : DBusParameters) :
  (gs_plugin_android_install_apps_async plugin list_ flags st).2
  = Called method parameters [r] ->
  objects st !! r = Some a ->
  let st1 := (gs_plugin_android_install_apps_async plugin list_ flags st).1 in
  method = "Install"
  /\ parameters = ParametersString (gs_app_get_metadata_item a "android::package-name")
  /\ is_Some (gs_app_get_metadata_item a "android::package-name")
  /\ state_of st1 r = Some GS_APP_STATE_INSTALLING
  /\ (let '(st2, result) := fdroid_install_app_cb (Some [r]) (inr ()) st1 in
      result = TaskBoolean true
      /\ state_of st2 r = Some GS_APP_STATE_INSTALLED
      /\ updates_changed st2 = S (updates_changed st)
      /\ (forall r', r' ≠ r -> objects st2 !! r' = objects st1 !! r')).
Proof.
  intros Hcall Ha. unfold gs_plugin_android_install_apps_async in *.
  destruct (install_no_download flags || install_no_apply flags); [done|].
  destruct (install_apps_loop plugin list_ gs_app_list_new st)
    as [st1 [install_list|]] eqn:Hloop; [|done].
  destruct (negb _); [done|]. cbn [fst snd] in *.
  injection Hcall as Hmethod Hparameters ->.
  pose proof (install_apps_loop_updates_changed plugin list_ gs_app_list_new st) as Huc.
  rewrite Hloop in Huc. cbn [fst] in Huc.
  assert (r ∈ [r]) as Hin by (by apply list_elem_of_singleton).
  destruct (install_apps_loop_objects _ _ _ _ _ _ r Hloop) as [_ Hobj].
  destruct (Hobj Hin) as [Hnil|Hr]; [by apply elem_of_nil in Hnil|].
  rewrite Ha in Hr. cbn [fmap option_fmap option_map] in Hr.
  destruct (install_apps_loop_package_name _ _ _ _ _ _ r Hloop Hin) as [Hnil|Hsome];
    [by apply elem_of_nil in Hnil|].
  unfold metadata_item_of in Hsome. rewrite Ha in Hsome.
  split; [done|]. split.
  { rewrite <- Hparameters. change (gs_app_list_index [r] 0) with (Some r). cbv beta iota.
    unfold metadata_item_of, gs_app_get_metadata_item.
    by rewrite Hr, gs_app_set_state_metadata. }
  split; [done|]. split.
  { unfold state_of. rewrite Hr. simpl. by rewrite gs_app_set_state_state. }
  simpl. split; [done|]. split; [|split; [by rewrite Huc|]].
  - unfold state_of. simpl. rewrite list_lookup_alter_eq, Hr. simpl.
    by rewrite gs_app_set_state_state.
  - intros r' Hne. by rewrite list_lookup_alter_ne.
Qed.

Lemma install_success_witness :
  let call := gs_plugin_android_install_apps_async android [0] install_flags_none
                install_example_state in
  call.2 = Called "Install" (ParametersString (Some "org.a")) [0]
  /\ state_of call.1 0 = Some GS_APP_STATE_INSTALLING
  /\ (let '(st2, result) := fdroid_install_app_cb (Some [0]) (inr ()) call.1 in
      result = TaskBoolean true
      /\ state_of st2 0 = Some GS_APP_STATE_INSTALLED
      /\ updates_changed st2 = S (updates_changed install_example_state)
      /\ (forall r', r' ≠ 0 -> objects st2 !! r' = objects call.1 !! r')).
Proof.
  assert ((gs_plugin_android_install_apps_async android [0] install_flags_none
             install_example_state).2
          = Called "Install" (ParametersString (Some "org.a")) [0]) as Hcall.
  { vm_compute. reflexivity. }
  cbv zeta. split; [exact Hcall|].
  apply (install_success android [0] install_flags_none install_example_state 0
           (example_app "org.a" (Some android) (Some "org.a") GS_APP_STATE_AVAILABLE)
           "Install" (ParametersString (Some "org.a"))).
  - exact Hcall.
  - reflexivity.
Defined.

(** ** Update: failure *)

(** X3.  An update batch that was sent and then fails, by a remote error
    or by a reply of FALSE: the continuation changes nothing, so every
    listed application with a package name stays Installing, the state the
    entry point put it in; the task ends with the stripped remote error, or
    with the plugin's own failed error. *)
Theorem update_failure_keeps_installing
    (plugin : GsPlugin) (list_ : list nat) (flags : GsPluginUpdateAppsFlags)
    (st : State) (r : nat) (p : string) (e : GError) :
  update_no_apply flags = false ->
  r ∈ list_ ->
  metadata_item_of st r "android::package-name" = Some p ->
  let st1 := (gs_plugin_android_update_apps_async plugin list_ flags st).1 in
  state_of st1 r = Some GS_APP_STATE_INSTALLING
  /\ fdroid_upgrade_packages_cb list_ (inl e) st1
     = (st1, TaskError (g_dbus_error_strip_remote_error e))
  /\ fdroid_upgrade_packages_cb list_ (inr false) st1
     = (st1, TaskError (g_error_new G_IO_ERROR G_IO_ERROR_FAILED
                          "Failed to upgrade packages")).
Proof.
  intros Hflags Hin Hp. unfold gs_plugin_android_update_apps_async. rewrite Hflags.
  pose proof (update_apps_loop_marks list_ [] st r p Hin Hp) as Hmark.
  destruct (update_apps_loop list_ [] st) as [st1 builder]. simpl in *.
  by split.
Qed.

Lemma update_failure_keeps_installing_witness :
  let st1 := (gs_plugin_android_update_apps_async android [0; 1] update_flags_none
                update_example_state).1 in
  state_of st1 0 = Some GS_APP_STATE_INSTALLING
  /\ fdroid_upgrade_packages_cb [0; 1] (inl remote_error_example) st1
     = (st1, TaskError (g_dbus_error_strip_remote_error remote_error_example))
  /\ fdroid_upgrade_packages_cb [0; 1] (inr false) st1
     = (st1, TaskError (g_error_new G_IO_ERROR G_IO_ERROR_FAILED
                          "Failed to upgrade packages")).
Proof.
  apply (update_failure_keeps_installing android [0; 1] update_flags_none
           update_example_state 0 "org.a" remote_error_example).
  - reflexivity.
  - apply (list_elem_of_lookup_2 _ 0). reflexivity.
  - vm_compute. reflexivity.
Defined.

(** ** Install and uninstall: lists they do not take *)

Lemma kind_set_state s a : app_kind (gs_app_set_state s a) = app_kind a.
Proof. gs_app_setter. Qed.

Lemma install_apps_loop_repository plugin list_ install_list st r a :
  r ∈ list_ ->
  objects st !! r = Some a ->
  app_kind a = AS_COMPONENT_KIND_REPOSITORY ->
  (install_apps_loop plugin list_ install_list st).2 = None.
Proof.
  intros Hin Ha Hkind. revert install_list st Ha.
  induction list_ as [|r0 rest IH]; intros install_list st Ha.
  - by apply elem_of_nil in Hin.
  - cbn [install_apps_loop]. destruct (decide (r = r0)) as [<-|Hne].
    + rewrite Ha. unfold gs_app_get_kind. by rewrite Hkind, bool_decide_eq_true_2.
    + apply elem_of_cons in Hin as [?|Hin]; [done|].
      destruct (objects st !! r0) as [app|]; [|by apply IH].
      case_bool_decide; [done|].
      destruct (gs_app_has_management_plugin app plugin); simpl;
        [destruct (gs_app_get_metadata_item app "android::package-name")|];
        apply IH; try done.
      by rewrite objects_update_app, list_lookup_alter_ne.
Qed.

Lemma uninstall_apps_loop_repository plugin list_ uninstall_list st r a :
  r ∈ list_ ->
  objects st !! r = Some a ->
  app_kind a = AS_COMPONENT_KIND_REPOSITORY ->
  (uninstall_apps_loop plugin list_ uninstall_list st).2 = None.
Proof.
  intros Hin Ha Hkind. revert uninstall_list st Ha.
  induction list_ as [|r0 rest IH]; intros uninstall_list st Ha.
  - by apply elem_of_nil in Hin.
  - cbn [uninstall_apps_loop]. destruct (decide (r = r0)) as [<-|Hne].
    + rewrite Ha. unfold gs_app_get_kind. by rewrite Hkind, bool_decide_eq_true_2.
    + apply elem_of_cons in Hin as [?|Hin]; [done|].
      destruct (objects st !! r0) as [app|]; [|by apply IH].
      case_bool_decide; [done|].
      destruct (gs_app_has_management_plugin app plugin); simpl; apply IH; try done.
      by rewrite objects_update_app, list_lookup_alter_ne.
Qed.

(** X4.  A repository anywhere in the list makes install (with flags it
    supports) and uninstall die in their assertion: no task result, no
    D-Bus call, wherever the repository stands and whatever else is
    listed.  (What the loop did on the applications listed before the
    repository is done by then.) *)
Theorem repository_in_list_aborts
    (plugin : GsPlugin) (list_ : list nat) (flags : GsPluginInstallAppsFlags)
    (st : State) (r : nat) (a : GsApp) :
  r ∈ list_ ->
  objects st !! r = Some a ->
  app_kind a = AS_COMPONENT_KIND_REPOSITORY ->
  install_no_download flags || install_no_apply flags = false ->
  (gs_plugin_android_install_apps_async plugin list_ flags st).2 = Aborted
  /\ (gs_plugin_android_uninstall_apps_async plugin list_ st).2 = Aborted.
Proof.
  intros Hin Ha Hkind Hflags.
  unfold gs_plugin_android_install_apps_async, gs_plugin_android_uninstall_apps_async.
  rewrite Hflags.
  pose proof (install_apps_loop_repository plugin list_ gs_app_list_new st r a
                Hin Ha Hkind) as Hi.
  pose proof (uninstall_apps_loop_repository plugin list_ gs_app_list_new st r a
                Hin Ha Hkind) as Hu.
  destruct (install_apps_loop _ _ _ _) as [sti [li|]]; [done|].
  destruct (uninstall_apps_loop _ _ _ _) as [stu [lu|]]; [done|]. done.
Qed.

(** An install loop in which no application qualifies: the store and the
    list of targets come out as they went in. *)
Lemma install_apps_loop_no_target plugin list_ install_list st :
  (forall r a, r ∈ list_ -> objects st !! r = Some a ->
     app_kind a ≠ AS_COMPONENT_KIND_REPOSITORY
     /\ (gs_app_has_management_plugin a plugin = false
         \/ gs_app_get_metadata_item a "android::package-name" = None)) ->
  exists st',
    install_apps_loop plugin list_ install_list st = (st', Some install_list)
    /\ objects st' = objects st
    /\ installed_apps st' = installed_apps st
    /\ updatable_apps st' = updatable_apps st.
Proof.
  revert st. induction list_ as [|r0 rest IH]; intros st Hnone.
  - by exists st.
  - simpl. assert (forall st0, objects st0 = objects st ->
                     forall r a, r ∈ rest -> objects st0 !! r = Some a ->
                       app_kind a ≠ AS_COMPONENT_KIND_REPOSITORY
                       /\ (gs_app_has_management_plugin a plugin = false
                           \/ gs_app_get_metadata_item a "android::package-name" = None))
      as Hrest.
    { intros st0 Heq r a Hr Hobj. rewrite Heq in Hobj.
      apply (Hnone r a); [apply elem_of_cons; by right|done]. }
    destruct (objects st !! r0) as [app|] eqn:Happ; [|by apply IH, (Hrest st)].
    destruct (Hnone r0 app) as [Hkind Hskip]; [apply elem_of_cons; by left|done|].
    unfold gs_app_get_kind. rewrite bool_decide_eq_false_2 by done.
    destruct (gs_app_has_management_plugin app plugin) eqn:Hown; simpl.
    + destruct Hskip as [?|Hp]; [done|]. rewrite Hp.
      destruct (IH (g_debug "No package name found for app, skipping installation" st))
        as (st' & -> & ? & ? & ?); [by apply Hrest|]. by exists st'.
    + destruct (IH (g_debug "App is not managed by us, not installing" st))
        as (st' & -> & ? & ? & ?); [by apply Hrest|]. by exists st'.
Qed.

(** X5.  An install request in which no listed application is both
    managed by the plugin and named by an ["android::package-name"] (and
    none is a repository) ends with the not-supported error and has changed
    nothing but the log: the store and both caches are as before. *)
Theorem install_without_target
    (plugin : GsPlugin) (list_ : list nat) (flags : GsPluginInstallAppsFlags) (st : State) :
  (forall r a, r ∈ list_ -> objects st !! r = Some a ->
     app_kind a ≠ AS_COMPONENT_KIND_REPOSITORY
     /\ (gs_app_has_management_plugin a plugin = false
         \/ gs_app_get_metadata_item a "android::package-name" = None)) ->
  let '(st', outcome) := gs_plugin_android_install_apps_async plugin list_ flags st in
  (exists msg, outcome = Returned (not_supported msg))
  /\ objects st' = objects st
  /\ installed_apps st' = installed_apps st
  /\ updatable_apps st' = updatable_apps st.
Proof.
  intros Hnone. unfold gs_plugin_android_install_apps_async.
  destruct (install_no_download flags || install_no_apply flags).
  { split; [by eexists|done]. }
  destruct (install_apps_loop_no_target plugin list_ gs_app_list_new st Hnone)
    as (st' & -> & ? & ? & ?).
  simpl. split; [by eexists|done].
Qed.

Lemma repository_in_list_aborts_witness :
  (gs_plugin_android_install_apps_async android [0; 1] install_flags_none
     repository_example_state).2 = Aborted
  /\ (gs_plugin_android_uninstall_apps_async android [0; 1] repository_example_state).2
     = Aborted.
Proof.
  apply (repository_in_list_aborts android [0; 1] install_flags_none
           repository_example_state 1
           (fdroid_repository_app android "F-Droid" "https://f-droid.org/repo")).
  - apply (list_elem_of_lookup_2 _ 1). reflexivity.
  - reflexivity.
  - reflexivity.
  - reflexivity.
Defined.

(** When the assertion fails on the repository, the application listed
    before it has been considered and marked already. *)
Example repository_in_list_aborts_late :
  let st' := (gs_plugin_android_install_apps_async android [0; 1] install_flags_none
                repository_example_state).1 in
  state_of st' 0 = Some GS_APP_STATE_INSTALLING
  /\ debug st' = ["Considering app org.a for installation"]
  /\ state_of (gs_plugin_android_uninstall_apps_async android [0; 1]
                 repository_example_state).1 0
     = Some GS_APP_STATE_REMOVING.
Proof. vm_compute. repeat split; reflexivity. Qed.

Lemma install_without_target_witness :
  let '(st', outcome) :=
    gs_plugin_android_install_apps_async android [0] install_flags_none
      (foreign_example_state GS_APP_STATE_AVAILABLE) in
  (exists msg, outcome = Returned (not_supported msg))
  /\ objects st' = objects (foreign_example_state GS_APP_STATE_AVAILABLE)
  /\ installed_apps st' = installed_apps (foreign_example_state GS_APP_STATE_AVAILABLE)
  /\ updatable_apps st' = updatable_apps (foreign_example_state GS_APP_STATE_AVAILABLE).
Proof.
  apply (install_without_target android [0] install_flags_none
           (foreign_example_state GS_APP_STATE_AVAILABLE)).
  intros r a Hr Ha. apply list_elem_of_singleton in Hr. subst r.
  injection Ha as <-. split; [vm_compute; discriminate|]. left. vm_compute. reflexivity.
Defined.

(** ** Listing: which queries reach the service *)

(** X6.  The listing entry point issues a D-Bus call exactly for a query
    that has one property set in all and that property is is-source,
    is-installed or is-for-update with value true, or the keywords; the
    method called then follows the property: GetRepositories,
    GetInstalledApps, GetUpgradable, or Search with the keywords joined by
    single spaces. *)
Theorem list_apps_call_iff (query : option GsAppQuery) (st : State) :
  ((exists method parameters,
       (gs_plugin_android_list_apps_async query st).2 = Called method parameters ())
   <-> exists q,
         query = Some q
         /\ gs_app_query_get_n_properties_set query = 1
         /\ (query_is_source q = GS_APP_QUERY_TRISTATE_TRUE
             \/ query_is_installed q = GS_APP_QUERY_TRISTATE_TRUE
             \/ query_is_for_update q = GS_APP_QUERY_TRISTATE_TRUE
             \/ is_Some (query_keywords q)))
  /\ (forall q,
        query = Some q ->
        gs_app_query_get_n_properties_set query = 1 ->
        (query_is_source q = GS_APP_QUERY_TRISTATE_TRUE ->
         (gs_plugin_android_list_apps_async query st).2
         = Called "GetRepositories" ParametersNone ())
        /\ (query_is_installed q = GS_APP_QUERY_TRISTATE_TRUE ->
            (gs_plugin_android_list_apps_async query st).2
            = Called "GetInstalledApps" ParametersNone ())
        /\ (query_is_for_update q = GS_APP_QUERY_TRISTATE_TRUE ->
            (gs_plugin_android_list_apps_async query st).2
            = Called "GetUpgradable" ParametersNone ())
        /\ (forall keywords,
              query_keywords q = Some keywords ->
              (gs_plugin_android_list_apps_async query st).2
              = Called "Search" (ParametersString (Some (g_strjoinv " " keywords))) ())).
Proof.
  destruct query as [q|].
  2:{ split; [|by intros q Hq]. split.
      - intros (m & p & H). done.
      - intros (q & Hq & _). done. }
  assert (forall t, t ≠ GS_APP_QUERY_TRISTATE_UNSET -> tristate_is_set t = 1) as Hset.
  { intros t Ht. unfold tristate_is_set. by rewrite bool_decide_eq_false_2. }
  assert (forall t, tristate_is_set t = 0 -> t = GS_APP_QUERY_TRISTATE_UNSET) as Hunset.
  { intros t. unfold tristate_is_set. by case_bool_decide. }
  assert (gs_app_query_get_n_properties_set (Some q) = 1 ->
          (query_is_source q = GS_APP_QUERY_TRISTATE_TRUE ->
           query_is_installed q = GS_APP_QUERY_TRISTATE_UNSET
           /\ query_is_for_update q = GS_APP_QUERY_TRISTATE_UNSET)
          /\ (query_is_installed q = GS_APP_QUERY_TRISTATE_TRUE ->
              query_is_source q = GS_APP_QUERY_TRISTATE_UNSET
              /\ query_is_for_update q = GS_APP_QUERY_TRISTATE_UNSET)
          /\ (query_is_for_update q = GS_APP_QUERY_TRISTATE_TRUE ->
              query_is_source q = GS_APP_QUERY_TRISTATE_UNSET
              /\ query_is_installed q = GS_APP_QUERY_TRISTATE_UNSET)
          /\ (is_Some (query_keywords q) ->
              query_is_source q = GS_APP_QUERY_TRISTATE_UNSET
              /\ query_is_installed q = GS_APP_QUERY_TRISTATE_UNSET
              /\ query_is_for_update q = GS_APP_QUERY_TRISTATE_UNSET)) as Hone.
  { cbn [gs_app_query_get_n_properties_set]. intros Hn.
    split; [|split; [|split]].
    - intros Hs. rewrite (Hset (query_is_source q)) in Hn by (by rewrite Hs).
      split; apply Hunset; lia.
    - intros Hs. rewrite (Hset (query_is_installed q)) in Hn by (by rewrite Hs).
      split; apply Hunset; lia.
    - intros Hs. rewrite (Hset (query_is_for_update q)) in Hn by (by rewrite Hs).
      split; apply Hunset; lia.
    - intros [kw Hkw]. rewrite Hkw in Hn. repeat split; apply Hunset; lia. }
  assert (forall keywords,
            gs_app_query_get_n_properties_set (Some q) = 1 ->
            (query_is_source q = GS_APP_QUERY_TRISTATE_TRUE ->
             (gs_plugin_android_list_apps_async (Some q) st).2
             = Called "GetRepositories" ParametersNone ())
            /\ (query_is_installed q = GS_APP_QUERY_TRISTATE_TRUE ->
                (gs_plugin_android_list_apps_async (Some q) st).2
                = Called "GetInstalledApps" ParametersNone ())
            /\ (query_is_for_update q = GS_APP_QUERY_TRISTATE_TRUE ->
                (gs_plugin_android_list_apps_async (Some q) st).2
                = Called "GetUpgradable" ParametersNone ())
            /\ (query_keywords q = Some keywords ->
                (gs_plugin_android_list_apps_async (Some q) st).2
                = Called "Search" (ParametersString (Some (g_strjoinv " " keywords))) ()))
    as Hcalls.
  { intros keywords Hn. destruct (Hone Hn) as (H1 & H2 & H3 & H4).
    unfold gs_plugin_android_list_apps_async. rewrite Hn.
    cbn [from_option Nat.eqb negb orb mbind option_bind].
    split; [|split; [|split]].
    - intros Hs. destruct (H1 Hs) as [-> ->]. by rewrite Hs.
    - intros Hs. destruct (H2 Hs) as [-> ->]. by rewrite Hs.
    - intros Hs. destruct (H3 Hs) as [-> ->]. by rewrite Hs.
    - intros Hs. destruct H4 as (-> & -> & ->); [by rewrite Hs|]. by rewrite Hs. }
  split.
  - split.
    + intros (m & p & H). exists q. split; [done|].
      unfold gs_plugin_android_list_apps_async in H.
      destruct (Nat.eqb_spec (gs_app_query_get_n_properties_set (Some q)) 1) as [Hn|Hn];
        [|done].
      split; [done|]. cbn [from_option negb orb mbind option_bind] in H.
      repeat case_bool_decide; try done; auto.
      destruct (query_keywords q); [|done]. right. right. right. by eexists.
    + intros (q' & Hq & Hn & Hdim). injection Hq as <-.
      destruct (Hcalls [] Hn) as (C1 & C2 & C3 & _).
      destruct Hdim as [H|[H|[H|[kw H]]]].
      * rewrite (C1 H). by eexists _, _.
      * rewrite (C2 H). by eexists _, _.
      * rewrite (C3 H). by eexists _, _.
      * destruct (Hcalls kw Hn) as (_ & _ & _ & C4). rewrite (C4 H). by eexists _, _.
  - intros q' Hq Hn. injection Hq as <-.
    destruct (Hcalls [] Hn) as (C1 & C2 & C3 & _).
    split; [done|]. split; [done|]. split; [done|].
    intros keywords Hkw. destruct (Hcalls keywords Hn) as (_ & _ & _ & C4).
    by apply C4.
Qed.

(** ** What the listings make, and what the operations then do with it *)

(** The fields of a made application that the operations look at. *)
Lemma fdroid_installed_app_fields self package_name name id :
  let app := fdroid_installed_app self package_name name id in
  app_kind app = AS_COMPONENT_KIND_DESKTOP_APP
  /\ app_management_plugin app = Some self
  /\ gs_app_get_metadata_item app "android::package-name" = Some package_name
  /\ app_state app = GS_APP_STATE_INSTALLED
  /\ app_state_recover app = GS_APP_STATE_INSTALLED.
Proof.
  destruct name as [[|c n]|], id as [id|]; vm_compute; repeat split; reflexivity.
Qed.

Lemma fdroid_upgradable_app_fields self package_name name id repo cur avail :
  let app := fdroid_upgradable_app self package_name name id repo cur avail in
  app_kind app = AS_COMPONENT_KIND_DESKTOP_APP
  /\ app_management_plugin app = Some self
  /\ gs_app_get_metadata_item app "android::package-name" = id
  /\ app_state app = GS_APP_STATE_UPDATABLE
  /\ app_text app TEXT_VERSION = cur
  /\ app_text app TEXT_UPDATE_VERSION = avail.
Proof.
  destruct name as [[|c n]|], id as [id|], repo as [repo|], cur as [cur|],
    avail as [avail|]; vm_compute; repeat split; reflexivity.
Qed.

Lemma fdroid_repository_app_fields self repo_name repo_url :
  let app := fdroid_repository_app self repo_name repo_url in
  app_id app = Some repo_name
  /\ app_kind app = AS_COMPONENT_KIND_REPOSITORY
  /\ app_management_plugin app = Some self
  /\ gs_app_get_metadata_item app "fdroid::repo-url" = Some repo_url
  /\ app_text app TEXT_URL_HOMEPAGE = Some repo_url
  /\ app_quirks app = [GS_APP_QUIRK_NOT_LAUNCHABLE]
  /\ app_state app = GS_APP_STATE_INSTALLED
  /\ app_state_recover app = GS_APP_STATE_INSTALLED.
Proof. vm_compute. repeat split; reflexivity. Qed.

(** The display name: the reported name when there is a non-empty one,
    otherwise the package name, marked as of lowest quality. *)
Lemma field_map_app_name self package_name name id repo cur avail :
  let shown := match name with
               | Some (String _ _) => (name, GS_APP_QUALITY_NORMAL)
               | _ => (Some package_name, GS_APP_QUALITY_LOWEST)
               end in
  (let app := fdroid_installed_app self package_name name id in
   (gs_app_get_name app, app_name_quality app) = shown)
  /\ (let app := fdroid_upgradable_app self package_name name id repo cur avail in
      (gs_app_get_name app, app_name_quality app) = shown).
Proof.
  destruct name as [[|c n]|], id as [id|], repo as [repo|], cur as [cur|],
    avail as [avail|]; vm_compute; split; reflexivity.
Qed.

Lemma fdroid_search_element_fields self st element uninit :
  let app := (fdroid_search_element self st element uninit).1 in
  let id := json_object_get_string_member (json_node_get_object element) "id" in
  app_id app = id
  /\ app_kind app = AS_COMPONENT_KIND_DESKTOP_APP
  /\ app_management_plugin app = Some self
  /\ gs_app_get_metadata_item app "android::package-name" = id.
Proof.
  unfold fdroid_search_element.
  generalize (json_object_get_string_member (json_node_get_object element) "id") as id.
  generalize (json_object_get_string_member (json_node_get_object element) "name").
  generalize (json_object_get_string_member (json_node_get_object element) "summary").
  generalize (json_object_get_string_member (json_node_get_object element) "description").
  generalize (json_object_get_string_member (json_node_get_object element) "license").
  generalize (json_object_get_string_member (json_node_get_object element) "author").
  generalize (json_object_get_string_member (json_node_get_object element) "web_url").
  generalize (json_object_get_string_member (json_node_get_object element) "repository").
  intros repository web_url author license description summary name id.
  destruct (json_object_get_object_member (json_node_get_object element) "package")
    as [package|].
  - generalize (json_object_get_string_member (Some package) "version").
    generalize (json_object_get_string_member (Some package) "icon_url").
    intros icon_url version.
    destruct icon_url as [icon_url|];
      [destruct (negb (g_str_has_prefix icon_url "http://")
                 && negb (g_str_has_prefix icon_url "https://"))|];
      destruct (search_is_installed st id), id as [id|], repository as [repository|];
      vm_compute; repeat split; reflexivity.
  - destruct uninit as [version [icon_url|]]; cbn [fst snd];
      [destruct (negb (g_str_has_prefix icon_url "http://")
                 && negb (g_str_has_prefix icon_url "https://"))|];
      destruct id as [id|], repository as [repository|];
      vm_compute; repeat split; reflexivity.
Qed.

Lemma gs_app_has_management_plugin_owner a plugin :
  app_management_plugin a = Some plugin -> gs_app_has_management_plugin a plugin = true.
Proof. intros H. unfold gs_app_has_management_plugin. by rewrite H, bool_decide_eq_true_2. Qed.

Lemma gs_app_list_add_new objs r : gs_app_list_add objs gs_app_list_new r = [r].
Proof.
  unfold gs_app_list_add, gs_app_list_check_for_duplicate, gs_app_list_new.
  rewrite bool_decide_eq_false_2 by apply not_elem_of_nil.
  by destruct (objs !! r ≫= gs_app_get_unique_id).
Qed.

(** Install, uninstall and update of one application that qualifies. *)
Lemma install_one plugin flags st r a p :
  install_no_download flags || install_no_apply flags = false ->
  objects st !! r = Some a ->
  app_kind a ≠ AS_COMPONENT_KIND_REPOSITORY ->
  app_management_plugin a = Some plugin ->
  gs_app_get_metadata_item a "android::package-name" = Some p ->
  let '(st', outcome) := gs_plugin_android_install_apps_async plugin [r] flags st in
  outcome = Called "Install" (ParametersString (Some p)) [r]
  /\ objects st' = alter (gs_app_set_state GS_APP_STATE_INSTALLING) r (objects st)
  /\ installed_apps st' = installed_apps st
  /\ updatable_apps st' = updatable_apps st.
Proof.
  intros Hflags Ha Hkind Hown Hp. unfold gs_plugin_android_install_apps_async.
  rewrite Hflags. cbn [install_apps_loop]. rewrite Ha.
  unfold gs_app_get_kind. rewrite bool_decide_eq_false_2 by done.
  rewrite (gs_app_has_management_plugin_owner _ _ Hown), Hp. cbn [negb].
  rewrite gs_app_list_add_new. cbn [gs_app_list_length length Nat.eqb negb].
  change (gs_app_list_index [r] 0) with (Some r). cbv beta iota.
  rewrite metadata_item_of_set_state. unfold metadata_item_of.
  rewrite objects_g_debug, Ha, Hp. done.
Qed.

Lemma uninstall_one plugin st r a :
  objects st !! r = Some a ->
  app_kind a ≠ AS_COMPONENT_KIND_REPOSITORY ->
  app_management_plugin a = Some plugin ->
  let '(st', outcome) := gs_plugin_android_uninstall_apps_async plugin [r] st in
  outcome = Called "UninstallApp"
              (ParametersString (gs_app_get_metadata_item a "android::package-name"))
              (Some r)
  /\ objects st' = alter (gs_app_set_state GS_APP_STATE_REMOVING) r (objects st)
  /\ installed_apps st' = installed_apps st
  /\ updatable_apps st' = updatable_apps st.
Proof.
  intros Ha Hkind Hown. unfold gs_plugin_android_uninstall_apps_async.
  cbn [uninstall_apps_loop]. rewrite Ha.
  unfold gs_app_get_kind. rewrite bool_decide_eq_false_2 by done.
  rewrite (gs_app_has_management_plugin_owner _ _ Hown). cbn [negb].
  rewrite gs_app_list_add_new. cbn [gs_app_list_length length Nat.eqb negb].
  change (gs_app_list_index [r] 0) with (Some r). cbv beta iota.
  rewrite metadata_item_of_set_state. unfold metadata_item_of.
  rewrite !objects_g_debug, Ha. done.
Qed.

(** X7.  What search returns can be installed: for an element with an id,
    an install request for the application made from it (supported flags)
    calls [Install] with that id and leaves the application Installing. *)
Theorem search_result_installs
    (self : GsPlugin) (uninit : nat -> option string * option string) (st : State)
    (elements : list JsonNode) (k : nat) (element : JsonNode) (id : string)
    (flags : GsPluginInstallAppsFlags) :
  elements !! k = Some element ->
  json_object_get_string_member (json_node_get_object element) "id" = Some id ->
  install_no_download flags || install_no_apply flags = false ->
  let st1 := (fdroid_search_cb self uninit
                (inr (JsonDocument (Some (JsonArray elements)))) st).1 in
  let r := length (objects st) + k in
  let '(st2, outcome) := gs_plugin_android_install_apps_async self [r] flags st1 in
  outcome = Called "Install" (ParametersString (Some id)) [r]
  /\ state_of st2 r = Some GS_APP_STATE_INSTALLING.
Proof.
  intros Hk Hid Hflags st1 r. subst st1. rewrite fdroid_search_cb_loop. cbn zeta. cbn [fst].
  destruct (fdroid_search_loop_nth self uninit elements 0 st gs_app_list_new k element Hk)
    as (st_k & new & _ & _ & Hobj & _). fold r in Hobj.
  destruct (fdroid_search_element_fields self st_k element (uninit (0 + k)))
    as (_ & Hkind & Hown & Hmeta). rewrite Hid in Hmeta.
  pose proof (install_one self flags _ r _ id Hflags Hobj) as Hone.
  destruct (gs_plugin_android_install_apps_async self [r] flags _) as [st2 outcome].
  destruct Hone as (-> & Hobjs & _); [by rewrite Hkind|done|done|].
  split; [done|]. unfold state_of. rewrite Hobjs, list_lookup_alter_eq, Hobj. simpl.
  by rewrite gs_app_set_state_state.
Qed.

Lemma search_result_installs_witness :
  let st1 := (fdroid_search_cb android uninit_null
                (inr (JsonDocument (Some (JsonArray
                   [search_element_example "x.y.z" "https://example.com/icon.png"]))))
                (gs_plugin_android_init [])).1 in
  let '(st2, outcome) :=
    gs_plugin_android_install_apps_async android [0] install_flags_none st1 in
  outcome = Called "Install" (ParametersString (Some "x.y.z")) [0]
  /\ state_of st2 0 = Some GS_APP_STATE_INSTALLING.
Proof.
  apply (search_result_installs android uninit_null (gs_plugin_android_init [])
           [search_element_example "x.y.z" "https://example.com/icon.png"] 0
           (search_element_example "x.y.z" "https://example.com/icon.png") "x.y.z"
           install_flags_none).
  - reflexivity.
  - reflexivity.
  - reflexivity.
Defined.

(** X8.  What the installed refresh caches can be uninstalled: an
    uninstall request for an application of the installed cache calls
    [UninstallApp] with the package name of the child it was made from,
    and leaves the application Removing. *)
Theorem installed_app_uninstalls
    (self : GsPlugin) (st : State) (reply : list (gmap string GVariant)) (r : nat) :
  r ∈ installed_apps (fdroid_get_installed_apps_cb self (inr reply) st).1 ->
  let st1 := (fdroid_get_installed_apps_cb self (inr reply) st).1 in
  exists child p,
    child ∈ reply
    /\ g_variant_dict_lookup child "packageName" = Some p
    /\ let '(st2, outcome) := gs_plugin_android_uninstall_apps_async self [r] st1 in
       outcome = Called "UninstallApp" (ParametersString (Some p)) (Some r)
       /\ state_of st2 r = Some GS_APP_STATE_REMOVING.
Proof.
  rewrite fdroid_get_installed_apps_cb_loop. cbn zeta.
  pose proof (installed_loop_invariant_holds self
                (with_installed_apps (gs_app_list_remove_all (installed_apps st)) st)
                reply eq_refl) as (_ & _ & Hsound & _).
  destruct (fold_left _ reply _) as [st1 l]. cbn [fst snd] in *.
  intros Hr. destruct (Hsound r Hr) as (_ & child & p & Hin & Hp & Hobj).
  exists child, p. split; [done|]. split; [done|].
  destruct (fdroid_installed_app_fields self p (g_variant_dict_lookup child "name")
              (g_variant_dict_lookup child "id")) as (Hkind & Hown & Hmeta & _).
  fold (installed_app_of_child self child p) in Hkind, Hown, Hmeta.
  pose proof (uninstall_one self st1 r _ Hobj) as Hone.
  destruct (gs_plugin_android_uninstall_apps_async self [r] st1) as [st2 outcome].
  destruct Hone as (-> & Hobjs & _); [by rewrite Hkind|done|].
  split; [by rewrite Hmeta|].
  unfold state_of. rewrite Hobjs, list_lookup_alter_eq, Hobj. simpl.
  by rewrite gs_app_set_state_state.
Qed.

Lemma installed_app_uninstalls_witness :
  exists child p,
    child ∈ [installed_child_example]
    /\ g_variant_dict_lookup child "packageName" = Some p
    /\ let '(st2, outcome) :=
         gs_plugin_android_uninstall_apps_async android [0] installed_example_state in
       outcome = Called "UninstallApp" (ParametersString (Some p)) (Some 0)
       /\ state_of st2 0 = Some GS_APP_STATE_REMOVING.
Proof.
  apply (installed_app_uninstalls android (gs_plugin_android_init [])
           [installed_child_example] 0).
  apply list_elem_of_singleton. reflexivity.
Defined.

(** The store after the loop of [fdroid_get_upgradable_cb]: one new object
    per child with a package name, in order. *)
Lemma fdroid_get_upgradable_loop_objects self reply st list_ :
  objects (fold_left (fdroid_get_upgradable_child self) reply (st, list_)).1
  = objects st
    ++ map (fun cp => upgradable_app_of_child self cp.1 cp.2)
           (children_with_package_name reply).
Proof.
  induction reply as [|x reply IH] using rev_ind.
  - simpl. by rewrite app_nil_r.
  - rewrite fold_left_app. cbn [fold_left].
    unfold children_with_package_name in *. rewrite omap_app, map_app, app_assoc, <- IH.
    destruct (fold_left _ reply _) as [st' l]. cbn [fst]. simpl omap.
    destruct (g_variant_dict_lookup x "packageName") as [p|] eqn:Hp.
    + by destruct (fdroid_get_upgradable_child_some self st' l x p Hp) as (-> & _).
    + unfold fdroid_get_upgradable_child. rewrite Hp. simpl. by rewrite app_nil_r.
Qed.

(** X9.  What update sends for an entry of an updatable refresh: the
    application made from a child with a package name carries the child's
    ["id"] as its ["android::package-name"], so an update of it asks
    [UpgradePackages] for that id, and for nothing when the child has no
    id; the child's ["packageName"] is not what is sent. *)
Theorem upgradable_entry_update
    (self : GsPlugin) (st : State) (reply : list (gmap string GVariant)) (k : nat)
    (child : gmap string GVariant) (p : string) (flags : GsPluginUpdateAppsFlags) :
  children_with_package_name reply !! k = Some (child, p) ->
  update_no_apply flags = false ->
  let st1 := (fdroid_get_upgradable_cb self (inr reply) st).1 in
  let r := length (objects st) + k in
  (gs_plugin_android_update_apps_async self [r] flags st1).2
  = Called "UpgradePackages"
      (ParametersStrv (option_list (g_variant_dict_lookup child "id"))) [r].
Proof.
  intros Hk Hflags st1 r. subst st1.
  destruct (fdroid_get_upgradable_cb_loop self reply st) as [msg ->].
  unfold gs_plugin_android_update_apps_async. rewrite Hflags.
  pose proof (update_apps_loop_builder [r] []
                (g_debug msg (fold_left (fdroid_get_upgradable_child self) reply
                                (st, gs_app_list_new)).1)) as Hb.
  destruct (update_apps_loop [r] [] _) as [st2 builder]. cbn [fst snd] in *.
  rewrite Hb. cbn [omap list_omap app]. unfold metadata_item_of.
  rewrite objects_g_debug, fdroid_get_upgradable_loop_objects.
  rewrite lookup_app_r by (unfold r; lia).
  replace (r - length (objects st)) with k by (unfold r; lia).
  rewrite list_lookup_fmap, Hk. cbn [fmap option_fmap option_map fst snd].
  destruct (fdroid_upgradable_app_fields self p (g_variant_dict_lookup child "name")
              (g_variant_dict_lookup child "id")
              (g_variant_dict_lookup child "repository")
              (g_variant_dict_lookup child "currentVersion")
              (g_variant_dict_lookup child "availableVersion")) as (_ & _ & Hmeta & _).
  fold (upgradable_app_of_child self child p) in Hmeta. rewrite Hmeta.
  by destruct (g_variant_dict_lookup child "id").
Qed.

Lemma upgradable_entry_update_witness :
  (gs_plugin_android_update_apps_async android [0] update_flags_none
     (fdroid_get_upgradable_cb android (inr [upgradable_child_named])
        (gs_plugin_android_init [])).1).2
  = Called "UpgradePackages" (ParametersStrv ["example"]) [0].
Proof.
  apply (upgradable_entry_update android (gs_plugin_android_init [])
           [upgradable_child_named] 0 upgradable_child_named "org.example.app"
           update_flags_none).
  - vm_compute. reflexivity.
  - reflexivity.
Defined.

(** ** Search: replies that are not lists of results, and good icons *)

Lemma gs_app_list_add_length objs l r :
  length (gs_app_list_add objs l r) <= S (length l).
Proof.
  destruct (gs_app_list_add_cases objs l r) as [[_ ->]|[_ ->]]; [|lia].
  rewrite length_app. simpl. lia.
Qed.

Lemma fdroid_search_loop_lengths self uninit elements i st list_ :
  length (objects (fdroid_search_loop self uninit i elements st list_).1)
  = length (objects st) + length elements
  /\ length (fdroid_search_loop self uninit i elements st list_).2
     <= length list_ + length elements.
Proof.
  revert i st list_. induction elements as [|element rest IH]; intros i st list_.
  - simpl. lia.
  - cbn [fdroid_search_loop].
    destruct (fdroid_search_element self st element (uninit i)) as [app msgs].
    destruct (g_debug_fold msgs st) as (Hobjs & _ & _). cbn zeta in Hobjs.
    unfold alloc_app.
    set (st0 := fold_left (fun st msg => g_debug msg st) msgs st) in *.
    set (st1 := with_objects (objects st0 ++ [app]) st0).
    set (l1 := gs_app_list_add (objects st1) list_ (length (objects st0))).
    destruct (IH (S i) st1 l1) as [IHo IHl].
    assert (length (objects st1) = S (length (objects st))) as Hst1.
    { unfold st1. simpl. rewrite length_app, Hobjs. simpl. lia. }
    assert (length l1 <= S (length list_)) as Hl1 by apply gs_app_list_add_length.
    simpl length. lia.
Qed.

(** X10.  How a search reply ends the task.  A text that does not parse
    gives the parser's error as it came, and changes nothing.  Every text
    that parses gives a list, never an error: one application object is
    made per element of the root array, whatever the element is, the list
    has at most as many entries, and a root that is not an array (an
    object, a string, null, no root at all) counts as an array without
    elements. *)
Theorem search_reply_outcomes
    (self : GsPlugin) (uninit : nat -> option string * option string) (st : State)
    (json_data : JsonData) :
  match json_parser_load_from_data json_data with
  | inl e => fdroid_search_cb self uninit (inr json_data) st = (st, TaskError e)
  | inr root =>
      let n := json_array_get_length (json_node_get_array root) in
      exists st' l,
        fdroid_search_cb self uninit (inr json_data) st = (st', TaskPointer l)
        /\ length (objects st') = length (objects st) + n
        /\ length l <= n
        /\ (n = 0 -> st' = st)
  end.
Proof.
  unfold fdroid_search_cb.
  destruct (json_parser_load_from_data json_data) as [e|root]; [done|].
  destruct (json_node_get_array root) as [elements|];
    cbn [default from_option id json_array_get_length].
  - pose proof (fdroid_search_loop_lengths self uninit elements 0 st gs_app_list_new)
      as [Ho Hl].
    destruct (fdroid_search_loop self uninit 0 elements st gs_app_list_new) as [st' l] eqn:Hloop.
    exists st', l. cbn [fst snd] in *. split; [reflexivity|].
    split; [exact Ho|]. split; [exact Hl|].
    intros Hn. destruct elements; [|done]. simpl in Hloop. by injection Hloop as <- _.
  - exists st, []. simpl. split; [done|]. split; [lia|]. split; [lia|done].
Qed.

Lemma fdroid_search_element_valid_icon self st element uninit package icon_url :
  json_object_get_object_member (json_node_get_object element) "package" = Some package ->
  json_object_get_string_member (Some package) "icon_url" = Some icon_url ->
  g_str_has_prefix icon_url "http://" || g_str_has_prefix icon_url "https://" = true ->
  app_icons (fdroid_search_element self st element uninit).1 = [icon_url]
  /\ (fdroid_search_element self st element uninit).2 = [].
Proof.
  intros Hpackage Hicon Hprefix. unfold fdroid_search_element.
  rewrite Hpackage, Hicon.
  assert (negb (g_str_has_prefix icon_url "http://")
          && negb (g_str_has_prefix icon_url "https://") = false) as ->.
  { rewrite <- negb_orb, Hprefix. done. }
  cbn [fst snd]. split; [|done].
  unfold gs_app_set_summary, gs_app_set_description, gs_app_set_license,
    gs_app_set_developer_name, gs_app_set_url_homepage, gs_app_set_version.
  rewrite icons_set_state. unfold gs_app_add_icon. cbn [app_icons with_icons].
  by autorewrite with gs_app.
Qed.

(** What an element makes the loop print does not depend on the plugin's
    world. *)
Lemma fdroid_search_element_messages self st st' element uninit :
  (fdroid_search_element self st element uninit).2
  = (fdroid_search_element self st' element uninit).2.
Proof.
  unfold fdroid_search_element.
  destruct (json_object_get_object_member (json_node_get_object element) "package")
    as [package|].
  - destruct (json_object_get_string_member (Some package) "icon_url") as [icon_url|];
      [destruct (negb _ && negb _)|]; cbn [snd]; reflexivity.
  - destruct uninit as [version [icon_url|]]; cbn [fst snd];
      [destruct (negb _ && negb _)|]; cbn [snd]; reflexivity.
Qed.

(** Every line the loop adds to the log is printed for one of the
    elements. *)
Lemma fdroid_search_loop_log self uninit elements i st list_ msg :
  msg ∈ debug (fdroid_search_loop self uninit i elements st list_).1 ->
  msg ∈ debug st
  \/ exists j element,
       elements !! j = Some element
       /\ msg ∈ (fdroid_search_element self st element (uninit (i + j))).2.
Proof.
  revert i st list_. induction elements as [|e rest IH]; intros i st list_ Hmsg.
  - by left.
  - destruct (fdroid_search_loop_cons self uninit i e rest st list_)
      as (st1 & list1 & Heq & _ & _ & Hdebug).
    rewrite Heq in Hmsg. apply IH in Hmsg as [Hmsg|(j & element & Hj & Hmsg)].
    + rewrite Hdebug in Hmsg. apply elem_of_app in Hmsg as [?|Hmsg]; [by left|].
      right. exists 0, e. by rewrite Nat.add_0_r.
    + right. exists (S j), element. split; [done|].
      rewrite (fdroid_search_element_messages self st st1).
      by replace (i + S j) with (S i + j) by lia.
Qed.

(** X11.  For a search reply whose root is an array, and an element of it
    whose package object has an [icon_url] that starts with ["http://"] or
    ["https://"]: the application made from the element has exactly that
    URL as its icon, and nothing is logged for it: every line of the log
    after the callback was there before, or was printed for another
    element of the reply. *)
Theorem search_valid_icon_is_attached
    (self : GsPlugin) (uninit : nat -> option string * option string) (st : State)
    (elements : list JsonNode) (k : nat) (element : JsonNode)
    (package : list (string * JsonNode)) (icon_url : string) :
  elements !! k = Some element ->
  json_object_get_object_member (json_node_get_object element) "package" = Some package ->
  json_object_get_string_member (Some package) "icon_url" = Some icon_url ->
  g_str_has_prefix icon_url "http://" || g_str_has_prefix icon_url "https://" = true ->
  let st' := (fdroid_search_cb self uninit
                (inr (JsonDocument (Some (JsonArray elements)))) st).1 in
  (exists app, objects st' !! (length (objects st) + k) = Some app
               /\ app_icons app = [icon_url])
  /\ (forall msg, msg ∈ debug st' ->
        msg ∈ debug st
        \/ exists j other,
             j ≠ k /\ elements !! j = Some other
             /\ msg ∈ (fdroid_search_element self st other (uninit j)).2).
Proof.
  intros Hk Hpackage Hicon Hprefix st'. subst st'.
  rewrite fdroid_search_cb_loop. cbn zeta. cbn [fst]. split.
  - destruct (fdroid_search_loop_nth self uninit elements 0 st gs_app_list_new k element
                Hk) as (st_k & new & _ & _ & Hobj & _).
    eexists. split; [exact Hobj|].
    by apply (fdroid_search_element_valid_icon self st_k element _ package icon_url).
  - intros msg Hmsg.
    apply fdroid_search_loop_log in Hmsg as [?|(j & other & Hj & Hmsg)]; [by left|].
    right. exists j, other. cbn [Nat.add] in Hmsg. split; [|done].
    intros ->. rewrite Hk in Hj. injection Hj as <-.
    destruct (fdroid_search_element_valid_icon self st element (uninit k) package icon_url
                Hpackage Hicon Hprefix) as [_ Hnone].
    rewrite Hnone in Hmsg. by apply elem_of_nil in Hmsg.
Qed.

Lemma search_valid_icon_is_attached_witness :
  let st' := (fdroid_search_cb android uninit_null
                (inr (JsonDocument (Some (JsonArray
                   [search_element_example "x.y.z" "https://example.com/icon.png"]))))
                (gs_plugin_android_init [])).1 in
  (exists app, objects st' !! 0 = Some app
               /\ app_icons app = ["https://example.com/icon.png"])
  /\ (forall msg, msg ∈ debug st' ->
        msg ∈ debug (gs_plugin_android_init [])
        \/ exists j other,
             j ≠ 0
             /\ [search_element_example "x.y.z" "https://example.com/icon.png"] !! j
                = Some other
             /\ msg ∈ (fdroid_search_element android (gs_plugin_android_init []) other
                         (uninit_null j)).2).
Proof.
  apply (search_valid_icon_is_attached android uninit_null (gs_plugin_android_init [])
           [search_element_example "x.y.z" "https://example.com/icon.png"] 0
           (search_element_example "x.y.z" "https://example.com/icon.png")
           (search_package_example "https://example.com/icon.png")
           "https://example.com/icon.png").
  - reflexivity.
  - reflexivity.
  - reflexivity.
  - vm_compute. reflexivity.
Defined.

(** The log of that search is empty. *)
Example search_valid_icon_logs_nothing :
  debug (fdroid_search_cb android uninit_null
           (inr (JsonDocument (Some (JsonArray
              [search_element_example "x.y.z" "https://example.com/icon.png"]))))
           (gs_plugin_android_init [])).1
  = [].
Proof. vm_compute. reflexivity. Qed.

(** ** Repositories *)

Lemma fdroid_get_repositories_loop self repositories rs list_ :
  let acc := fold_left (fdroid_get_repositories_pair self) repositories (rs, list_) in
  let f := fun pair : string * string => fdroid_repository_app self pair.1 pair.2 in
  objects (repo_state acc.1) = objects (repo_state rs) ++ map f repositories
  /\ installed_apps (repo_state acc.1) = installed_apps (repo_state rs)
  /\ updatable_apps (repo_state acc.1) = updatable_apps (repo_state rs)
  /\ (forall name url,
        (name, url) ∈ repositories ->
        exists r name',
          plugin_cache acc.1 !! url = Some r
          /\ objects (repo_state acc.1) !! r = Some (f (name', url))
          /\ (name', url) ∈ repositories
          /\ origin_ui acc.1 !! r = Some "F-Droid (Android)")
  /\ (forall url,
        (forall name, (name, url) ∉ repositories) ->
        plugin_cache acc.1 !! url = plugin_cache rs !! url).
Proof.
  intros acc f. subst acc.
  induction repositories as [|[n u] repositories IH] using rev_ind.
  - simpl. rewrite app_nil_r. repeat split; try done.
    intros name url Hin. by apply elem_of_nil in Hin.
  - rewrite fold_left_app. cbn [fold_left].
    destruct (fold_left _ repositories _) as [rs1 l1].
    destruct IH as (Hobjs & Hinst & Hupd & Hin & Hout). cbn [fst snd] in *.
    unfold fdroid_get_repositories_pair, alloc_app. cbn [fst snd repo_state plugin_cache origin_ui].
    simpl objects. simpl installed_apps. simpl updatable_apps.
    set (r := length (objects (repo_state rs1))).
    split; [by rewrite Hobjs, map_app, app_assoc|].
    split; [done|]. split; [done|]. split.
    + intros name url Hname. destruct (decide (url = u)) as [->|Hne].
      * exists r, n. rewrite lookup_insert_eq. split; [done|].
        split; [by rewrite lookup_app_r, Nat.sub_diag by (unfold r; lia)|].
        split; [rewrite elem_of_app, list_elem_of_singleton; auto|].
        by rewrite lookup_insert_eq.
      * apply elem_of_app in Hname as [Hname|Hname].
        2:{ apply list_elem_of_singleton in Hname. congruence. }
        destruct (Hin name url Hname) as (r' & name' & Hc & Ho & Hn & Hui).
        exists r', name'. rewrite lookup_insert_ne by done. split; [done|].
        split; [by apply lookup_app_l_Some|].
        split; [rewrite elem_of_app; auto|].
        rewrite lookup_insert_ne; [done|].
        apply lookup_lt_Some in Ho. unfold r. lia.
    + intros url Hnone. rewrite lookup_insert_ne.
      * apply Hout. intros name Hname. apply (Hnone name). rewrite elem_of_app. auto.
      * intros ->. apply (Hnone n). rewrite elem_of_app, list_elem_of_singleton. auto.
Qed.

(** X12.  The repository listing and the plugin cache.  The reply makes
    one repository application per pair, in order, whatever the store held
    before.  Afterwards every URL of the reply is a key of the plugin
    cache, and what the cache gives for it is an application of this
    listing made for that very URL (for a URL listed twice, the later one),
    labelled with the F-Droid origin; keys that are not URLs of the reply
    are as they were, and the installed and updatable caches are not
    touched. *)
Theorem repositories_listing
    (self : GsPlugin) (rs : Repositories) (repositories : list (string * string)) :
  let '(rs', result) := fdroid_get_repositories_cb self (inr repositories) rs in
  (exists l, result = TaskPointer l)
  /\ objects (repo_state rs')
     = objects (repo_state rs)
       ++ map (fun pair => fdroid_repository_app self pair.1 pair.2) repositories
  /\ installed_apps (repo_state rs') = installed_apps (repo_state rs)
  /\ updatable_apps (repo_state rs') = updatable_apps (repo_state rs)
  /\ (forall name url,
        (name, url) ∈ repositories ->
        exists r name',
          plugin_cache rs' !! url = Some r
          /\ objects (repo_state rs') !! r = Some (fdroid_repository_app self name' url)
          /\ (name', url) ∈ repositories
          /\ origin_ui rs' !! r = Some "F-Droid (Android)")
  /\ (forall url,
        (forall name, (name, url) ∉ repositories) ->
        plugin_cache rs' !! url = plugin_cache rs !! url).
Proof.
  unfold fdroid_get_repositories_cb.
  pose proof (fdroid_get_repositories_loop self repositories rs gs_app_list_new) as H.
  cbn zeta in H.
  destruct (fold_left _ repositories _) as [rs' l]. cbn [fst snd] in H.
  split; [by eexists|]. exact H.
Qed.

(** The example reply: the URL listed twice leads to its later entry. *)
Example repositories_listing_example :
  let rs' := (fdroid_get_repositories_cb android (inr repositories_example)
                (repositories_init (gs_plugin_android_init []))).1 in
  plugin_cache rs' !! "https://f-droid.org/repo" = Some 0
  /\ plugin_cache rs' !! "https://apt.izzysoft.de/fdroid/repo" = Some 2
  /\ (app_id <$> objects (repo_state rs') !! 2) = Some (Some "Izzy").
Proof. vm_compute. repeat split; reflexivity. Qed.

(** X13.  Removing a repository.  The entry point (on a repository that
    was set to a state, as the listing does) calls [RemoveRepository] with
    the repository's id and leaves it Removing.  When the call fails, the
    task ends with the stripped remote error and the repository is back in
    its state from before; when it succeeds, the task ends with TRUE and
    the repository is Available.  Neither way is updates-changed emitted.
    On an application that is not a repository the entry point dies in its
    assertion. *)
Theorem remove_repository_outcomes
    (st : State) (repo : nat) (a : GsApp) (e : GError) :
  objects st !! repo = Some a ->
  app_state a ≠ GS_APP_STATE_UNKNOWN ->
  app_state_recover a = app_state a ->
  let '(st1, outcome) := gs_plugin_android_remove_repository_async repo st in
  if bool_decide (app_kind a = AS_COMPONENT_KIND_REPOSITORY) then
    outcome = Called "RemoveRepository" (ParametersString (app_id a)) repo
    /\ state_of st1 repo = Some GS_APP_STATE_REMOVING
    /\ (let '(st2, result) := fdroid_remove_repository_cb repo (inl e) st1 in
        result = TaskError (g_dbus_error_strip_remote_error e)
        /\ state_of st2 repo = Some (app_state a)
        /\ updates_changed st2 = updates_changed st)
    /\ (let '(st2, result) := fdroid_remove_repository_cb repo (inr ()) st1 in
        result = TaskBoolean true
        /\ state_of st2 repo = Some GS_APP_STATE_AVAILABLE
        /\ updates_changed st2 = updates_changed st)
  else st1 = st /\ outcome = Aborted.
Proof.
  intros Ha Hknown Hrec. unfold gs_plugin_android_remove_repository_async.
  rewrite Ha. unfold gs_app_get_kind, gs_app_get_id. case_bool_decide; [|done].
  split; [done|]. unfold fdroid_remove_repository_cb, state_of. simpl.
  rewrite !list_lookup_alter_eq, Ha. simpl.
  unfold gs_app_get_state.
  rewrite (gs_app_set_state_recover_transient GS_APP_STATE_REMOVING a eq_refl Hknown Hrec).
  rewrite !gs_app_set_state_state. done.
Qed.

Lemma remove_repository_outcomes_witness :
  let '(st1, outcome) :=
    gs_plugin_android_remove_repository_async 1 repository_example_state in
  outcome = Called "RemoveRepository" (ParametersString (Some "F-Droid")) 1
  /\ state_of st1 1 = Some GS_APP_STATE_REMOVING
  /\ (let '(st2, result) :=
        fdroid_remove_repository_cb 1 (inl remote_error_example) st1 in
      result = TaskError (g_dbus_error_strip_remote_error remote_error_example)
      /\ state_of st2 1 = Some GS_APP_STATE_INSTALLED
      /\ updates_changed st2 = updates_changed repository_example_state)
  /\ (let '(st2, result) := fdroid_remove_repository_cb 1 (inr ()) st1 in
      result = TaskBoolean true
      /\ state_of st2 1 = Some GS_APP_STATE_AVAILABLE
      /\ updates_changed st2 = updates_changed repository_example_state).
Proof.
  apply (remove_repository_outcomes repository_example_state 1
           (fdroid_repository_app android "F-Droid" "https://f-droid.org/repo")
           remote_error_example).
  - reflexivity.
  - vm_compute. discriminate.
  - vm_compute. reflexivity.
Defined.

(** ** The display name *)

(** X14.  The display name of listed applications.  Every application of
    the installed cache after an installed refresh, and the object made
    for every child with a package name of an updatable reply, is named by
    the child's ["name"] when that is a non-empty string, and otherwise by
    the child's package name with the lowest quality, so that a later
    source of names can replace it. *)
Theorem listed_display_name
    (self : GsPlugin) (st : State) (reply : list (gmap string GVariant)) :
  (let st1 := (fdroid_get_installed_apps_cb self (inr reply) st).1 in
   forall r, r ∈ installed_apps st1 ->
     exists child p a,
       child ∈ reply
       /\ g_variant_dict_lookup child "packageName" = Some p
       /\ objects st1 !! r = Some a
       /\ (gs_app_get_name a, app_name_quality a) = display_name_of_child child p)
  /\ (let st1 := (fdroid_get_upgradable_cb self (inr reply) st).1 in
      forall i child p, children_with_package_name reply !! i = Some (child, p) ->
        exists a,
          objects st1 !! (length (objects st) + i) = Some a
          /\ (gs_app_get_name a, app_name_quality a) = display_name_of_child child p).
Proof.
  split.
  - rewrite fdroid_get_installed_apps_cb_loop. cbn zeta.
    pose proof (installed_loop_invariant_holds self
                  (with_installed_apps (gs_app_list_remove_all (installed_apps st)) st)
                  reply eq_refl) as (_ & _ & Hsound & _).
    destruct (fold_left _ reply _) as [st1 l]. cbn [fst snd] in *.
    intros r Hr. destruct (Hsound r Hr) as (_ & child & p & Hin & Hp & Hobj).
    exists child, p, (installed_app_of_child self child p).
    split; [done|]. split; [done|]. split; [done|].
    unfold installed_app_of_child, display_name_of_child.
    destruct (field_map_app_name self p (g_variant_dict_lookup child "name")
                (g_variant_dict_lookup child "id") None None None) as [H _].
    cbn zeta in H. rewrite H. by destruct (g_variant_dict_lookup child "name") as [[|]|].
  - cbn zeta. destruct (fdroid_get_upgradable_cb_loop self reply st) as [msg ->].
    pose proof (fdroid_get_upgradable_loop_objects self reply st gs_app_list_new) as Hobjs.
    destruct (fold_left _ reply _) as [st1 l]. cbn [fst snd] in *.
    change (objects (g_debug msg st1)) with (objects st1).
    intros i child p Hi. exists (upgradable_app_of_child self child p).
    split.
    + rewrite Hobjs, lookup_app_r, Nat.add_comm, Nat.add_sub by lia.
      by rewrite list_lookup_fmap, Hi.
    + unfold upgradable_app_of_child, display_name_of_child.
      destruct (field_map_app_name self p (g_variant_dict_lookup child "name")
                  (g_variant_dict_lookup child "id")
                  (g_variant_dict_lookup child "repository")
                  (g_variant_dict_lookup child "currentVersion")
                  (g_variant_dict_lookup child "availableVersion")) as [_ H].
      cbn zeta in H. rewrite H. by destruct (g_variant_dict_lookup child "name") as [[|]|].
Qed.

(** ** Setup *)

(** X15.  The proxy after any run of setup completions is the one of the
    last completion that obtained a proxy; completions that failed leave
    the handle as it was, so with no success at all it is the handle from
    before.  A failed completion ends its task with the error as it came,
    not stripped. *)
Theorem setup_keeps_last_proxy
    (results : list (GError + GDBusProxy)) (fdroid_proxy : option GDBusProxy) :
  setup_all results fdroid_proxy
  = match last (setup_successes results) with
    | Some proxy => Some proxy
    | None => fdroid_proxy
    end
  /\ (forall error proxy',
        fdroid_proxy_setup_cb (inl error) proxy' = (proxy', TaskError error)).
Proof.
  split; [|done].
  unfold setup_all, setup_successes.
  induction results as [|res results IH] using rev_ind; [done|].
  rewrite fold_left_app, omap_app. cbn [fold_left]. rewrite IH.
  destruct res as [error|proxy]; simpl.
  - by rewrite app_nil_r.
  - by rewrite last_snoc.
Qed.

(** ** Launch *)

Lemma substring_prefix_append s suf :
  substring 0 (String.length s) (s +:+ suf) = s.
Proof.
  induction s as [|c s IH].
  - rewrite string_append_nil. by destruct suf.
  - rewrite string_append_cons. simpl. by rewrite IH.
Qed.

Lemma substring_append pre s suf :
  substring (String.length pre) (String.length s) (pre +:+ s +:+ suf) = s.
Proof.
  induction pre as [|c pre IH].
  - rewrite string_append_nil. apply substring_prefix_append.
  - rewrite string_append_cons. simpl. apply IH.
Qed.

Lemma substring_occurs m s haystack :
  substring m (String.length s) haystack = s -> occurs_in s haystack.
Proof.
  revert haystack. induction m as [|m IH]; intros haystack.
  - revert haystack. induction s as [|c s IHs]; intros haystack H.
    + exists "", haystack. by rewrite !string_append_nil.
    + destruct haystack as [|c' haystack]; [done|]. simpl in H.
      injection H as -> H. destruct (IHs _ H) as (pre & suf & Hh).
      destruct pre as [|c'' pre].
      * exists "", suf. rewrite string_append_nil in *.
        by rewrite string_append_cons, Hh.
      * (* [s] is both a prefix of [haystack] and found after [c'' pre] *)
        exists "", (substring (String.length s) (String.length haystack - String.length s) haystack).
        rewrite string_append_nil, string_append_cons. f_equal.
        clear -H. revert haystack H. induction s as [|d s IHs'']; intros haystack H.
        -- rewrite string_append_nil. simpl. rewrite Nat.sub_0_r.
           clear. induction haystack as [|e h IHh]; [done|]. simpl. by rewrite <- IHh.
        -- destruct haystack as [|e h]; [done|]. simpl in H. injection H as -> H.
           rewrite string_append_cons. simpl. f_equal. by apply IHs''.
  - destruct haystack as [|c haystack]; simpl.
    + intros H. destruct s; [|done]. exists "", "". done.
    + intros H. destruct (IH _ H) as (pre & suf & ->).
      exists (String c pre), suf. by rewrite string_append_cons.
Qed.

Lemma strstr_occurs haystack needle :
  needle ≠ "" ->
  strstr haystack needle = true <-> occurs_in needle haystack.
Proof.
  intros Hne. unfold strstr. split.
  - destruct (String.index 0 needle haystack) as [m|] eqn:Hi; [|done].
    intros _. apply index_correct1 in Hi. by apply substring_occurs in Hi.
  - intros (pre & suf & ->).
    destruct (String.index 0 needle (pre +:+ needle +:+ suf)) eqn:Hi; [done|].
    exfalso. apply (index_correct3 0 (String.length pre) _ _ Hi Hne); [lia|].
    apply substring_append.
Qed.

(** X16.  Which desktop files the launch filter accepts: exactly those
    whose path contains none of [/snapd/], [/snap/] and [/flatpak/], and
    whose key file has a [Desktop Entry] group without the keys
    [X-Flatpak] and [X-SnapInstanceName]. *)
Theorem filter_desktop_file_accepts
    (filename : string) (key_file : gmap string (gmap string string)) :
  gs_plugin_android_filter_desktop_file_cb filename key_file = true
  <-> (~ occurs_in "/snapd/" filename
       /\ ~ occurs_in "/snap/" filename
       /\ ~ occurs_in "/flatpak/" filename
       /\ exists group,
            key_file !! "Desktop Entry" = Some group
            /\ group !! "X-Flatpak" = None
            /\ group !! "X-SnapInstanceName" = None).
Proof.
  unfold gs_plugin_android_filter_desktop_file_cb.
  rewrite !andb_true_iff, !negb_true_iff.
  rewrite <- !(strstr_occurs filename) by done.
  unfold g_key_file_has_group, g_key_file_has_key.
  destruct (key_file !! "Desktop Entry") as [group|] eqn:Hg.
  - rewrite !bool_decide_eq_false, bool_decide_eq_true, <- !eq_None_not_Some.
    rewrite !not_true_iff_false. split.
    + intros (((((? & ?) & ?) & _) & ?) & ?). repeat split; try done. by exists group.
    + intros (? & ? & ? & group' & [= <-] & ? & ?). repeat split; try done.
  - split.
    + intros (((((_ & _) & _) & H) & _) & _). apply bool_decide_eq_true in H.
      by destruct H.
    + intros (_ & _ & _ & group & ? & _). done.
Qed.

(** A packaged desktop file is accepted; the same file under a Flatpak
    export directory, or carrying the Flatpak key, is not. *)
Example filter_desktop_file_example :
  gs_plugin_android_filter_desktop_file_cb
    "/usr/share/applications/org.example.desktop" desktop_file_example = true
  /\ gs_plugin_android_filter_desktop_file_cb
       "/var/lib/flatpak/exports/share/applications/org.example.desktop"
       desktop_file_example = false
  /\ gs_plugin_android_filter_desktop_file_cb
       "/usr/share/applications/org.example.desktop"
       (<["Desktop Entry" := <["X-Flatpak" := "org.example"]> ∅]> desktop_file_example)
     = false.
Proof. vm_compute. repeat split; reflexivity. Qed.

(** ** The plugin over a session *)

Lemma same_static_refl a : same_static a a.
Proof. done. Qed.

Lemma same_static_trans a b c : same_static a b -> same_static b c -> same_static a c.
Proof. unfold same_static. intros (-> & -> & -> & ->) (-> & -> & -> & ->). done. Qed.

Lemma same_static_set_state s a : same_static a (gs_app_set_state s a).
Proof.
  unfold same_static, gs_app_set_state. case_bool_decide; [done|].
  by destruct (gs_app_state_is_transient s).
Qed.

Lemma same_static_set_state_recover a : same_static a (gs_app_set_state_recover a).
Proof. unfold same_static, gs_app_set_state_recover. by repeat case_bool_decide. Qed.

Lemma store_extends_refl objs : store_extends objs objs.
Proof. intros r a Ha. exists a. split; [done|apply same_static_refl]. Qed.

Lemma store_extends_trans objs1 objs2 objs3 :
  store_extends objs1 objs2 -> store_extends objs2 objs3 -> store_extends objs1 objs3.
Proof.
  intros H12 H23 r a Ha. destruct (H12 r a Ha) as (b & Hb & Hab).
  destruct (H23 r b Hb) as (c & Hc & Hbc). exists c. split; [done|].
  by eapply same_static_trans.
Qed.

Lemma store_extends_alter f r objs :
  (forall a, same_static a (f a)) -> store_extends objs (alter f r objs).
Proof.
  intros Hf r' a Ha. destruct (decide (r = r')) as [->|Hne].
  - exists (f a). rewrite list_lookup_alter_eq, Ha. split; [done|apply Hf].
  - exists a. rewrite list_lookup_alter_ne by done. split; [done|apply same_static_refl].
Qed.

Lemma store_extends_app objs new : store_extends objs (objs ++ new).
Proof.
  intros r a Ha. exists a. split; [by apply lookup_app_l_Some|apply same_static_refl].
Qed.

Lemma frames_refl st : frames st st.
Proof. split; [done|]. split; [done|]. apply store_extends_refl. Qed.

Lemma frames_trans st1 st2 st3 : frames st1 st2 -> frames st2 st3 -> frames st1 st3.
Proof.
  intros (Hi1 & Hu1 & Ho1) (Hi2 & Hu2 & Ho2). split; [congruence|]. split; [congruence|].
  by eapply store_extends_trans.
Qed.

Lemma frames_g_debug msg st : frames st (g_debug msg st).
Proof. split; [done|]. split; [done|]. apply store_extends_refl. Qed.

Lemma frames_updates_changed st : frames st (gs_plugin_updates_changed st).
Proof. split; [done|]. split; [done|]. apply store_extends_refl. Qed.

Lemma frames_update_app r f st :
  (forall a, same_static a (f a)) -> frames st (update_app r f st).
Proof. intros Hf. split; [done|]. split; [done|]. by apply store_extends_alter. Qed.

Lemma frames_set_state r s st : frames st (update_app r (gs_app_set_state s) st).
Proof. apply frames_update_app, same_static_set_state. Qed.

Lemma frames_set_state_recover r st : frames st (update_app r gs_app_set_state_recover st).
Proof. apply frames_update_app, same_static_set_state_recover. Qed.

Lemma frames_alloc_app a st : frames st (alloc_app a st).1.
Proof. split; [done|]. split; [done|]. apply store_extends_app. Qed.

Create HintDb frames.
#[local] Hint Resolve frames_refl frames_g_debug frames_updates_changed
  frames_set_state frames_set_state_recover frames_alloc_app : frames.

Lemma frames_g_debug_fold msgs st :
  frames st (fold_left (fun st msg => g_debug msg st) msgs st).
Proof.
  revert st. induction msgs as [|msg msgs IH]; intros st; [auto with frames|].
  simpl. eapply frames_trans; [|apply IH]. auto with frames.
Qed.

Lemma install_apps_loop_frames plugin list_ install_list st :
  frames st (install_apps_loop plugin list_ install_list st).1.
Proof.
  revert install_list st. induction list_ as [|r rest IH]; intros install_list st;
    cbn [install_apps_loop]; [auto with frames|].
  destruct (objects st !! r) as [app|]; [|apply IH].
  case_bool_decide; [auto with frames|].
  destruct (negb (gs_app_has_management_plugin app plugin)).
  { eapply frames_trans; [|apply IH]. auto with frames. }
  destruct (gs_app_get_metadata_item app "android::package-name").
  - eapply frames_trans; [|apply IH].
    eapply frames_trans; [apply frames_g_debug|apply frames_set_state].
  - eapply frames_trans; [|apply IH]. auto with frames.
Qed.

Lemma uninstall_apps_loop_frames plugin list_ uninstall_list st :
  frames st (uninstall_apps_loop plugin list_ uninstall_list st).1.
Proof.
  revert uninstall_list st. induction list_ as [|r rest IH]; intros uninstall_list st;
    cbn [uninstall_apps_loop]; [auto with frames|].
  destruct (objects st !! r) as [app|]; [|apply IH].
  case_bool_decide; [auto with frames|]. cbv zeta.
  destruct (negb (gs_app_has_management_plugin app plugin)).
  - eapply frames_trans; [|apply IH].
    eapply frames_trans; apply frames_g_debug.
  - eapply frames_trans; [|apply IH].
    eapply frames_trans; [apply frames_g_debug|apply frames_set_state].
Qed.

Lemma update_apps_loop_frames list_ builder st :
  frames st (update_apps_loop list_ builder st).1.
Proof.
  revert builder st. induction list_ as [|r rest IH]; intros builder st;
    cbn [update_apps_loop]; [auto with frames|].
  destruct (metadata_item_of st r "android::package-name"); [|apply IH].
  eapply frames_trans; [|apply IH].
  eapply frames_trans; [apply frames_g_debug|apply frames_set_state].
Qed.

Lemma upgrade_packages_loop_frames list_ st : frames st (upgrade_packages_loop list_ st).
Proof.
  revert st. induction list_ as [|r rest IH]; intros st;
    cbn [upgrade_packages_loop]; [auto with frames|].
  destruct (objects st !! r); [|apply IH].
  eapply frames_trans; [|apply IH].
  eapply frames_trans; [apply frames_set_state|apply frames_g_debug].
Qed.

Lemma fdroid_search_loop_frames self uninit i elements st list_ :
  frames st (fdroid_search_loop self uninit i elements st list_).1.
Proof.
  revert i st list_. induction elements as [|element rest IH]; intros i st list_;
    cbn [fdroid_search_loop]; [auto with frames|].
  destruct (fdroid_search_element self st element (uninit i)) as [app msgs].
  cbn [alloc_app]. eapply frames_trans; [|apply IH].
  eapply frames_trans; [apply frames_g_debug_fold|].
  apply (frames_alloc_app app).
Qed.

(** Every entry point and every callback but the three listing callbacks
    leaves the caches alone and keeps the objects of the store, up to
    their state. *)
Lemma list_apps_frames query st :
  frames st (gs_plugin_android_list_apps_async query st).1.
Proof.
  unfold gs_plugin_android_list_apps_async.
  repeat first [case_bool_decide | case_match]; cbn [fst]; auto with frames.
Qed.

Lemma search_cb_frames self uninit res st :
  frames st (fdroid_search_cb self uninit res st).1.
Proof.
  unfold fdroid_search_cb. destruct res as [e|json_data]; [auto with frames|].
  destruct (json_parser_load_from_data json_data) as [e|root]; [auto with frames|].
  pose proof (fdroid_search_loop_frames self uninit 0
                (default [] (json_node_get_array root)) st gs_app_list_new) as H.
  by destruct (fdroid_search_loop _ _ _ _ _ _).
Qed.

Lemma install_apps_frames plugin list_ flags st :
  frames st (gs_plugin_android_install_apps_async plugin list_ flags st).1.
Proof.
  unfold gs_plugin_android_install_apps_async.
  destruct (install_no_download flags || install_no_apply flags); [auto with frames|].
  pose proof (install_apps_loop_frames plugin list_ gs_app_list_new st) as Hloop.
  destruct (install_apps_loop plugin list_ gs_app_list_new st) as [st' [l|]]; [|done].
  by destruct (negb _).
Qed.

Lemma install_cb_frames install_list res st :
  frames st (fdroid_install_app_cb install_list res st).1.
Proof.
  unfold fdroid_install_app_cb.
  destruct install_list as [[|r l]|]; [auto with frames| |auto with frames].
  destruct res; cbn [fst].
  - eapply frames_trans; [apply frames_g_debug|apply frames_set_state_recover].
  - eapply frames_trans; [apply frames_g_debug|].
    eapply frames_trans; [apply frames_set_state|apply frames_updates_changed].
Qed.

Lemma uninstall_apps_frames plugin list_ st :
  frames st (gs_plugin_android_uninstall_apps_async plugin list_ st).1.
Proof.
  unfold gs_plugin_android_uninstall_apps_async.
  pose proof (uninstall_apps_loop_frames plugin list_ gs_app_list_new st) as Hloop.
  destruct (uninstall_apps_loop plugin list_ gs_app_list_new st) as [st' [l|]]; [|done].
  by destruct (negb _).
Qed.

Lemma uninstall_cb_frames app res st :
  frames st (fdroid_uninstall_app_cb app res st).1.
Proof.
  unfold fdroid_uninstall_app_cb. destruct res, app; cbn [fst from_option];
    auto with frames.
  eapply frames_trans; [apply frames_set_state|apply frames_updates_changed].
Qed.

Lemma update_apps_frames plugin list_ flags st :
  frames st (gs_plugin_android_update_apps_async plugin list_ flags st).1.
Proof.
  unfold gs_plugin_android_update_apps_async.
  destruct (update_no_apply flags); [auto with frames|].
  pose proof (update_apps_loop_frames list_ [] st) as H.
  by destruct (update_apps_loop list_ [] st).
Qed.

Lemma upgrade_packages_cb_frames list_ res st :
  frames st (fdroid_upgrade_packages_cb list_ res st).1.
Proof.
  unfold fdroid_upgrade_packages_cb. destruct res as [e|[|]]; cbn [fst negb];
    auto with frames.
  eapply frames_trans; [apply upgrade_packages_loop_frames|apply frames_updates_changed].
Qed.

Lemma remove_repository_frames repo st :
  frames st (gs_plugin_android_remove_repository_async repo st).1.
Proof.
  unfold gs_plugin_android_remove_repository_async.
  destruct (objects st !! repo); [|auto with frames].
  case_bool_decide; cbn [fst]; auto with frames.
Qed.

Lemma remove_repository_cb_frames app res st :
  frames st (fdroid_remove_repository_cb app res st).1.
Proof.
  unfold fdroid_remove_repository_cb. destruct res; cbn [fst].
  - eapply frames_trans; [apply frames_g_debug|apply frames_set_state_recover].
  - eapply frames_trans; [apply frames_g_debug|apply frames_set_state].
Qed.

(** The listing callbacks: each writes its own cache. *)
Lemma fdroid_get_installed_apps_loop_frame self reply st list_ :
  let acc := fold_left (fdroid_get_installed_apps_child self) reply (st, list_) in
  updatable_apps acc.1 = updatable_apps st
  /\ store_extends (objects st) (objects acc.1).
Proof.
  induction reply as [|x reply IH] using rev_ind.
  - split; [done|apply store_extends_refl].
  - cbn zeta in *. rewrite fold_left_app. cbn [fold_left].
    destruct (fold_left _ reply _) as [st' l]. cbn [fst] in IH. destruct IH as [Hu Ho].
    destruct (g_variant_dict_lookup x "packageName") as [p|] eqn:Hp.
    + destruct (fdroid_get_installed_apps_child_some self st' l x p Hp)
        as (Hobjs & _ & Hupd & _). cbn zeta in *.
      rewrite Hobjs, Hupd. split; [done|].
      eapply store_extends_trans; [done|apply store_extends_app].
    + unfold fdroid_get_installed_apps_child. by rewrite Hp.
Qed.

Lemma fdroid_get_upgradable_loop_frame self reply st list_ :
  let acc := fold_left (fdroid_get_upgradable_child self) reply (st, list_) in
  installed_apps acc.1 = installed_apps st
  /\ store_extends (objects st) (objects acc.1)
  /\ (forall r, r ∈ updatable_apps acc.1 ->
        r ∈ updatable_apps st
        \/ exists child p, objects acc.1 !! r = Some (upgradable_app_of_child self child p)).
Proof.
  induction reply as [|x reply IH] using rev_ind.
  - split; [done|]. split; [apply store_extends_refl|]. auto.
  - cbn zeta in *. rewrite fold_left_app. cbn [fold_left].
    destruct (fold_left _ reply _) as [st' l]. cbn [fst] in IH.
    destruct IH as (Hi & Ho & Hu).
    destruct (g_variant_dict_lookup x "packageName") as [p|] eqn:Hp.
    + destruct (fdroid_get_upgradable_child_some self st' l x p Hp)
        as (Hobjs & Hupd & Hinst & _). cbn zeta in *.
      fold (upgradable_app_of_child self x p) in Hobjs, Hupd.
      rewrite Hobjs, Hupd, Hinst. split; [done|].
      split; [eapply store_extends_trans; [done|apply store_extends_app]|].
      intros r Hr. apply gs_app_list_add_elem in Hr as [Hr| ->].
      * destruct (Hu r Hr) as [?|(child & q & Hobj)]; [auto|].
        right. exists child, q. by apply lookup_app_l_Some.
      * right. exists x, p. by rewrite lookup_app_r, Nat.sub_diag by lia.
    + unfold fdroid_get_upgradable_child. rewrite Hp. cbn [fst]. auto.
Qed.

Lemma caches_sound_frames self rs f :
  caches_sound self rs ->
  frames (repo_state rs) (f (repo_state rs)) ->
  caches_sound self (on_state f rs).
Proof.
  intros (Hinst & Hupd & Hcache) (Hi & Hu & Ho). unfold caches_sound.
  cbn [on_state repo_state plugin_cache]. rewrite Hi, Hu.
  unfold gs_app_get_metadata_item in *. split; [|split].
  - intros r Hr. destruct (Hinst r Hr) as (a & p & Ha & ? & ? & ?).
    destruct (Ho r a Ha) as (b & Hb & (_ & Hk & Hm & Hmd)).
    exists b, p. by rewrite <- Hk, <- Hm, <- Hmd.
  - intros r Hr. destruct (Hupd r Hr) as (a & Ha & ? & ?).
    destruct (Ho r a Ha) as (b & Hb & (_ & Hk & Hm & _)).
    exists b. by rewrite <- Hk, <- Hm.
  - intros url r Hr. destruct (Hcache url r Hr) as (a & name & Ha & ? & ? & ? & ?).
    destruct (Ho r a Ha) as (b & Hb & (Hid & Hk & Hm & Hmd)).
    exists b, name. by rewrite <- Hid, <- Hk, <- Hm, <- Hmd.
Qed.

#[local] Hint Resolve list_apps_frames search_cb_frames install_apps_frames
  install_cb_frames uninstall_apps_frames uninstall_cb_frames update_apps_frames
  upgrade_packages_cb_frames remove_repository_frames remove_repository_cb_frames
  : frames.

Lemma installed_cb_error_frames self e st :
  frames st (fdroid_get_installed_apps_cb self (inl e) st).1.
Proof. unfold fdroid_get_installed_apps_cb. cbn [fst]. auto with frames. Qed.

Lemma upgradable_cb_error_frames self e st :
  frames st (fdroid_get_upgradable_cb self (inl e) st).1.
Proof. unfold fdroid_get_upgradable_cb. cbn [fst]. auto with frames. Qed.

Lemma refresh_metadata_frames st :
  frames st (gs_plugin_android_refresh_metadata_async st).1.
Proof. unfold gs_plugin_android_refresh_metadata_async. cbn [fst]. auto with frames. Qed.

Lemma update_cache_cb_frames res st : frames st (fdroid_update_cache_cb res st).1.
Proof. unfold fdroid_update_cache_cb. destruct res; cbn [fst]; auto with frames. Qed.

#[local] Hint Resolve installed_cb_error_frames upgradable_cb_error_frames
  refresh_metadata_frames update_cache_cb_frames : frames.

Lemma upgradable_cb_frame self reply st :
  let st' := (fdroid_get_upgradable_cb self (inr reply) st).1 in
  installed_apps st' = installed_apps st
  /\ store_extends (objects st) (objects st')
  /\ (forall r, r ∈ updatable_apps st' ->
        r ∈ updatable_apps st
        \/ exists child p, objects st' !! r = Some (upgradable_app_of_child self child p)).
Proof.
  cbn zeta. destruct (fdroid_get_upgradable_cb_loop self reply st) as [msg ->].
  apply (fdroid_get_upgradable_loop_frame self reply st gs_app_list_new).
Qed.

Lemma installed_cb_frame self reply st :
  let st' := (fdroid_get_installed_apps_cb self (inr reply) st).1 in
  updatable_apps st' = updatable_apps st
  /\ store_extends (objects st) (objects st')
  /\ (forall r, r ∈ installed_apps st' ->
        exists child p, objects st' !! r = Some (installed_app_of_child self child p)).
Proof.
  cbn zeta. rewrite fdroid_get_installed_apps_cb_loop. cbn zeta. cbn [fst].
  set (st0 := with_installed_apps (gs_app_list_remove_all (installed_apps st)) st).
  pose proof (installed_loop_invariant_holds self st0 reply eq_refl) as (_ & _ & Hsound & _).
  destruct (fdroid_get_installed_apps_loop_frame self reply st0 gs_app_list_new) as [Hu Ho].
  split; [done|]. split; [done|].
  intros r Hr. destruct (Hsound r Hr) as (_ & child & p & _ & _ & Hobj). by exists child, p.
Qed.

(** The three caches stay sound under every event. *)
Lemma caches_sound_step self rs ev :
  caches_sound self rs -> caches_sound self (step self rs ev).
Proof.
  intros Hrs.
  destruct ev as [query|[e|repositories]|[e|reply]|[e|reply]| | | | | | | | | | |];
    cbn [step];
    try (apply caches_sound_frames; [done|]; cbv beta; auto with frames; fail).
  - done.
  - (* the repository listing *)
    unfold fdroid_get_repositories_cb.
    pose proof (fdroid_get_repositories_loop self repositories rs gs_app_list_new)
      as (Hobjs & Hi & Hu & Hin & Hout). cbn zeta in *.
    destruct (fold_left _ repositories _) as [rs' l]. cbn [fst snd] in *.
    assert (frames (repo_state rs) (repo_state rs')) as Hframes.
    { split; [done|]. split; [done|]. rewrite Hobjs. apply store_extends_app. }
    destruct (caches_sound_frames self rs (fun _ => repo_state rs') Hrs Hframes)
      as (Hinst' & Hupd' & Hcache').
    cbn [on_state repo_state plugin_cache] in *.
    split; [done|]. split; [done|].
    intros url r Hr.
    destruct (decide (url ∈ repositories.*2)) as [Hurl|Hurl].
    + apply list_elem_of_fmap in Hurl as ([name url'] & -> & Hpair). cbn [snd] in *.
      destruct (Hin name url' Hpair) as (r' & name' & Hc & Ho & _ & _).
      rewrite Hr in Hc. injection Hc as <-.
      destruct (fdroid_repository_app_fields self name' url') as (? & ? & ? & ? & _).
      eexists _, name'. split; [exact Ho|]. done.
    + apply Hcache'. rewrite <- Hr. symmetry. apply Hout.
      intros name Hpair. apply Hurl. apply list_elem_of_fmap. by exists (name, url).
  - (* the installed refresh *)
    destruct (installed_cb_frame self reply (repo_state rs)) as (Hu & Ho & Hnew).
    set (st' := (fdroid_get_installed_apps_cb self (inr reply) (repo_state rs)).1) in *.
    assert (frames (repo_state rs)
              (with_installed_apps (installed_apps (repo_state rs)) st')) as Hframes.
    { split; [done|]. split; done. }
    destruct (caches_sound_frames self rs
                (fun _ => with_installed_apps (installed_apps (repo_state rs)) st')
                Hrs Hframes) as (_ & Hupd' & Hcache').
    cbn [on_state repo_state plugin_cache] in *.
    split; [|split; [exact Hupd'|exact Hcache']].
    intros r Hr. destruct (Hnew r Hr) as (child & p & Hobj).
    destruct (fdroid_installed_app_fields self p (g_variant_dict_lookup child "name")
                (g_variant_dict_lookup child "id")) as (? & ? & ? & _).
    by exists (installed_app_of_child self child p), p.
  - (* the updatable refresh *)
    destruct (upgradable_cb_frame self reply (repo_state rs)) as (Hi & Ho & Hnew).
    set (st' := (fdroid_get_upgradable_cb self (inr reply) (repo_state rs)).1) in *.
    assert (frames (repo_state rs)
              (with_updatable_apps (updatable_apps (repo_state rs)) st')) as Hframes.
    { split; [done|]. split; done. }
    destruct (caches_sound_frames self rs
                (fun _ => with_updatable_apps (updatable_apps (repo_state rs)) st')
                Hrs Hframes) as (Hinst' & Hupd' & Hcache').
    cbn [on_state repo_state plugin_cache] in *.
    split; [exact Hinst'|]. split; [|exact Hcache'].
    intros r Hr. destruct (Hnew r Hr) as [Hold|(child & p & Hobj)]; [by apply Hupd'|].
    destruct (fdroid_upgradable_app_fields self p (g_variant_dict_lookup child "name")
                (g_variant_dict_lookup child "id")
                (g_variant_dict_lookup child "repository")
                (g_variant_dict_lookup child "currentVersion")
                (g_variant_dict_lookup child "availableVersion")) as (? & ? & _).
    by exists (upgradable_app_of_child self child p).
Qed.

(** X17.  The caches over a whole session.  Start from an initialised
    plugin (both lists empty, nothing in the plugin cache) in a store that
    holds any applications of other plugins, and let any events follow:
    entry points called with any lists, flags and queries, callbacks
    completing with any reply or error and any task data.  As long as
    nothing but the plugin writes to the applications, then at the end
    every application of the installed cache is a desktop application
    managed by this plugin that carries a package name, every application
    of the updatable cache is a desktop application managed by this plugin,
    and the plugin cache leads from each of its URLs to a repository of
    this plugin with that URL.  So an uninstall request for any one cached
    installed application reaches the service with a package name, and
    removing any cached repository reaches it with the repository's id. *)
Theorem session_caches_sound
    (self : GsPlugin) (objs : list GsApp) (events : list Event) :
  let rs := run self events (repositories_init (gs_plugin_android_init objs)) in
  caches_sound self rs
  /\ (forall r, r ∈ installed_apps (repo_state rs) ->
        exists p,
          (gs_plugin_android_uninstall_apps_async self [r] (repo_state rs)).2
          = Called "UninstallApp" (ParametersString (Some p)) (Some r))
  /\ (forall url r, plugin_cache rs !! url = Some r ->
        exists name,
          (gs_plugin_android_remove_repository_async r (repo_state rs)).2
          = Called "RemoveRepository" (ParametersString (Some name)) r).
Proof.
  cbn zeta.
  assert (caches_sound self
            (run self events (repositories_init (gs_plugin_android_init objs)))) as Hsound.
  { unfold run. induction events as [|ev events IH] using rev_ind.
    - split; [|split].
      + intros r Hr. by apply elem_of_nil in Hr.
      + intros r Hr. by apply elem_of_nil in Hr.
      + intros url r Hr. change ((∅ : gmap string nat) !! url = Some r) in Hr.
        by rewrite lookup_empty in Hr.
    - rewrite fold_left_app. cbn [fold_left]. by apply caches_sound_step. }
  split; [done|].
  destruct Hsound as (Hinst & _ & Hcache).
  set (rs := run self events _) in *. split.
  - intros r Hr. destruct (Hinst r Hr) as (a & p & Ha & Hkind & Hown & Hp).
    exists p. pose proof (uninstall_one self (repo_state rs) r a Ha) as Hone.
    destruct (gs_plugin_android_uninstall_apps_async self [r] (repo_state rs))
      as [st' outcome].
    destruct Hone as (-> & _); [by rewrite Hkind|done|]. by rewrite Hp.
  - intros url r Hr. destruct (Hcache url r Hr) as (a & name & Ha & Hid & Hkind & _).
    exists name. unfold gs_plugin_android_remove_repository_async.
    rewrite Ha. unfold gs_app_get_kind, gs_app_get_id.
    by rewrite bool_decide_eq_true_2, Hid.
Qed.

Lemma search_is_installed_frames st st' id :
  installed_apps st' = installed_apps st ->
  store_extends (objects st) (objects st') ->
  (forall r, r ∈ installed_apps st -> r < length (objects st)) ->
  search_is_installed st' id = search_is_installed st id.
Proof.
  intros Hi Ho Hvalid. unfold search_is_installed. rewrite Hi.
  revert Hvalid. generalize (installed_apps st) as l.
  induction l as [|r l IH]; intros Hvalid; [done|]. cbn [existsb].
  rewrite IH by (intros r' Hr'; apply Hvalid, elem_of_cons; by right). f_equal.
  destruct (lookup_lt_is_Some_2 (objects st) r) as [a Ha];
    [apply Hvalid, elem_of_cons; by left|].
  destruct (Ho r a Ha) as (b & Hb & (_ & _ & _ & Hmd)).
  rewrite Ha, Hb. unfold gs_app_get_metadata_item. by rewrite Hmd.
Qed.

Lemma step_installed_frame self rs ev :
  is_installed_refresh ev = false ->
  installed_apps (repo_state (step self rs ev)) = installed_apps (repo_state rs)
  /\ store_extends (objects (repo_state rs)) (objects (repo_state (step self rs ev))).
Proof.
  intros Hev.
  assert (forall st', frames (repo_state rs) st' ->
            installed_apps st' = installed_apps (repo_state rs)
            /\ store_extends (objects (repo_state rs)) (objects st')) as Hframes.
  { by intros st' (? & _ & ?). }
  destruct ev as [query|[e|repositories]|[e|reply]|[e|reply]| | | | | | | | | | |];
    cbn [step on_state repo_state]; try discriminate;
    try (apply Hframes; auto with frames; fail).
  - unfold fdroid_get_repositories_cb.
    pose proof (fdroid_get_repositories_loop self repositories rs gs_app_list_new)
      as (Hobjs & Hi & _). cbn zeta in *.
    destruct (fold_left _ repositories _) as [rs' l]. cbn [fst snd] in *.
    split; [done|]. rewrite Hobjs. apply store_extends_app.
  - by destruct (upgradable_cb_frame self reply (repo_state rs)) as (? & ? & _).
Qed.

(** X18.  Only the installed refresh writes the installed cache, and the
    search reads nothing else of the plugin's world.  Over any events none
    of which is a successful installed refresh, the installed cache stays
    the same list, and a search element is made into the same application
    after the events as before them: an application that was installed or
    uninstalled in between is still reported by the cache as of the last
    refresh.  (The cache holds references to objects of the store.) *)
Theorem search_follows_installed_cache
    (self : GsPlugin) (events : list Event) (rs : Repositories) :
  Forall (fun ev => is_installed_refresh ev = false) events ->
  (forall r, r ∈ installed_apps (repo_state rs) -> r < length (objects (repo_state rs))) ->
  let st' := repo_state (run self events rs) in
  installed_apps st' = installed_apps (repo_state rs)
  /\ forall element uninit,
       fdroid_search_element self st' element uninit
       = fdroid_search_element self (repo_state rs) element uninit.
Proof.
  intros Hevents Hvalid. cbn zeta.
  assert (installed_apps (repo_state (run self events rs)) = installed_apps (repo_state rs)
          /\ store_extends (objects (repo_state rs))
               (objects (repo_state (run self events rs)))) as [Hi Ho].
  { unfold run. clear Hvalid. revert Hevents.
    induction events as [|ev events IH] using rev_ind; intros Hevents.
    - split; [done|apply store_extends_refl].
    - apply Forall_app in Hevents as [Hevents Hev].
      apply Forall_inv in Hev.
      rewrite fold_left_app. cbn [fold_left]. destruct (IH Hevents) as [Hi Ho].
      destruct (step_installed_frame self (fold_left (step self) events rs) ev Hev)
        as [Hi' Ho'].
      split; [congruence|]. by eapply store_extends_trans. }
  split; [done|]. intros element uninit.
  unfold fdroid_search_element. cbv zeta.
  by rewrite (search_is_installed_frames _ _ _ Hi Ho Hvalid).
Qed.

Lemma search_follows_installed_cache_witness :
  let st' := repo_state (run android uninstall_session_example
                           (repositories_init installed_example_state)) in
  installed_apps st' = installed_apps installed_example_state
  /\ forall element uninit,
       fdroid_search_element android st' element uninit
       = fdroid_search_element android installed_example_state element uninit.
Proof.
  apply (search_follows_installed_cache android uninstall_session_example
           (repositories_init installed_example_state)).
  - repeat constructor.
  - apply installed_refresh_refs_valid.
Defined.

(** The session of the example: the application is Available after its
    uninstall, and a search that finds it reports it Installed. *)
Example uninstalled_app_is_found_installed :
  let st' := repo_state (run android uninstall_session_example
                           (repositories_init installed_example_state)) in
  state_of st' 0 = Some GS_APP_STATE_AVAILABLE
  /\ app_state (fdroid_search_element android st'
                  (search_element_example "x.y.z" "https://example.com/icon.png")
                  (uninit_null 0)).1
     = GS_APP_STATE_INSTALLED.
Proof. vm_compute. split; reflexivity. Qed.

(** ** When the host is notified *)

Lemma update_apps_loop_updates_changed list_ builder st :
  updates_changed (update_apps_loop list_ builder st).1 = updates_changed st.
Proof.
  revert builder st. induction list_ as [|r rest IH]; intros builder st;
    cbn [update_apps_loop]; [done|].
  destruct (metadata_item_of st r "android::package-name"); by rewrite IH.
Qed.

Lemma upgrade_packages_loop_updates_changed list_ st :
  updates_changed (upgrade_packages_loop list_ st) = updates_changed st.
Proof.
  revert st. induction list_ as [|r rest IH]; intros st;
    cbn [upgrade_packages_loop]; [done|].
  destruct (objects st !! r); by rewrite IH.
Qed.

Lemma g_debug_fold_updates_changed msgs st :
  updates_changed (fold_left (fun st msg => g_debug msg st) msgs st) = updates_changed st.
Proof.
  revert st. induction msgs as [|msg msgs IH]; intros st; [done|].
  simpl. by rewrite IH.
Qed.

Lemma fdroid_search_loop_updates_changed self uninit i elements st list_ :
  updates_changed (fdroid_search_loop self uninit i elements st list_).1
  = updates_changed st.
Proof.
  revert i st list_. induction elements as [|element rest IH]; intros i st list_;
    cbn [fdroid_search_loop]; [done|].
  destruct (fdroid_search_element self st element (uninit i)) as [app msgs].
  cbn [alloc_app]. rewrite IH. cbn [with_objects updates_changed].
  apply g_debug_fold_updates_changed.
Qed.

Lemma fdroid_get_installed_apps_loop_updates_changed self reply st list_ :
  updates_changed (fold_left (fdroid_get_installed_apps_child self) reply (st, list_)).1
  = updates_changed st.
Proof.
  induction reply as [|x reply IH] using rev_ind; [done|].
  rewrite fold_left_app. cbn [fold_left].
  destruct (fold_left _ reply _) as [st' l]. cbn [fst] in IH. rewrite <- IH.
  unfold fdroid_get_installed_apps_child.
  by destruct (g_variant_dict_lookup x "packageName").
Qed.

Lemma fdroid_get_upgradable_loop_updates_changed self reply st list_ :
  updates_changed (fold_left (fdroid_get_upgradable_child self) reply (st, list_)).1
  = updates_changed st.
Proof.
  induction reply as [|x reply IH] using rev_ind; [done|].
  rewrite fold_left_app. cbn [fold_left].
  destruct (fold_left _ reply _) as [st' l]. cbn [fst] in IH. rewrite <- IH.
  unfold fdroid_get_upgradable_child.
  by destruct (g_variant_dict_lookup x "packageName").
Qed.

Lemma fdroid_get_repositories_loop_updates_changed self repositories rs list_ :
  updates_changed
    (repo_state (fold_left (fdroid_get_repositories_pair self) repositories (rs, list_)).1)
  = updates_changed (repo_state rs).
Proof.
  induction repositories as [|[n u] repositories IH] using rev_ind; [done|].
  rewrite fold_left_app. cbn [fold_left].
  destruct (fold_left _ repositories _) as [rs' l]. cbn [fst] in IH. by rewrite <- IH.
Qed.

Lemma step_updates_changed self rs ev :
  updates_changed (repo_state (step self rs ev))
  = updates_changed (repo_state rs) + (if emits_updates_changed ev then 1 else 0).
Proof.
  destruct ev as [query|res|res|res|uninit res|list_ flags|install_list res|list_
                  |app res|list_ flags|list_ res|repo|app res| |res];
    cbn [step on_state repo_state emits_updates_changed].
  - rewrite Nat.add_0_r. unfold gs_plugin_android_list_apps_async.
    by repeat first [case_bool_decide | case_match].
  - rewrite Nat.add_0_r. unfold fdroid_get_repositories_cb.
    destruct res as [e|repositories]; [done|].
    pose proof (fdroid_get_repositories_loop_updates_changed self repositories rs
                  gs_app_list_new) as H.
    by destruct (fold_left _ repositories _).
  - rewrite Nat.add_0_r. destruct res as [e|reply].
    + by unfold fdroid_get_installed_apps_cb.
    + rewrite fdroid_get_installed_apps_cb_loop. cbn zeta. cbn [fst].
      by rewrite fdroid_get_installed_apps_loop_updates_changed.
  - rewrite Nat.add_0_r. destruct res as [e|reply].
    + by unfold fdroid_get_upgradable_cb.
    + destruct (fdroid_get_upgradable_cb_loop self reply (repo_state rs)) as [msg ->].
      apply (fdroid_get_upgradable_loop_updates_changed self reply (repo_state rs)).
  - rewrite Nat.add_0_r. unfold fdroid_search_cb. destruct res as [e|json_data]; [done|].
    destruct (json_parser_load_from_data json_data) as [e|root]; [done|].
    pose proof (fdroid_search_loop_updates_changed self uninit 0
                  (default [] (json_node_get_array root)) (repo_state rs)
                  gs_app_list_new) as H.
    by destruct (fdroid_search_loop _ _ _ _ _ _).
  - rewrite Nat.add_0_r. unfold gs_plugin_android_install_apps_async.
    destruct (install_no_download flags || install_no_apply flags); [done|].
    pose proof (install_apps_loop_updates_changed self list_ gs_app_list_new
                  (repo_state rs)) as Hloop.
    destruct (install_apps_loop self list_ gs_app_list_new (repo_state rs))
      as [st' [l|]]; [|done].
    by destruct (negb _).
  - unfold fdroid_install_app_cb.
    destruct install_list as [[|r l]|], res as [e|[]]; cbn; lia.
  - rewrite Nat.add_0_r. unfold gs_plugin_android_uninstall_apps_async.
    pose proof (uninstall_apps_loop_updates_changed self list_ gs_app_list_new
                  (repo_state rs)) as Hloop.
    destruct (uninstall_apps_loop self list_ gs_app_list_new (repo_state rs))
      as [st' [l|]]; [|done].
    by destruct (negb _).
  - unfold fdroid_uninstall_app_cb. destruct app, res as [e|[]]; cbn; lia.
  - rewrite Nat.add_0_r. unfold gs_plugin_android_update_apps_async.
    destruct (update_no_apply flags); [done|].
    pose proof (update_apps_loop_updates_changed list_ [] (repo_state rs)) as H.
    by destruct (update_apps_loop list_ [] (repo_state rs)).
  - unfold fdroid_upgrade_packages_cb. destruct res as [e|[|]]; cbn [fst negb].
    + lia.
    + cbn [gs_plugin_updates_changed updates_changed].
      rewrite upgrade_packages_loop_updates_changed. lia.
    + lia.
  - rewrite Nat.add_0_r. unfold gs_plugin_android_remove_repository_async.
    destruct (objects (repo_state rs) !! repo); [|done]. by case_bool_decide.
  - rewrite Nat.add_0_r. unfold fdroid_remove_repository_cb. by destruct res.
  - by rewrite Nat.add_0_r.
  - unfold fdroid_update_cache_cb. destruct res; cbn; lia.
Qed.

(** X19.  When the host is told that the updates have changed.  Over any
    session the plugin has emitted updates-changed once for each of these
    completions, and at no other time: an install that succeeded (with an
    application in its task data), an uninstall that succeeded, an upgrade
    whose reply was TRUE, and a cache update that got any reply, also the
    reply FALSE.  No entry point emits it, no listing, no failed call, and
    no removal of a repository. *)
Theorem updates_changed_emissions
    (self : GsPlugin) (events : list Event) (rs : Repositories) :
  updates_changed (repo_state (run self events rs))
  = updates_changed (repo_state rs) + length (List.filter emits_updates_changed events).
Proof.
  unfold run. induction events as [|ev events IH] using rev_ind.
  - simpl. lia.
  - rewrite fold_left_app, List.filter_app, length_app. cbn [fold_left].
    rewrite step_updates_changed, IH. cbn [List.filter].
    destruct (emits_updates_changed ev); simpl; lia.
Qed.

Example updates_changed_emissions_example :
  updates_changed
    (repo_state (run android notify_session_example
                   (repositories_init install_example_state)))
  = updates_changed install_example_state + 3.
Proof. vm_compute. reflexivity. Qed.
